(** * SeirChain core: triad store, gossip node and wallet

    A shallow embedding of the three JavaScript classes that
    [setup_seirchain.sh] writes out: [src/core/TriadMatrix.js],
    [src/network/P2PNode.js] and [src/core/Wallet.js].

    Conventions of the embedding.
    - Module [TriadMatrix] follows the bookkeeping of the store (objects,
      index, database, events).  There a JavaScript number is a real
      number ([R]) and a coordinate produced by [Math.floor] an integer
      ([Z]); it serves for the properties of that bookkeeping, which do
      not turn on how a double rounds.
    - Module [Double] gives the scoring methods on binary64 numbers
      ([float]), operation by operation as the code performs them; the
      properties of the consensus score and of the connection filter are
      proved there.
    - Triad objects live in a heap and are addressed by reference, because
      the store keeps the same object in [this.matrix] and in
      [this.triads], hands it to event listeners and returns it from
      [getMatrixState], and [validateTriad] mutates it in place.
    - LevelDB (opened with [valueEncoding: 'json']) is a finite map from
      key strings to JSON documents; writes and reads never fault.
    - Randomness and the clock are read from an explicit [Ambient].
    - An [async] method is run to completion as one step; the effects it
      performs are returned in the order in which the code performs them. *)

From Stdlib Require Import Floats.
Close Scope float_scope.
From Stdlib Require Import Reals Lra Ascii.
From stdpp Require Import gmap strings list fin_maps.

#[global] Instance Rle_decision : RelDecision Rle := Rle_dec.
#[global] Instance Rlt_decision : RelDecision Rlt := Rlt_dec.
#[global] Instance Rgt_decision : RelDecision Rgt := Rgt_dec.
#[global] Instance Rge_decision : RelDecision Rge := Rge_dec.
#[global] Instance Req_decision : EqDecision R := Req_dec_T.

(** ** JavaScript values *)

Inductive Error :=
  | NotInitialized        (* 'TriadMatrix not initialized' *)
  | InvalidData           (* 'Invalid data format for triad' *)
  | InvalidValidator      (* 'Invalid validator ID' *)
  | NotFound              (* 'Triad with ID ... not found' *)
  | InvalidRegistration   (* 'Invalid validator ID for registration.' *)
  | InvalidFormat         (* 'Invalid private key format. Expected 64 hex characters.' *)
  | ImportFailed          (* 'Failed to import private key: ...' *)
  | TypeError             (* property read on undefined or null *)
  | LibraryFailure        (* an exception raised inside elliptic or crypto *)
  | InvalidURL.           (* the SyntaxError of new WebSocket(address) *)


Inductive Result (A : Type) :=
  | Return (a : A)
  | Throw (e : Error).
Arguments Return {A} a.
Arguments Throw {A} e.

Module Js.

#[local] Set Warnings "-register-all".

Inductive Value :=
  | Undefined
  | Null
  | Bool (b : bool)
  | Number (n : R)
  | Str (s : string)
  | Array (items : list Value)
  | Object (fields : list (string * Value)).

(** [!v] is [negb (ToBoolean v)]. *)
Definition ToBoolean (v : Value) : bool :=
  match v with
  | Undefined | Null => false
  | Bool b => b
  | Number n => negb (bool_decide (n = 0%R))
  | Str s => negb (bool_decide (s = ""))
  | Array _ | Object _ => true
  end.

Definition typeof (v : Value) : string :=
  match v with
  | Undefined => "undefined"
  | Null => "object"
  | Bool _ => "boolean"
  | Number _ => "number"
  | Str _ => "string"
  | Array _ | Object _ => "object"
  end.

(** Own properties of an object, in insertion order. *)
Fixpoint lookup_field (fields : list (string * Value)) (k : string) : Value :=
  match fields with
  | [] => Undefined
  | (k', v) :: rest => if bool_decide (k' = k) then v else lookup_field rest k
  end.

Fixpoint set_field (fields : list (string * Value)) (k : string) (v : Value)
  : list (string * Value) :=
  match fields with
  | [] => [(k, v)]
  | (k', v') :: rest =>
      if bool_decide (k' = k) then (k, v) :: rest else (k', v') :: set_field rest k v
  end.

(** [v.k]: a TypeError on [undefined] and [null], [undefined] for a
    property that is not there. *)
Definition get (v : Value) (k : string) : Result Value :=
  match v with
  | Undefined | Null => Throw TypeError
  | Object fields => Return (lookup_field fields k)
  | _ => Return Undefined
  end.

(** [Object.assign(target, source)] on two plain objects. *)
Definition assign (target source : list (string * Value)) : list (string * Value) :=
  fold_left (λ acc kv, set_field acc kv.1 kv.2) source target.

(** [a === b] where [a] is any value and [b] a string. *)
Definition strict_eq_string (a : Value) (b : string) : bool :=
  match a with
  | Str s => bool_decide (s = b)
  | _ => false
  end.

(** The string behind a value already known to have [typeof] "string". *)
Definition as_string (v : Value) : string :=
  match v with
  | Str s => s
  | _ => ""
  end.

(** [a === b].  Two objects (or arrays) are equal only when they are the
    same object; the values compared in this development come from
    separately parsed messages, so they never are. *)
Definition strict_eq (a b : Value) : bool :=
  match a, b with
  | Undefined, Undefined => true
  | Null, Null => true
  | Bool p, Bool q => bool_decide (p = q)
  | Number m, Number n => bool_decide (m = n)
  | Str s, Str t => bool_decide (s = t)
  | _, _ => false
  end.

Section ToString.

(** Number::toString of ECMAScript is not spelled out here. *)
Variable Number_toString : R → string.

(** The conversion a template literal applies to an interpolated value. *)
Fixpoint ToString (v : Value) : string :=
  match v with
  | Undefined => "undefined"
  | Null => "null"
  | Bool b => if b then "true" else "false"
  | Number n => Number_toString n
  | Str s => s
  | Array items =>
      String.concat ","
        (map (λ i, match i with Undefined | Null => "" | _ => ToString i end) items)
  | Object _ => "[object Object]"
  end.

End ToString.

(** [Object.assign(target, source)] on arbitrary values: properties are
    copied only between plain objects. *)
Definition assign_value (target source : Value) : Value :=
  match target, source with
  | Object tf, Object sf => Object (assign tf sf)
  | _, _ => target
  end.

End Js.

(** ** The ambient world: randomness, clock and the URL parser *)

Record Ambient := {
  entropy : nat → Byte.byte;   (* successive bytes of crypto.randomBytes *)
  Math_random : nat → R;       (* successive results of Math.random() *)
  Date_now : nat → Z;          (* successive results of Date.now() *)
  WebSocket_accepts : Js.Value → bool
    (* whether new WebSocket(address) takes the address; it throws a
       SyntaxError for an address that is not a URL it can connect to *)
}.

(** ** Buffer.toString('hex') *)

Definition hex_digit (n : N) : ascii :=
  match n with
  | 0 => "0" | 1 => "1" | 2 => "2" | 3 => "3" | 4 => "4" | 5 => "5"
  | 6 => "6" | 7 => "7" | 8 => "8" | 9 => "9" | 10 => "a" | 11 => "b"
  | 12 => "c" | 13 => "d" | 14 => "e" | _ => "f"
  end%N%char.

Fixpoint toString_hex (buf : list Byte.byte) : string :=
  match buf with
  | [] => EmptyString
  | b :: rest =>
      String (hex_digit (Byte.to_N b / 16))
        (String (hex_digit (Byte.to_N b mod 16)) (toString_hex rest))
  end.

Definition randomBytes (env : Ambient) (n : nat) : list Byte.byte :=
  map (entropy env) (seq 0 n).

Definition is_lower_hex (c : ascii) : bool :=
  let n := N_of_ascii c in
  ((48 <=? n) && (n <=? 57) || (97 <=? n) && (n <=? 102))%N.

Fixpoint string_forall (p : ascii → bool) (s : string) : bool :=
  match s with
  | EmptyString => true
  | String c rest => p c && string_forall p rest
  end.

(** ** src/core/TriadMatrix.js *)

Module TriadMatrix.

Record Position := { x : Z; y : Z; z : Z }.

Record Triad := {
  id : string;
  data : Js.Value;
  validator : Js.Value;
  timestamp : Z;
  position : Position;
  connections : list Js.Value;
  validated : bool;
  consensus : R;
  validationAttempts : Z
}.

(** A reference to a triad object: its index in the heap. *)
Definition ref := nat.

Inductive Event :=
  | triadCreated (triad : ref)
  | triadValidated (triad : ref).

Inductive Effect :=
  | Put (key : string) (value : Js.Value)   (* await this.db.put(key, value) *)
  | Emit (e : Event).                       (* this.emit(name, triad) *)

(** The instance.  [heap] holds the triad objects that [matrix] and
    [triads] refer to; [triads] is the JS Map and [validators] the JS Set,
    both in insertion order. *)
Record t := {
  heap : list Triad;
  db : gmap string Js.Value;
  dimensions : R;
  complexity : R;
  consensusThreshold : R;
  matrix : list ref;
  triads : list (string * ref);
  validators : list string;
  isInitialized : bool
}.

Record Outcome (A : Type) := {
  result : Result A;
  after : t;
  effects : list Effect
}.
Arguments result {A} _.
Arguments after {A} _.
Arguments effects {A} _.

Record Options := {
  opt_dimensions : option R;
  opt_complexity : option R;
  opt_consensusThreshold : option R
}.

(** [o || d] for an optional number: [undefined] and [0] are falsy. *)
Definition or_default (o : option R) (d : R) : R :=
  match o with
  | Some v => if bool_decide (v = 0%R) then d else v
  | None => d
  end.

(** The synchronous part of the constructor, before [init] has run. *)
Definition constructor (options : Options) : t :=
  {| heap := [];
     db := ∅;
     dimensions := or_default (opt_dimensions options) 3;
     complexity := or_default (opt_complexity options) 4;
     consensusThreshold := or_default (opt_consensusThreshold options) 0.67;
     matrix := [];
     triads := [];
     validators := [];
     isInitialized := false |}.

Definition set_heap (h : list Triad) (this : t) : t :=
  {| heap := h; db := db this; dimensions := dimensions this;
     complexity := complexity this; consensusThreshold := consensusThreshold this;
     matrix := matrix this; triads := triads this; validators := validators this;
     isInitialized := isInitialized this |}.

Definition set_db (d : gmap string Js.Value) (this : t) : t :=
  {| heap := heap this; db := d; dimensions := dimensions this;
     complexity := complexity this; consensusThreshold := consensusThreshold this;
     matrix := matrix this; triads := triads this; validators := validators this;
     isInitialized := isInitialized this |}.

Definition set_matrix (m : list ref) (this : t) : t :=
  {| heap := heap this; db := db this; dimensions := dimensions this;
     complexity := complexity this; consensusThreshold := consensusThreshold this;
     matrix := m; triads := triads this; validators := validators this;
     isInitialized := isInitialized this |}.

Definition set_triads (m : list (string * ref)) (this : t) : t :=
  {| heap := heap this; db := db this; dimensions := dimensions this;
     complexity := complexity this; consensusThreshold := consensusThreshold this;
     matrix := matrix this; triads := m; validators := validators this;
     isInitialized := isInitialized this |}.

Definition set_validators (v : list string) (this : t) : t :=
  {| heap := heap this; db := db this; dimensions := dimensions this;
     complexity := complexity this; consensusThreshold := consensusThreshold this;
     matrix := matrix this; triads := triads this; validators := v;
     isInitialized := isInitialized this |}.

(** [Map.prototype.get] and [Map.prototype.set]: a key that is already
    there keeps its place. *)
Fixpoint Map_get (m : list (string * ref)) (k : string) : option ref :=
  match m with
  | [] => None
  | (k', v) :: rest => if bool_decide (k' = k) then Some v else Map_get rest k
  end.

Fixpoint Map_set (m : list (string * ref)) (k : string) (v : ref) : list (string * ref) :=
  match m with
  | [] => [(k, v)]
  | (k', v') :: rest =>
      if bool_decide (k' = k) then (k, v) :: rest else (k', v') :: Map_set rest k v
  end.

(** [Set.prototype.has] on a set whose members are all strings: a value
    that is not a string is not a member. *)
Definition Set_has (s : list string) (v : Js.Value) : bool :=
  match v with
  | Js.Str v0 => bool_decide (v0 ∈ s)
  | _ => false
  end.

Definition Set_add (s : list string) (v : string) : list string :=
  if Set_has s (Js.Str v) then s else s ++ [v].

(** JSON documents written by [valueEncoding: 'json']. *)
Definition Position_toJSON (p : Position) : Js.Value :=
  Js.Object [("x", Js.Number (IZR (x p))); ("y", Js.Number (IZR (y p)));
             ("z", Js.Number (IZR (z p)))].

Definition Triad_toJSON (tr : Triad) : Js.Value :=
  Js.Object [("id", Js.Str (id tr));
             ("data", data tr);
             ("validator", validator tr);
             ("timestamp", Js.Number (IZR (timestamp tr)));
             ("position", Position_toJSON (position tr));
             ("connections", Js.Array (connections tr));
             ("validated", Js.Bool (validated tr));
             ("consensus", Js.Number (consensus tr));
             ("validationAttempts", Js.Number (IZR (validationAttempts tr)))].

Definition triad_key (triadId : string) : string := "triad:" +:+ triadId.

Definition stateMetadata (env : Ambient) (tick : nat) (this : t) : Js.Value :=
  Js.Object [("dimensions", Js.Number (dimensions this));
             ("complexity", Js.Number (complexity this));
             ("consensusThreshold", Js.Number (consensusThreshold this));
             ("validators", Js.Array (map Js.Str (validators this)));
             ("lastUpdated", Js.Number (IZR (Date_now env tick)))].

(** [saveMatrixState]; [tick] says which reading of the clock this is. *)
Definition saveMatrixState (env : Ambient) (tick : nat) (this : t) : t * list Effect :=
  let stateMetadata := stateMetadata env tick this in
  (set_db (<["matrix:state_metadata" := stateMetadata]> (db this)) this,
   [Put "matrix:state_metadata" stateMetadata]).

Definition set_isInitialized (b : bool) (this : t) : t :=
  {| heap := heap this; db := db this; dimensions := dimensions this;
     complexity := complexity this; consensusThreshold := consensusThreshold this;
     matrix := matrix this; triads := triads this; validators := validators this;
     isInitialized := b |}.

(** [init] on a database that holds no metadata yet: [loadMatrixState]
    gets "not found", writes the metadata, and the store is initialised.
    (The replay of an existing database is not part of this development.) *)
Definition init_on_empty_db (env : Ambient) (this : t) : t :=
  set_isInitialized true (saveMatrixState env 0 this).1.

Definition generateTriadId (env : Ambient) : string :=
  toString_hex (randomBytes env 16).

Definition Math_floor (r : R) : Z := Int_part r.

Definition calculateOptimalPosition (env : Ambient) (this : t) : Position :=
  {| x := Math_floor (Math_random env 0 * dimensions this);
     y := Math_floor (Math_random env 1 * dimensions this);
     z := Math_floor (Math_random env 2 * dimensions this) |}.

Definition Math_pow (b : R) (e : nat) : R := (b ^ e)%R.

Definition calculateDistance (pos1 pos2 : Position) : R :=
  sqrt (Math_pow (IZR (x pos1) - IZR (x pos2)) 2 +
        Math_pow (IZR (y pos1) - IZR (y pos2)) 2 +
        Math_pow (IZR (z pos1) - IZR (z pos2)) 2).

(** The triad objects that [this.matrix] holds, in order. *)
Definition matrix_objects (this : t) : list Triad :=
  omap (λ r : ref, heap this !! r) (matrix this).

Definition getTriadConnections (this : t) (triad : Triad) : list Triad :=
  List.filter
    (λ t0, if bool_decide (id t0 = id triad) then false
           else
             let distance := calculateDistance (position t0) (position triad) in
             bool_decide (distance <= complexity this)%R && bool_decide (distance > 0)%R)
    (matrix_objects this).

Definition calculateConnectionScore (this : t) (triad1 triad2 : Triad) : R :=
  let distance := calculateDistance (position triad1) (position triad2) in
  if bool_decide (distance > complexity this)%R then 0%R
  else Rmax 0 (1 - distance / complexity this).

Definition calculateConsensus (this : t) (triad : Triad) (currentValidatorId : Js.Value) : R :=
  let connections := getTriadConnections this triad in
  if bool_decide (length connections = 0%nat) then 0%R
  else
    let validationScores :=
      map (λ conn, if validated conn then calculateConnectionScore this triad conn
                   else (0.5 * calculateConnectionScore this triad conn)%R)
          connections in
    let selfValidationFactor :=
      if Set_has (validators this) currentValidatorId then 0.1%R else 0.05%R in
    let averageScore :=
      (fold_left (λ a b, a + b) validationScores 0 / INR (length validationScores))%R in
    Rmin 1 (averageScore + selfValidationFactor).

Definition throw {A : Type} (this : t) (e : Error) : Outcome A :=
  {| result := Throw e; after := this; effects := [] |}.

Definition createTriad (env : Ambient) (this : t) (data0 validator0 : Js.Value)
  : Outcome ref :=
  if negb (isInitialized this) then throw this NotInitialized
  else if negb (Js.ToBoolean data0)
          || negb (bool_decide (Js.typeof data0 = "object"))
             && negb (bool_decide (Js.typeof data0 = "string"))
  then throw this InvalidData
  else if negb (Js.ToBoolean validator0)
          || negb (bool_decide (Js.typeof validator0 = "string"))
  then throw this InvalidValidator
  else
    let triad :=
      {| id := generateTriadId env;
         data := data0;
         validator := validator0;
         timestamp := Date_now env 0;
         position := calculateOptimalPosition env this;
         connections := [];
         validated := false;
         consensus := 0;
         validationAttempts := 0 |} in
    let r : ref := length (heap this) in
    let this1 := set_heap (heap this ++ [triad]) this in
    let this2 := set_matrix (matrix this1 ++ [r]) this1 in
    let this3 := set_triads (Map_set (triads this2) (id triad) r) this2 in
    let this4 := set_db (<[triad_key (id triad) := Triad_toJSON triad]> (db this3)) this3 in
    let '(this5, saved) := saveMatrixState env 1 this4 in
    {| result := Return r;
       after := this5;
       effects := Put (triad_key (id triad)) (Triad_toJSON triad) :: saved
                  ++ [Emit (triadCreated r)] |}.

(** [this.triads.get(triadId)] together with the object it refers to.  The
    keys of the Map are strings, so no other value finds anything. *)
Definition triads_get (this : t) (triadId : Js.Value) : option (ref * Triad) :=
  match triadId with
  | Js.Str key =>
      r ← Map_get (triads this) key;
      triad ← heap this !! r;
      Some (r, triad)
  | _ => None
  end.

Definition set_consensus (c : R) (tr : Triad) : Triad :=
  {| id := id tr; data := data tr; validator := validator tr; timestamp := timestamp tr;
     position := position tr; connections := connections tr; validated := validated tr;
     consensus := c; validationAttempts := validationAttempts tr |}.

Definition set_validationAttempts (n : Z) (tr : Triad) : Triad :=
  {| id := id tr; data := data tr; validator := validator tr; timestamp := timestamp tr;
     position := position tr; connections := connections tr; validated := validated tr;
     consensus := consensus tr; validationAttempts := n |}.

Definition set_validated (b : bool) (tr : Triad) : Triad :=
  {| id := id tr; data := data tr; validator := validator tr; timestamp := timestamp tr;
     position := position tr; connections := connections tr; validated := b;
     consensus := consensus tr; validationAttempts := validationAttempts tr |}.

Definition validateTriad (this : t) (triadId validatorId : Js.Value) : Outcome ref :=
  if negb (isInitialized this) then throw this NotInitialized
  else
    match triads_get this triadId with
    | None => throw this NotFound
    | Some (r, triad) =>
        if validated triad then {| result := Return r; after := this; effects := [] |}
        else
          let consensusScore := calculateConsensus this triad validatorId in
          let triad1 := set_consensus consensusScore triad in
          let triad2 := set_validationAttempts (validationAttempts triad1 + 1) triad1 in
          let triad3 :=
            if bool_decide (consensusScore >= consensusThreshold this)%R
            then set_validated true triad2 else triad2 in
          let this1 := set_heap (<[r := triad3]> (heap this)) this in
          let key := triad_key (Js.as_string triadId) in
          let this2 := set_db (<[key := Triad_toJSON triad3]> (db this1)) this1 in
          {| result := Return r;
             after := this2;
             effects := [Put key (Triad_toJSON triad3);
                         Emit (triadValidated r)] |}
    end.

(** [getTriad]: a read of the durable record; [None] is JavaScript's [null]. *)
Definition getTriad (this : t) (triadId : string) : Result (option Js.Value) :=
  if negb (isInitialized this) then Throw NotInitialized
  else Return (db this !! triad_key triadId).

Record MatrixState := {
  ms_dimensions : R;
  ms_complexity : R;
  ms_triadsCount : nat;
  ms_triads : list ref;            (* Array.from(this.triads.values()) *)
  ms_validators : list string;     (* Array.from(this.validators) *)
  ms_consensusThreshold : R;
  ms_isInitialized : bool
}.

Definition getMatrixState (this : t) : MatrixState :=
  {| ms_dimensions := dimensions this;
     ms_complexity := complexity this;
     ms_triadsCount := length (matrix this);
     ms_triads := map snd (triads this);
     ms_validators := validators this;
     ms_consensusThreshold := consensusThreshold this;
     ms_isInitialized := isInitialized this |}.

(** What a holder of the snapshot reads from its [i]-th triad when the heap
    is [h]. *)
Definition snapshot_triad (h : list Triad) (snapshot : MatrixState) (i : nat) : option Triad :=
  r ← ms_triads snapshot !! i; h !! r.

Definition addValidator (env : Ambient) (this : t) (validatorId : Js.Value) : Outcome bool :=
  if negb (Js.ToBoolean validatorId)
     || negb (bool_decide (Js.typeof validatorId = "string"))
  then throw this InvalidRegistration
  else if Set_has (validators this) validatorId
  then {| result := Return false; after := this; effects := [] |}
  else
    let this1 := set_validators (Set_add (validators this) (Js.as_string validatorId)) this in
    let '(this2, saved) := saveMatrixState env 0 this1 in
    {| result := Return true; after := this2; effects := saved |}.

End TriadMatrix.

(** ** JavaScript numbers as binary64 values *)

Module Number.

#[local] Open Scope float_scope.

(** [Math.max(a, b)] and [Math.min(a, b)] of two numbers: NaN if either is
    NaN, and [+0] counts as larger than [-0]. *)
Definition Math_max (a b : float) : float :=
  if is_nan a || is_nan b then nan
  else if a <? b then b
  else if b <? a then a
  else if is_zero a && get_sign a then b else a.

Definition Math_min (a b : float) : float :=
  if is_nan a || is_nan b then nan
  else if a <? b then a
  else if b <? a then b
  else if is_zero a && negb (get_sign a) then b else a.

(** The [length] of an array as a number. *)
Definition of_length (n : nat) : float :=
  of_uint63 (Uint63.of_Z (Z.of_nat n)).





End Number.

(** ** src/core/TriadMatrix.js: the scoring methods in binary64 *)

Module Double.

#[local] Open Scope float_scope.
#[local] Set Warnings "-inexact-float".

Record Position := { x : float; y : float; z : float }.

(** The fields of a triad object that the scoring methods read. *)
Record Triad := {
  id : string;
  position : Position;
  validated : bool
}.

(** The fields of the instance that the scoring methods read; [matrix]
    holds the triad objects themselves, in the order of [this.matrix]. *)
Record t := {
  matrix : list Triad;
  complexity : float;
  validators : list string
}.

(** [Math.pow(b, 2)]: for the exponent 2 the library (fdlibm, whose [pow]
    the engine uses) returns [b * b]. *)
Definition Math_pow_2 (b : float) : float := b * b.

Definition calculateDistance (pos1 pos2 : Position) : float :=
  PrimFloat.sqrt (Math_pow_2 (x pos1 - x pos2) +
                  Math_pow_2 (y pos1 - y pos2) +
                  Math_pow_2 (z pos1 - z pos2)).

Definition getTriadConnections (this : t) (triad : Triad) : list Triad :=
  List.filter
    (λ t0, if bool_decide (id t0 = id triad) then false
           else
             let distance := calculateDistance (position t0) (position triad) in
             (distance <=? complexity this) && (0 <? distance))
    (matrix this).

Definition calculateConnectionScore (this : t) (triad1 triad2 : Triad) : float :=
  let distance := calculateDistance (position triad1) (position triad2) in
  if complexity this <? distance then 0
  else Number.Math_max 0 (1 - distance / complexity this).

Definition calculateConsensus (this : t) (triad : Triad) (currentValidatorId : Js.Value)
  : float :=
  let connections := getTriadConnections this triad in
  if bool_decide (length connections = 0%nat) then 0
  else
    let validationScores :=
      map (λ conn, if validated conn then calculateConnectionScore this triad conn
                   else 0.5 * calculateConnectionScore this triad conn)
          connections in
    let selfValidationFactor :=
      if TriadMatrix.Set_has (validators this) currentValidatorId then 0.1 else 0.05 in
    let averageScore :=
      fold_left (λ a b, a + b) validationScores 0
      / Number.of_length (length validationScores) in
    Number.Math_min 1 (averageScore + selfValidationFactor).

End Double.

(** ** src/core/Wallet.js *)

Module Wallet.

Definition is_hex (c : ascii) : bool :=
  let n := N_of_ascii c in
  ((48 <=? n) && (n <=? 57) || (97 <=? n) && (n <=? 102) || (65 <=? n) && (n <=? 70))%N.

(** [/^[0-9a-fA-F]{64}$/.test(s)] *)
Definition test_hex64 (s : string) : bool :=
  bool_decide (String.length s = 64%nat) && string_forall is_hex s.

Section Elliptic.

(** The elliptic and crypto libraries are outside the repository: they are
    taken as given.  [None] stands for a call that raises. *)
Context {KeyPair : Type}.
Variable keyFromPrivate : string → option KeyPair.      (* ec.keyFromPrivate(hex, 'hex') *)
Variable getPublic : KeyPair → option string.           (* keyPair.getPublic(true, 'hex') *)
Variable Buffer_from_hex : string → list Byte.byte.     (* Buffer.from(s, 'hex') *)
Variable sha256 : list Byte.byte → option (list Byte.byte).
Variable ripemd160 : list Byte.byte → option (list Byte.byte).

Record t := {
  keyPair : option KeyPair;
  address : option string;
  publicKey : option string
}.

(** The fields as the constructor first sets them. *)
Definition empty : t := {| keyPair := None; address := None; publicKey := None |}.

Definition _generateAddress (publicKeyHex : string) : Result (option string) :=
  if bool_decide (publicKeyHex = "") then Return None
  else
    match sha256 (Buffer_from_hex publicKeyHex) with
    | None => Throw LibraryFailure
    | Some hash1 =>
        match ripemd160 hash1 with
        | None => Throw LibraryFailure
        | Some digest =>
            let hash2 := toString_hex digest in
            Return (Some ("seir" +:+ String.substring 0 36 hash2))
        end
    end.

Definition importFromPrivateKey (this : t) (privateKeyHex : string) : Result bool * t :=
  if negb (test_hex64 privateKeyHex) then (Throw InvalidFormat, this)
  else
    match keyFromPrivate privateKeyHex with
    | None => (Throw ImportFailed, empty)
    | Some kp =>
        (* this.keyPair = kp *)
        match getPublic kp with
        | None => (Throw ImportFailed, empty)
        | Some pk =>
            (* this.publicKey = pk *)
            match _generateAddress pk with
            | Throw _ => (Throw ImportFailed, empty)
            | Return addr =>
                (Return true, {| keyPair := Some kp; address := addr; publicKey := Some pk |})
            end
        end
    end.

(** [new Wallet(privateKeyHex)]: [None] when the constructor raises. *)
Definition constructor (privateKeyHex : option string) : Result t :=
  match privateKeyHex with
  | None => Return empty
  | Some hex =>
      if bool_decide (hex = "") then Return empty
      else
        match importFromPrivateKey empty hex with
        | (Return _, this) => Return this
        | (Throw e, _) => Throw e
        end
  end.

Definition getPublicKey (this : t) : option string := publicKey this.

Definition getAddress (this : t) : option string := address this.

Definition isInitialized (this : t) : bool :=
  bool_decide (is_Some (keyPair this)) && bool_decide (is_Some (address this)).

End Elliptic.

End Wallet.

(** ** src/network/P2PNode.js *)

Module P2PNode.

Inductive ReadyState := CONNECTING | OPEN | CLOSING | CLOSED.

#[global] Instance ReadyState_eq_dec : EqDecision ReadyState.
Proof. solve_decision. Defined.

(** A WebSocket object, by identity. *)
Definition socket := nat.

Definition HANDSHAKE : string := "HANDSHAKE".
Definition DISCOVERY : string := "DISCOVERY".
Definition PEERS : string := "PEERS".
Definition NEW_TRIAD : string := "NEW_TRIAD".
Definition VALIDATE_TRIAD : string := "VALIDATE_TRIAD".
Definition TRIAD_VALIDATED : string := "TRIAD_VALIDATED_CONFIRMATION".
Definition GET_STATUS : string := "GET_STATUS".
Definition STATUS_UPDATE : string := "STATUS_UPDATE".
Definition ERROR : string := "ERROR".

Module Peer.

Record t := {
  ws : socket;
  id : string;
  direction : string;
  url : Js.Value;
  connectedAt : Z;
  nodeId : Js.Value;       (* undefined until the handshake *)
  address : Js.Value       (* undefined until the handshake *)
}.

Definition set_handshake (n a : Js.Value) (p : t) : t :=
  {| ws := ws p; id := id p; direction := direction p; url := url p;
     connectedAt := connectedAt p; nodeId := n; address := a |}.

End Peer.

(** The node.  [readyState] gives the state of every socket the node has
    seen (a socket that is not listed is closed); [advertisedSelf] is
    [process.env.P2P_ADVERTISED_ADDRESS]. *)
Record t := {
  nodeId : string;
  port : string;
  triadMatrix : option TriadMatrix.t;
  peers : list (string * Peer.t);
  maxPeers : nat;
  networkId : string;
  readyState : gmap socket ReadyState;
  advertisedSelf : option string
}.

Inductive Effect :=
  | Send (ws : socket) (message : Js.Value)     (* ws.send(JSON.stringify(message)) *)
  | Terminate (ws : socket)                     (* ws.terminate() *)
  | Dial (peerAddress : Js.Value)               (* new WebSocket(peerAddress, ...) *)
  | EmitPeerConnected (peerId : string)
  | EmitPeerDisconnected (peerId : string)
  | Store (e : TriadMatrix.Effect).

Definition set_triadMatrix (m : option TriadMatrix.t) (this : t) : t :=
  {| nodeId := nodeId this; port := port this; triadMatrix := m; peers := peers this;
     maxPeers := maxPeers this; networkId := networkId this;
     readyState := readyState this; advertisedSelf := advertisedSelf this |}.

Definition set_peers (p : list (string * Peer.t)) (this : t) : t :=
  {| nodeId := nodeId this; port := port this; triadMatrix := triadMatrix this; peers := p;
     maxPeers := maxPeers this; networkId := networkId this;
     readyState := readyState this; advertisedSelf := advertisedSelf this |}.

Definition set_readyState (r : gmap socket ReadyState) (this : t) : t :=
  {| nodeId := nodeId this; port := port this; triadMatrix := triadMatrix this;
     peers := peers this; maxPeers := maxPeers this; networkId := networkId this;
     readyState := r; advertisedSelf := advertisedSelf this |}.

Definition readyState_of (this : t) (ws : socket) : ReadyState :=
  default CLOSED (readyState this !! ws).

(** The peer Map, in insertion order. *)
Fixpoint peers_get (m : list (string * Peer.t)) (k : string) : option Peer.t :=
  match m with
  | [] => None
  | (k', v) :: rest => if bool_decide (k' = k) then Some v else peers_get rest k
  end.

Fixpoint peers_set (m : list (string * Peer.t)) (k : string) (v : Peer.t)
  : list (string * Peer.t) :=
  match m with
  | [] => [(k, v)]
  | (k', v') :: rest =>
      if bool_decide (k' = k) then (k, v) :: rest else (k', v') :: peers_set rest k v
  end.

Definition peers_delete (m : list (string * Peer.t)) (k : string) : list (string * Peer.t) :=
  List.filter (λ kv, negb (bool_decide (kv.1 = k))) m.

(** *** Handlers as computations over the node

    A handler reads and writes the node, performs effects in order and may
    raise; what it did before raising stays done. *)
Definition M (A : Type) : Type := t → Result A * t * list Effect.

Definition ret {A : Type} (a : A) : M A := λ this, (Return a, this, []).

Definition raise {A : Type} (e : Error) : M A := λ this, (Throw e, this, []).

Definition bind {A B : Type} (c : M A) (k : A → M B) : M B :=
  λ this,
    match c this with
    | (Return a, this1, w1) =>
        match k a this1 with
        | (r, this2, w2) => (r, this2, w1 ++ w2)
        end
    | (Throw e, this1, w1) => (Throw e, this1, w1)
    end.

Definition tell (e : Effect) : M unit := λ this, (Return (), this, [e]).

Definition get_this : M t := λ this, (Return this, this, []).

Definition put_this (this' : t) : M unit := λ _, (Return (), this', []).

Definition lift {A : Type} (r : Result A) : M A :=
  match r with
  | Return a => ret a
  | Throw e => raise e
  end.

(** [try { c } catch (error) { handler }] *)
Definition catch {A : Type} (c : M A) (handler : M A) : M A :=
  λ this,
    match c this with
    | (Throw _, this1, w1) =>
        match handler this1 with
        | (r, this2, w2) => (r, this2, w1 ++ w2)
        end
    | done => done
    end.

Notation "'let*' x ':=' c 'in' k" := (bind c (λ x, k))
  (at level 10, x name, c at level 100, k at level 200).
Notation "c ';;' k" := (bind c (λ _, k))
  (at level 100, k at level 200, right associativity).

Fixpoint forEach {A : Type} (f : A → M unit) (l : list A) : M unit :=
  match l with
  | [] => ret ()
  | a :: rest => f a ;; forEach f rest
  end.

Definition message (type : string) (payload : Js.Value) : Js.Value :=
  Js.Object [("type", Js.Str type); ("payload", payload)].

Definition error_message (text : string) : Js.Value :=
  message ERROR (Js.Object [("message", Js.Str text)]).

Definition terminate (ws : socket) : M unit :=
  let* this := get_this in
  put_this (set_readyState (<[ws := CLOSED]> (readyState this)) this) ;;
  tell (Terminate ws).

Definition sendMessage (ws : socket) (msg : Js.Value) : M unit :=
  let* this := get_this in
  if bool_decide (readyState_of this ws = OPEN) then tell (Send ws msg) else ret ().

Definition broadcast (msg : Js.Value) (originatorPeerId : option string) : M unit :=
  let* this := get_this in
  forEach (λ entry : string * Peer.t,
             if negb (bool_decide (Some entry.1 = originatorPeerId))
             then sendMessage (Peer.ws entry.2) msg
             else ret ())
          (peers this).

Definition addPeer (env : Ambient) (ws : socket) (peerId direction : string) (url : Js.Value)
  : M string :=
  let* this := get_this in
  put_this (set_peers (peers_set (peers this) peerId
                         {| Peer.ws := ws; Peer.id := peerId; Peer.direction := direction;
                            Peer.url := url; Peer.connectedAt := Date_now env 0;
                            Peer.nodeId := Js.Undefined; Peer.address := Js.Undefined |})
                      this) ;;
  tell (EmitPeerConnected peerId) ;;
  ret peerId.

Definition removePeer (peerId : string) : M unit :=
  let* this := get_this in
  match peers_get (peers this) peerId with
  | None => ret ()
  | Some peer =>
      (if bool_decide (readyState_of this (Peer.ws peer) = OPEN)
          || bool_decide (readyState_of this (Peer.ws peer) = CONNECTING)
       then terminate (Peer.ws peer) else ret ()) ;;
      let* this1 := get_this in
      put_this (set_peers (peers_delete (peers this1) peerId) this1) ;;
      tell (EmitPeerDisconnected peerId)
  end.

Definition findPeerIdByWs (this : t) (wsInstance : socket) : option string :=
  fst <$> List.find (λ entry : string * Peer.t, bool_decide (Peer.ws entry.2 = wsInstance))
                    (peers this).

(** [[...new Set(addresses)]]: first occurrences, in order. *)
Definition Set_from (values : list Js.Value) : list Js.Value :=
  fold_left (λ acc v, if existsb (Js.strict_eq v) acc then acc else acc ++ [v]) values [].

Definition getPeerAddresses (this : t) : list Js.Value :=
  Set_from
    (flat_map (λ entry : string * Peer.t,
                 if Js.ToBoolean (Peer.address entry.2) && Js.ToBoolean (Peer.nodeId entry.2)
                 then [Peer.address entry.2] else [])
              (peers this)).

Definition isConnectedTo (this : t) (peerAddress : Js.Value) : bool :=
  existsb (λ entry : string * Peer.t,
             Js.strict_eq (Peer.url entry.2) peerAddress
             || Js.strict_eq (Peer.address entry.2) peerAddress)
          (peers this).

(** A search for [pattern] anywhere in [s], as an unanchored RegExp of
    literal characters does. *)
Definition contains (pattern s : string) : bool :=
  bool_decide (is_Some (String.index 0 pattern s)).

(** [connectToPeer] up to the moment the WebSocket is created; the peer
    record itself is added by the socket's 'open' handler.  The
    constructor of WebSocket throws when it cannot take the address. *)
Definition connectToPeer (env : Ambient) (peerAddress : Js.Value) : M unit :=
  let* this := get_this in
  if bool_decide (maxPeers this ≤ length (peers this)) then ret ()
  else if existsb (λ entry : string * Peer.t, Js.strict_eq (Peer.url entry.2) peerAddress)
                  (peers this)
  then ret ()
  else if WebSocket_accepts env peerAddress then tell (Dial peerAddress)
  else raise InvalidURL.

Section Handlers.

Variable Number_toString : R → string.

Definition isSelf (this : t) (peerAddress : Js.Value) : bool :=
  let text := Js.ToString Number_toString peerAddress in
  contains ("ws://localhost:" +:+ port this) text
  || contains ("ws://127.0.0.1:" +:+ port this) text
  || match advertisedSelf this with
     | Some advertised =>
         negb (bool_decide (advertised = "")) && Js.strict_eq peerAddress (Js.Str advertised)
     | None => false
     end.

(** *** The listeners the constructor registers on the store *)

(** [JSON.stringify] of the triad object an event carries, at the time the
    listener runs. *)
Definition triad_payload (this : t) (r : TriadMatrix.ref) : Js.Value :=
  match triadMatrix this with
  | Some store =>
      match TriadMatrix.heap store !! r with
      | Some triad => TriadMatrix.Triad_toJSON triad
      | None => Js.Undefined
      end
  | None => Js.Undefined
  end.

Definition on_store_event (e : TriadMatrix.Event) : M unit :=
  let* this := get_this in
  match e with
  | TriadMatrix.triadCreated r => broadcast (message NEW_TRIAD (triad_payload this r)) None
  | TriadMatrix.triadValidated r =>
      broadcast (message TRIAD_VALIDATED (triad_payload this r)) None
  end.

Definition store_effect (e : TriadMatrix.Effect) : M unit :=
  tell (Store e) ;;
  match e with
  | TriadMatrix.Emit ev => on_store_event ev
  | TriadMatrix.Put _ _ => ret ()
  end.

(** A call of a store method from the node: the store is replaced by its
    state after the call, and the listeners run where the method emits. *)
Definition call_store {A : Type} (op : TriadMatrix.t → TriadMatrix.Outcome A)
  : M (Result A) :=
  let* this := get_this in
  match triadMatrix this with
  | None => raise TypeError
  | Some store =>
      put_this (set_triadMatrix (Some (TriadMatrix.after (op store))) this) ;;
      forEach store_effect (TriadMatrix.effects (op store)) ;;
      ret (TriadMatrix.result (op store))
  end.

(** [this.triadMatrix.db.put(key, value)] from inside the node. *)
Definition store_db_put (key : string) (value : Js.Value) : M unit :=
  let* this := get_this in
  match triadMatrix this with
  | None => raise TypeError
  | Some store =>
      put_this (set_triadMatrix
                  (Some (TriadMatrix.set_db (<[key := value]> (TriadMatrix.db store)) store))
                  this) ;;
      tell (Store (TriadMatrix.Put key value))
  end.

(** *** handleMessage, one definition per case of the switch *)

Definition case_HANDSHAKE (ws : socket) (msg : Js.Value) (peerId : string) (peer : Peer.t)
  : M unit :=
  let* this := get_this in
  let* payload := lift (Js.get msg "payload") in
  let* remoteNetworkId := lift (Js.get payload "networkId") in
  if negb (Js.strict_eq remoteNetworkId (Js.Str (networkId this)))
  then
    sendMessage ws (error_message "Network ID mismatch") ;;
    removePeer peerId
  else
    let* remoteNodeId := lift (Js.get payload "nodeId") in
    let* remoteAddress := lift (Js.get payload "address") in
    put_this (set_peers (peers_set (peers this) peerId
                           (Peer.set_handshake remoteNodeId remoteAddress peer))
                        this) ;;
    let* this1 := get_this in
    sendMessage ws (message PEERS (Js.Array (getPeerAddresses this1))).

Definition case_DISCOVERY (ws : socket) : M unit :=
  let* this := get_this in
  sendMessage ws (message PEERS (Js.Array (getPeerAddresses this))).

Definition case_PEERS (env : Ambient) (msg : Js.Value) : M unit :=
  let* payload := lift (Js.get msg "payload") in
  match payload with
  | Js.Array addresses =>
      forEach (λ peerAddr,
                 let* this := get_this in
                 if Js.ToBoolean peerAddr && negb (isSelf this peerAddr)
                    && negb (isConnectedTo this peerAddr)
                 then connectToPeer env peerAddr
                 else ret ())
              addresses
  | _ => raise TypeError
  end.

Definition case_NEW_TRIAD (env : Ambient) (msg : Js.Value) (peerId : string) : M unit :=
  let* this := get_this in
  match triadMatrix this with
  | None => ret ()
  | Some store =>
      let* payload := lift (Js.get msg "payload") in
      let* triadId := lift (Js.get payload "id") in
      (* getTriad has been called; its promise settles after the broadcast *)
      broadcast msg (Some peerId) ;;
      match TriadMatrix.getTriad store (Js.ToString Number_toString triadId) with
      | Throw _ => ret ()
      | Return existing =>
          if negb (from_option Js.ToBoolean false existing)
          then
            let* data := lift (Js.get payload "data") in
            let* validator := lift (Js.get payload "validator") in
            call_store (λ s, TriadMatrix.createTriad env s data validator) ;;
            ret ()
          else ret ()
      end
  end.

Definition case_VALIDATE_TRIAD (msg : Js.Value) : M unit :=
  let* this := get_this in
  match triadMatrix this with
  | None => ret ()
  | Some _ =>
      let* payload := lift (Js.get msg "payload") in
      if Js.ToBoolean payload
      then
        let* triadId := lift (Js.get payload "triadId") in
        let* validatorId := lift (Js.get payload "validatorId") in
        if Js.ToBoolean triadId && Js.ToBoolean validatorId
        then
          call_store (λ s, TriadMatrix.validateTriad s triadId validatorId) ;;
          ret ()
        else ret ()
      else ret ()
  end.

Definition case_TRIAD_VALIDATED (msg : Js.Value) (peerId : string) : M unit :=
  let* this := get_this in
  match triadMatrix this with
  | None => ret ()
  | Some store =>
      let* payload := lift (Js.get msg "payload") in
      if Js.ToBoolean payload
      then
        let* triadId := lift (Js.get payload "id") in
        if Js.ToBoolean triadId
        then
          broadcast msg (Some peerId) ;;
          match TriadMatrix.getTriad store (Js.ToString Number_toString triadId) with
          | Return (Some localTriad) =>
              if Js.ToBoolean localTriad
              then
                let* localValidated := lift (Js.get localTriad "validated") in
                let* remoteValidated := lift (Js.get payload "validated") in
                if negb (Js.ToBoolean localValidated) && Js.ToBoolean remoteValidated
                then
                  let merged := Js.assign_value localTriad payload in
                  let* mergedId := lift (Js.get merged "id") in
                  store_db_put (TriadMatrix.triad_key (Js.ToString Number_toString mergedId))
                               merged
                else ret ()
              else ret ()
          | _ => ret ()
          end
        else ret ()
      else ret ()
  end.

Definition MatrixState_toJSON (store : TriadMatrix.t) (state : TriadMatrix.MatrixState)
  : Js.Value :=
  Js.Object
    [("dimensions", Js.Number (TriadMatrix.ms_dimensions state));
     ("complexity", Js.Number (TriadMatrix.ms_complexity state));
     ("triadsCount", Js.Number (INR (TriadMatrix.ms_triadsCount state)));
     ("triads",
      Js.Array (omap (λ r : TriadMatrix.ref,
                        TriadMatrix.Triad_toJSON <$> TriadMatrix.heap store !! r)
                     (TriadMatrix.ms_triads state)));
     ("validators", Js.Array (map Js.Str (TriadMatrix.ms_validators state)));
     ("consensusThreshold", Js.Number (TriadMatrix.ms_consensusThreshold state));
     ("isInitialized", Js.Bool (TriadMatrix.ms_isInitialized state))].

Definition case_GET_STATUS (ws : socket) : M unit :=
  let* this := get_this in
  match triadMatrix this with
  | None => ret ()
  | Some store =>
      sendMessage ws
        (message STATUS_UPDATE (MatrixState_toJSON store (TriadMatrix.getMatrixState store)))
  end.

Definition case_ERROR (msg : Js.Value) : M unit :=
  let* payload := lift (Js.get msg "payload") in
  let* text := lift (Js.get payload "message") in
  ret ().

Definition handleMessage (env : Ambient) (ws : socket) (msg : Js.Value) (peerId : string)
  : M unit :=
  let* this := get_this in
  match peers_get (peers this) peerId with
  | None => terminate ws
  | Some peer =>
      let* type := lift (Js.get msg "type") in
      if Js.strict_eq type (Js.Str HANDSHAKE) then case_HANDSHAKE ws msg peerId peer
      else if Js.strict_eq type (Js.Str DISCOVERY) then case_DISCOVERY ws
      else if Js.strict_eq type (Js.Str PEERS) then case_PEERS env msg
      else if Js.strict_eq type (Js.Str NEW_TRIAD) then case_NEW_TRIAD env msg peerId
      else if Js.strict_eq type (Js.Str VALIDATE_TRIAD) then case_VALIDATE_TRIAD msg
      else if Js.strict_eq type (Js.Str TRIAD_VALIDATED) then case_TRIAD_VALIDATED msg peerId
      else if Js.strict_eq type (Js.Str GET_STATUS) then case_GET_STATUS ws
      else if Js.strict_eq type (Js.Str ERROR) then case_ERROR msg
      else
        sendMessage ws
          (error_message ("Unknown message type: " +:+ Js.ToString Number_toString type))
  end.

(** *** The socket listeners

    [frame] is what [JSON.parse] makes of the bytes received: [None] when
    it raises. *)
Definition on_message_incoming (env : Ambient) (ws : socket) (peerId : string)
    (frame : option Js.Value) : M unit :=
  catch
    (let* msg := lift (from_option Return (Throw TypeError) frame) in
     handleMessage env ws msg peerId)
    (sendMessage ws (error_message "Invalid message format")).

Definition on_message_outgoing (env : Ambient) (ws : socket) (tempId : string)
    (frame : option Js.Value) : M unit :=
  catch
    (let* msg := lift (from_option Return (Throw TypeError) frame) in
     let* this := get_this in
     handleMessage env ws msg (default tempId (findPeerIdByWs this ws)))
    (ret ()).

(** The 'close' and 'error' listeners of an accepted connection. *)
Definition on_close_incoming (peerId : string) : M unit := removePeer peerId.

Definition handleNewConnection (env : Ambient) (ws : socket) (peerId : string) : M unit :=
  let* this := get_this in
  if bool_decide (maxPeers this ≤ length (peers this)) then terminate ws
  else
    addPeer env ws peerId "incoming" Js.Null ;;
    sendMessage ws
      (message HANDSHAKE
         (Js.Object [("nodeId", Js.Str (nodeId this));
                     ("networkId", Js.Str (networkId this));
                     ("timestamp", Js.Number (IZR (Date_now env 1)))])).

End Handlers.

End P2PNode.

(** * The specification's reading of the consensus score

    Steps 1 to 6 of the consensus algorithm, written from the text of the
    specification: the arithmetic is that of binary64 numbers, and a sum
    is taken from left to right. *)

Module ScoreSpec.

#[local] Open Scope float_scope.
#[local] Set Warnings "-inexact-float".

Definition square (v : float) : float := v * v.

(** The Euclidean distance d(p, q). *)
Definition d (p q : Double.Position) : float :=
  PrimFloat.sqrt (square (Double.x p - Double.x q) + square (Double.y p - Double.y q)
                  + square (Double.z p - Double.z q)).



Section Score.

Variable all : list Double.Triad.        (* the triads of the store *)
Variable complexity : float.
Variable registered : list string.       (* the registered validators *)

(** Step 1: the other triads at a distance 0 < d <= complexity. *)
Definition is_connection (triad other : Double.Triad) : bool :=
  negb (String.eqb (Double.id other) (Double.id triad))
  && (0 <? d (Double.position triad) (Double.position other))
  && (d (Double.position triad) (Double.position other) <=? complexity).

Definition connections (triad : Double.Triad) : list Double.Triad :=
  List.filter (is_connection triad) all.








End Score.

End ScoreSpec.

(** * Further notions used in the statements *)

Module CreateSpec.

(** The inputs [createTriad] accepts: a truthy value whose [typeof] is
    "object" or "string", that is a non-empty string, an object or an
    array. *)
Definition valid_data (data : Js.Value) : Prop :=
  match data with
  | Js.Str s => s ≠ ""
  | Js.Object _ | Js.Array _ => True
  | _ => False
  end.

Definition nonempty_string (v : Js.Value) : Prop := ∃ s, v = Js.Str s ∧ s ≠ "".



End CreateSpec.

Module StoreOps.

Import TriadMatrix.

(** One call of a method of the store that can change it.  [getTriad] and
    [getMatrixState] only read. *)
Inductive operation : t → t → Prop :=
  | op_init env this :
      operation this (init_on_empty_db env this)
  | op_createTriad env this data validator :
      operation this (after (createTriad env this data validator))
  | op_validateTriad this triadId validatorId :
      operation this (after (validateTriad this triadId validatorId))
  | op_addValidator env this validatorId :
      operation this (after (addValidator env this validatorId)).

(** One call of one of the three methods that change an initialised
    store. *)
Inductive method_call : t → t → Prop :=
  | op_createTriad' env this data validator :
      method_call this (after (createTriad env this data validator))
  | op_validateTriad' this triadId validatorId :
      method_call this (after (validateTriad this triadId validatorId))
  | op_addValidator' env this validatorId :
      method_call this (after (addValidator env this validatorId)).

(** What [validateTriad] makes of a pending triad. *)
Definition rescored (this : t) (triad : Triad) (validatorId : Js.Value) : Triad :=
  {| id := id triad; data := data triad; validator := validator triad;
     timestamp := timestamp triad; position := position triad;
     connections := connections triad;
     validated := bool_decide (calculateConsensus this triad validatorId
                               >= consensusThreshold this)%R;
     consensus := calculateConsensus this triad validatorId;
     validationAttempts := validationAttempts triad + 1 |}.

End StoreOps.

Module IdSpec.

Import TriadMatrix.

(** The object [createTriad] builds. *)
Definition new_triad (env : Ambient) (this : t) (data0 validator0 : Js.Value) : Triad :=
  {| id := generateTriadId env;
     data := data0;
     validator := validator0;
     timestamp := Date_now env 0;
     position := calculateOptimalPosition env this;
     connections := [];
     validated := false;
     consensus := 0;
     validationAttempts := 0 |}.

(** The value of a hexadecimal digit. *)
Definition hex_value (c : ascii) : N :=
  let n := N_of_ascii c in
  if (n <=? 57)%N then (n - 48)%N else (n - 87)%N.

(** The byte that the characters [2i] and [2i + 1] of an id spell. *)
Definition id_byte (s : string) (i : nat) : option N :=
  match String.get (2 * i) s, String.get (2 * i + 1) s with
  | Some hi, Some lo => Some (16 * hex_value hi + hex_value lo)%N
  | _, _ => None
  end.

End IdSpec.

Module WalletSpec.

Section Library.

Context {KeyPair : Type}.
Variable keyFromPrivate : string → option KeyPair.
Variable getPublic : KeyPair → option string.
Variable Buffer_from_hex : string → list Byte.byte.
Variable sha256 : list Byte.byte → option (list Byte.byte).
Variable ripemd160 : list Byte.byte → option (list Byte.byte).

(** Some call into the curve or hash library raises during the import. *)
Definition library_fails (privateKeyHex : string) : Prop :=
  keyFromPrivate privateKeyHex = None
  ∨ ∃ kp, keyFromPrivate privateKeyHex = Some kp
          ∧ (getPublic kp = None
             ∨ ∃ pk e, getPublic kp = Some pk
                       ∧ Wallet._generateAddress Buffer_from_hex sha256 ripemd160 pk
                         = Throw e).

End Library.

End WalletSpec.

Module GossipSpec.

Import P2PNode.

(** The sockets a broadcast reaches: every peer other than the originator
    whose socket is open, in the order of the peer map. *)
Definition broadcast_targets (this : t) (originatorPeerId : option string) : list socket :=
  map (λ entry : string * Peer.t, Peer.ws entry.2)
      (List.filter
         (λ entry : string * Peer.t,
            negb (bool_decide (Some entry.1 = originatorPeerId))
            && bool_decide (readyState_of this (Peer.ws entry.2) = OPEN))
         (peers this)).

Definition sends (msg : Js.Value) (targets : list socket) : list Effect :=
  map (λ ws, Send ws msg) targets.

(** What the node does while a store method runs: each effect of the
    store, and after an emitted event the broadcast of its listener. *)
Definition listeners_trace (this : t) (effs : list TriadMatrix.Effect) : list Effect :=
  flat_map
    (λ e, Store e ::
          match e with
          | TriadMatrix.Emit (TriadMatrix.triadCreated r) =>
              sends (message NEW_TRIAD (triad_payload this r)) (broadcast_targets this None)
          | TriadMatrix.Emit (TriadMatrix.triadValidated r) =>
              sends (message TRIAD_VALIDATED (triad_payload this r))
                    (broadcast_targets this None)
          | TriadMatrix.Put _ _ => []
          end)
    effs.

End GossipSpec.

(** * Concrete stores, nodes and messages *)

Module Examples.

Import TriadMatrix.

Definition env0 : Ambient :=
  {| entropy := λ _, Byte.x00;
     Math_random := λ _, 0.5%R;
     Date_now := λ _, 1700000000000%Z;
     WebSocket_accepts := λ address,
       match address with
       | Js.Str s => String.prefix "ws://" s
       | _ => false
       end |}.

Definition default_options : Options :=
  {| opt_dimensions := None; opt_complexity := None; opt_consensusThreshold := None |}.

(** A store on an empty database, once [init] has completed. *)
Definition store0 : t := init_on_empty_db env0 (constructor default_options).

Definition validatorX : Js.Value := Js.Str "seir0123456789abcdef0123456789abcdef0123".

End Examples.

Module Scenario.

Import TriadMatrix Examples.

Definition idA : string := "000000000000000000000000000000a1".
Definition idB : string := "000000000000000000000000000000b2".
Definition idC : string := "000000000000000000000000000000c3".

Definition triadA : Triad :=
  {| id := idA; data := Js.Str "alpha"; validator := validatorX;
     timestamp := 1700000000001; position := {| x := 0; y := 0; z := 0 |};
     connections := []; validated := false; consensus := 0; validationAttempts := 0 |}.

Definition triadB : Triad :=
  {| id := idB; data := Js.Str "beta"; validator := validatorX;
     timestamp := 1700000000002; position := {| x := 2; y := 0; z := 0 |};
     connections := []; validated := true; consensus := 0.7; validationAttempts := 1 |}.

Definition triadC : Triad :=
  {| id := idC; data := Js.Str "gamma"; validator := validatorX;
     timestamp := 1700000000003; position := {| x := 0; y := 1; z := 0 |};
     connections := []; validated := true; consensus := 0.7; validationAttempts := 1 |}.

(** The store of the scenarios of section 8: dimensions 3, complexity 4,
    threshold 0.67; A pending, B validated at distance 2 from A. *)
Definition store_AB (registered : list string) : t :=
  {| heap := [triadA; triadB];
     db := {[ triad_key idA := Triad_toJSON triadA; triad_key idB := Triad_toJSON triadB ]};
     dimensions := 3; complexity := 4; consensusThreshold := 0.67;
     matrix := [0%nat; 1%nat];
     triads := [(idA, 0%nat); (idB, 1%nat)];
     validators := registered;
     isInitialized := true |}.

(** The same with a second validated neighbour, C, at distance 1. *)
Definition store_ABC (registered : list string) : t :=
  {| heap := [triadA; triadB; triadC];
     db := {[ triad_key idA := Triad_toJSON triadA; triad_key idB := Triad_toJSON triadB;
              triad_key idC := Triad_toJSON triadC ]};
     dimensions := 3; complexity := 4; consensusThreshold := 0.67;
     matrix := [0%nat; 1%nat; 2%nat];
     triads := [(idA, 0%nat); (idB, 1%nat); (idC, 2%nat)];
     validators := registered;
     isInitialized := true |}.

End Scenario.

Module DoubleExamples.

Import Double.
#[local] Open Scope float_scope.
#[local] Set Warnings "-inexact-float".

(** The triads of the first scenario of section 8, as the scoring methods
    see them: A pending at the origin, B validated at distance 2;
    complexity 4, no registered validator. *)
Definition triadA : Triad :=
  {| id := Scenario.idA; position := {| x := 0; y := 0; z := 0 |}; validated := false |}.

Definition triadB : Triad :=
  {| id := Scenario.idB; position := {| x := 2; y := 0; z := 0 |}; validated := true |}.

Definition store_AB : t :=
  {| matrix := [triadA; triadB]; complexity := 4; validators := [] |}.



(** A validated neighbour at distance 3 with complexity 10 and the
    validator registered. *)
Definition triadN : Triad :=
  {| id := Scenario.idB; position := {| x := 3; y := 0; z := 0 |}; validated := true |}.

Definition store_AN : t :=
  {| matrix := [triadA; triadN]; complexity := 10;
     validators := ["seir0123456789abcdef0123456789abcdef0123"] |}.

(** A pending neighbour at distance 2 with complexity 1e17 and the
    validator registered. *)
Definition triadP : Triad :=
  {| id := Scenario.idB; position := {| x := 2; y := 0; z := 0 |}; validated := false |}.

Definition store_AP : t :=
  {| matrix := [triadA; triadP]; complexity := 1e17;
     validators := ["seir0123456789abcdef0123456789abcdef0123"] |}.

End DoubleExamples.

Module WalletExamples.

(** A stand-in for the curve library: the key pair is the private key
    itself and the public key a fixed compressed point. *)
Definition toy_keyFromPrivate (hex : string) : option string := Some hex.

Definition toy_getPublic (kp : string) : option string :=
  Some "02a1b2c3d4e5f60718293a4b5c6d7e8f90a1b2c3d4e5f60718293a4b5c6d7e8f90".

Definition toy_Buffer_from_hex (s : string) : list Byte.byte := [].

Definition toy_digest (input : list Byte.byte) : option (list Byte.byte) :=
  Some (replicate 20 Byte.x5a).

(** A curve library whose [keyFromPrivate] raises. *)
Definition failing_keyFromPrivate (hex : string) : option string := None.

Definition key64 : string :=
  "00112233445566778899aabbccddeeff00112233445566778899AABBCCDDEEFF".

(** A wallet into which [key64] has been imported. *)
Definition loaded : @Wallet.t string :=
  (Wallet.importFromPrivateKey toy_keyFromPrivate toy_getPublic toy_Buffer_from_hex
     toy_digest toy_digest Wallet.empty key64).2.

End WalletExamples.

Module NodeExamples.

Import P2PNode Examples Scenario.

(** A stand-in for Number::toString; no example converts a number. *)
Definition toy_Number_toString (n : R) : string := "0".

Definition peer1 : Peer.t :=
  {| Peer.ws := 1%nat; Peer.id := "peer-1"; Peer.direction := "incoming";
     Peer.url := Js.Null; Peer.connectedAt := 1700000000010;
     Peer.nodeId := Js.Undefined; Peer.address := Js.Undefined |}.

Definition peer2 : Peer.t :=
  {| Peer.ws := 2%nat; Peer.id := "peer-2"; Peer.direction := "incoming";
     Peer.url := Js.Null; Peer.connectedAt := 1700000000020;
     Peer.nodeId := Js.Str "node-2"; Peer.address := Js.Str "ws://10.0.0.2:6001" |}.

(** A node with two connected peers and the scenario store. *)
Definition node0 : t :=
  {| nodeId := "node-0"; port := "6001";
     triadMatrix := Some (store_AB []);
     peers := [("peer-1", peer1); ("peer-2", peer2)];
     maxPeers := 10; networkId := "seirchain-default";
     readyState := {[ 1%nat := OPEN; 2%nat := OPEN ]};
     advertisedSelf := None |}.

Definition handshake (network : string) : Js.Value :=
  message HANDSHAKE
    (Js.Object [("nodeId", Js.Str "node-1"); ("networkId", Js.Str network);
                ("address", Js.Str "ws://10.0.0.1:6001");
                ("timestamp", Js.Number 1700000000030)]).

(** A NEW_TRIAD for triad A, which the store of [node0] already holds. *)
Definition new_triad_A : Js.Value := message NEW_TRIAD (TriadMatrix.Triad_toJSON triadA).

(** A NEW_TRIAD that carries an id the store of [node0] does not know. *)
Definition new_triad_unknown : Js.Value :=
  message NEW_TRIAD
    (Js.Object [("id", Js.Str "ffffffffffffffffffffffffffffffff");
                ("data", Js.Str "delta");
                ("validator", validatorX)]).

(** A NEW_TRIAD that carries the id of 32 zeros, which the store of
    [node0] does not know either. *)
Definition new_triad_zeros : Js.Value :=
  message NEW_TRIAD
    (Js.Object [("id", Js.Str "00000000000000000000000000000000");
                ("data", Js.Str "delta");
                ("validator", validatorX)]).

(** Triad A as a remote node holds it after validating it there. *)
Definition triadA_remote : TriadMatrix.Triad :=
  TriadMatrix.set_validated true
    (TriadMatrix.set_validationAttempts 1 (TriadMatrix.set_consensus 0.9 triadA)).

Definition triad_validated_A : Js.Value :=
  message TRIAD_VALIDATED (TriadMatrix.Triad_toJSON triadA_remote).

End NodeExamples.

Module RevertScenario.

Import P2PNode Examples Scenario NodeExamples.

(** A store with the default parameters that holds triad A alone, pending,
    in memory and in the database. *)
Definition store_A : TriadMatrix.t :=
  {| TriadMatrix.heap := [triadA];
     TriadMatrix.db := {[ TriadMatrix.triad_key idA := TriadMatrix.Triad_toJSON triadA ]};
     TriadMatrix.dimensions := 3; TriadMatrix.complexity := 4;
     TriadMatrix.consensusThreshold := 0.67;
     TriadMatrix.matrix := [0%nat];
     TriadMatrix.triads := [(idA, 0%nat)];
     TriadMatrix.validators := [];
     TriadMatrix.isInitialized := true |}.

(** A node with two connected peers and that store. *)
Definition node_A : t :=
  {| nodeId := "node-0"; port := "6001";
     triadMatrix := Some store_A;
     peers := [("peer-1", peer1); ("peer-2", peer2)];
     maxPeers := 10; networkId := "seirchain-default";
     readyState := {[ 1%nat := OPEN; 2%nat := OPEN ]};
     advertisedSelf := None |}.

(** The store of [node_A] once the node has merged a TRIAD_VALIDATED
    message for A into the database. *)
Definition store_A_merged : TriadMatrix.t :=
  TriadMatrix.set_db
    (<[TriadMatrix.triad_key idA := TriadMatrix.Triad_toJSON triadA_remote]>
       (TriadMatrix.db store_A))
    store_A.

(** Triad A after one more validation attempt that scored 0. *)
Definition triadA_retried : TriadMatrix.Triad := TriadMatrix.set_validationAttempts 1 triadA.

End RevertScenario.

(** * Invariants of the store *)

Module StoreInvariants.

Import TriadMatrix.

(** Every entry of [this.triads] refers to a triad object that carries the
    entry's key as its id and whose JSON is the record the database holds
    under that id. *)
Definition index_consistent (s : t) : Prop :=
  ∀ key r,
    Map_get (triads s) key = Some r →
    ∃ triad, heap s !! r = Some triad ∧ id triad = key
             ∧ db s !! triad_key key = Some (Triad_toJSON triad).

(** Every triad record of the database has an entry in [this.triads]. *)
Definition records_indexed (s : t) : Prop :=
  ∀ key v, db s !! triad_key key = Some v → is_Some (Map_get (triads s) key).

(** The metadata record is the one [saveMatrixState] writes for the
    current parameters and validators, at some reading of the clock. *)
Definition metadata_current (s : t) : Prop :=
  ∃ env tick, db s !! "matrix:state_metadata" = Some (stateMetadata env tick s).

End StoreInvariants.

(** * src/api/server.js: the route handlers *)

Module Api.

Record Response := { status : nat; body : Js.Value }.

Definition error_json (text : string) : Js.Value := Js.Object [("error", Js.Str text)].

(** [error.message] of the errors [createTriad] raises (no other error
    reaches the handler that uses it). *)
Definition createTriad_error_message (e : Error) : string :=
  match e with
  | NotInitialized => "TriadMatrix not initialized"
  | InvalidData => "Invalid data format for triad"
  | InvalidValidator => "Invalid validator ID"
  | _ => ""
  end.

Definition not_initialized : Response :=
  {| status := 503; body := error_json "TriadMatrix is not yet initialized." |}.

(** [app.get('/triads/:id', ...)]; [id] is [req.params.id]. *)
Definition get_triad (matrix : TriadMatrix.t) (id : string) : Response :=
  if negb (TriadMatrix.isInitialized matrix) then not_initialized
  else
    match TriadMatrix.getTriad matrix id with
    | Return triad =>
        if from_option Js.ToBoolean false triad
        then {| status := 200; body := default Js.Null triad |}
        else {| status := 404; body := error_json "Triad not found" |}
    | Throw _ => {| status := 500; body := error_json "Failed to retrieve triad" |}
    end.

(** [app.post('/triads', ...)]; [reqBody] holds the properties of
    [req.body], the object [express.json()] parsed. *)
Definition post_triads (env : Ambient) (matrix : TriadMatrix.t)
    (reqBody : list (string * Js.Value))
  : Response * TriadMatrix.t * list TriadMatrix.Effect :=
  if negb (TriadMatrix.isInitialized matrix) then (not_initialized, matrix, [])
  else
    let data := Js.lookup_field reqBody "data" in
    let validatorId := Js.lookup_field reqBody "validatorId" in
    if negb (Js.ToBoolean data) || negb (Js.ToBoolean validatorId)
    then ({| status := 400;
             body := error_json "Missing data or validatorId in request body" |},
          matrix, [])
    else
      let created := TriadMatrix.createTriad env matrix data validatorId in
      match TriadMatrix.result created with
      | Return newTriad =>
          ({| status := 201;
              body := from_option TriadMatrix.Triad_toJSON Js.Undefined
                        (TriadMatrix.heap (TriadMatrix.after created) !! newTriad) |},
           TriadMatrix.after created, TriadMatrix.effects created)
      | Throw error =>
          ({| status := 500;
              body := error_json ("Failed to create triad: "
                                  +:+ createTriad_error_message error) |},
           TriadMatrix.after created, TriadMatrix.effects created)
      end.

End Api.

(** * src/network/P2PNode.js: the remaining listeners *)

Module P2PListeners.

Import P2PNode.

(** The 'open' listener that [connectToPeer] registers on the socket it
    created; [tempId] is the id it chose for the peer. *)
Definition on_open_outgoing (env : Ambient) (ws : socket) (tempId : string)
    (peerAddress : Js.Value) : M unit :=
  let* this := get_this in
  let* peerId := addPeer env ws tempId "outgoing" peerAddress in
  sendMessage ws
    (message HANDSHAKE
       (Js.Object [("nodeId", Js.Str (nodeId this));
                   ("networkId", Js.Str (networkId this));
                   ("address", Js.Str ("ws://<YOUR_PUBLIC_IP_OR_DOMAIN>:" +:+ port this));
                   ("timestamp", Js.Number (IZR (Date_now env 1)))])) ;;
  sendMessage ws (Js.Object [("type", Js.Str DISCOVERY)]).

End P2PListeners.

Module GossipFrames.

Import P2PNode.

(** The addresses of a PEERS message that the node goes on to dial. *)
Definition eligible (Number_toString : R → string) (this : t) (peerAddr : Js.Value) : bool :=
  Js.ToBoolean peerAddr && negb (isSelf Number_toString this peerAddr)
  && negb (isConnectedTo this peerAddr).

(** Dialling the addresses in order: the first one the WebSocket
    constructor does not take raises, and the rest is not dialled. *)
Fixpoint dial_in_order (env : Ambient) (addresses : list Js.Value)
  : Result unit * list Effect :=
  match addresses with
  | [] => (Return (), [])
  | address :: rest =>
      if WebSocket_accepts env address
      then (fst (dial_in_order env rest), Dial address :: snd (dial_in_order env rest))
      else (Throw InvalidURL, [])
  end.

(** The node a computation leaves behind. *)
Definition final {A : Type} (c : M A) (this : t) : t := (c this).1.2.

(** [this'] differs from [this] at most in the store. *)
Definition store_only (this this' : t) : Prop := ∃ m, this' = set_triadMatrix m this.

(** Every peer id of [this'] is a peer id of [this]. *)
Definition no_new_peer (this this' : t) : Prop :=
  ∀ k, is_Some (peers_get (peers this') k) → is_Some (peers_get (peers this) k).

(** The eight message types the switch has a case for. *)
Definition known_type (type : string) : Prop :=
  type ∈ [HANDSHAKE; DISCOVERY; PEERS; NEW_TRIAD; VALIDATE_TRIAD; TRIAD_VALIDATED;
          GET_STATUS; ERROR].

End GossipFrames.

(** * src/core/Wallet.js: the public data of a wallet *)

Module WalletExport.

Definition nullable (v : option string) : Js.Value :=
  match v with
  | Some s => Js.Str s
  | None => Js.Null
  end.

Definition exportPublicData {KeyPair : Type} (this : @Wallet.t KeyPair) : option Js.Value :=
  if negb (Wallet.isInitialized this) then None
  else Some (Js.Object [("publicKey", nullable (Wallet.getPublicKey this));
                        ("address", nullable (Wallet.getAddress this))]).

End WalletExport.

(** * src/cli/seirchain-cli.js: the validation cycle *)

Module Cli.

Section WithWallet.

Context {KeyPair : Type}.

(** The fields of [SeirChainCLI] that [mine] uses, once [initMatrix] has
    run. *)
Record t := {
  matrix : TriadMatrix.t;
  wallet : @Wallet.t KeyPair
}.

Definition is_validated (m : TriadMatrix.t) (r : TriadMatrix.ref) : bool :=
  match TriadMatrix.heap m !! r with
  | Some triad => TriadMatrix.validated triad
  | None => false
  end.

(** [state.triads.filter(t => !t.validated && t.validator !== walletAddress)] *)
Definition unvalidatedTriads (m : TriadMatrix.t) (walletAddress : Js.Value)
  : list TriadMatrix.ref :=
  List.filter
    (λ r, match TriadMatrix.heap m !! r with
          | Some triad =>
              negb (TriadMatrix.validated triad)
              && negb (Js.strict_eq (TriadMatrix.validator triad) walletAddress)
          | None => false
          end)
    (TriadMatrix.ms_triads (TriadMatrix.getMatrixState m)).

(** [this.matrix.validateTriad(triad.id, walletAddress)] for the triad
    object [r]. *)
Definition attempt (walletAddress : Js.Value) (m : TriadMatrix.t) (r : TriadMatrix.ref)
  : TriadMatrix.Outcome TriadMatrix.ref :=
  TriadMatrix.validateTriad m
    (match TriadMatrix.heap m !! r with
     | Some triad => Js.Str (TriadMatrix.id triad)
     | None => Js.Undefined
     end)
    walletAddress.

(** The [for ... of] loop: a failed attempt is logged and the loop goes
    on. *)
Fixpoint validate_each (walletAddress : Js.Value) (todo : list TriadMatrix.ref)
    (m : TriadMatrix.t) (validatedCount : nat)
  : TriadMatrix.t * list TriadMatrix.Effect * nat :=
  match todo with
  | [] => (m, [], validatedCount)
  | r :: rest =>
      let out := attempt walletAddress m r in
      let validatedCount1 :=
        match TriadMatrix.result out with
        | Return updatedTriad =>
            if is_validated (TriadMatrix.after out) updatedTriad
            then S validatedCount else validatedCount
        | Throw _ => validatedCount
        end in
      let '(m', effs, n) :=
        validate_each walletAddress rest (TriadMatrix.after out) validatedCount1 in
      (m', TriadMatrix.effects out ++ effs, n)
  end.

(** [mine].  The result is the count the last line prints, [None] when
    the method returns before the loop; [addValidator] is synchronous, so
    what it throws leaves [mine]. *)
Definition mine (env : Ambient) (this : t)
  : Result (option nat) * TriadMatrix.t * list TriadMatrix.Effect :=
  if negb (Wallet.isInitialized (wallet this)) then (Return None, matrix this, [])
  else
    let walletAddress := WalletExport.nullable (Wallet.getAddress (wallet this)) in
    let registered :=
      if TriadMatrix.Set_has (TriadMatrix.validators (matrix this)) walletAddress
      then {| TriadMatrix.result := Return false; TriadMatrix.after := matrix this;
              TriadMatrix.effects := [] |}
      else TriadMatrix.addValidator env (matrix this) walletAddress in
    match TriadMatrix.result registered with
    | Throw e => (Throw e, TriadMatrix.after registered, TriadMatrix.effects registered)
    | Return _ =>
        match unvalidatedTriads (TriadMatrix.after registered) walletAddress with
        | [] => (Return None, TriadMatrix.after registered, TriadMatrix.effects registered)
        | todo =>
            let '(m', effs, n) :=
              validate_each walletAddress todo (TriadMatrix.after registered) 0 in
            (Return (Some n), m', TriadMatrix.effects registered ++ effs)
        end
    end.

(** [JSON.parse] ([None] when it raises) and [String.prototype.trim] are
    the language's own. *)
Variable JSON_parse : string → option Js.Value.
Variable String_trim : string → string.

(** What [createTriad] prints: one of its two refusals, the triad it
    created, or the error of the store. *)
Inductive Report :=
  | WalletNotLoaded
  | EmptyData
  | Created (triad : TriadMatrix.ref)
  | Failed (e : Error).

Definition createTriad (env : Ambient) (this : t) (dataString : string)
  : Report * TriadMatrix.t * list TriadMatrix.Effect :=
  if negb (Wallet.isInitialized (wallet this)) then (WalletNotLoaded, matrix this, [])
  else if bool_decide (dataString = "") || bool_decide (String_trim dataString = "")
  then (EmptyData, matrix this, [])
  else
    let data :=
      match JSON_parse dataString with
      | Some parsed => parsed
      | None => Js.Str dataString
      end in
    let out :=
      TriadMatrix.createTriad env (matrix this) data
        (WalletExport.nullable (Wallet.getAddress (wallet this))) in
    (match TriadMatrix.result out with
     | Return triad => Created triad
     | Throw e => Failed e
     end,
     TriadMatrix.after out, TriadMatrix.effects out).

End WithWallet.

End Cli.

(** * More messages *)

Module MessageExamples.

Import P2PNode Examples Scenario.

(** A request to validate triad A on behalf of [validatorX]. *)
Definition validate_A : Js.Value :=
  message VALIDATE_TRIAD
    (Js.Object [("triadId", Js.Str idA); ("validatorId", validatorX)]).

End MessageExamples.

(** * The grid of positions *)

Module Grid.

Import TriadMatrix.

(** The positions with integer coordinates in [[0, n)]. *)
Definition in_grid (n : Z) (p : Position) : Prop :=
  (0 ≤ x p < n)%Z ∧ (0 ≤ y p < n)%Z ∧ (0 ≤ z p < n)%Z.

(** The 27 positions of the default grid (dimensions 3), with the numbers
    [Math.floor] returns there as coordinates. *)
Definition axis3 : list float := [0; 1; 2]%float.

Definition cube3 : list Double.Position :=
  flat_map (λ a,
     flat_map (λ b, map (λ c, {| Double.x := a; Double.y := b; Double.z := c |}) axis3)
              axis3)
    axis3.

Definition Position_eqb (p q : Double.Position) : bool :=
  PrimFloat.Leibniz.eqb (Double.x p) (Double.x q)
  && PrimFloat.Leibniz.eqb (Double.y p) (Double.y q)
  && PrimFloat.Leibniz.eqb (Double.z p) (Double.z q).

End Grid.

(** * Properties of the triad store *)

Section DistanceProofs.

Import TriadMatrix.
Open Scope R_scope.

Lemma calculateDistance_sym (p q : Position) : calculateDistance p q = calculateDistance q p.
Proof. unfold calculateDistance, Math_pow. f_equal. ring. Qed.

End DistanceProofs.

(** * Binary64 arithmetic: signs and special values *)

Section SpecFloatSigns.

Import Number.

























End SpecFloatSigns.

Section SmallIntegers.

Import Number.






End SmallIntegers.

(** * Binary64 numbers: comparisons and the clamps *)

Section Numbers.

Import Number.

#[local] Open Scope float_scope.




















End Numbers.

(** * The consensus score *)

Section ConsensusProofs.

Import Number.

#[local] Open Scope float_scope.














End ConsensusProofs.

Section ConsensusTheorems.

Import DoubleExamples.
#[local] Open Scope float_scope.
#[local] Set Warnings "-inexact-float".




(** What rounding does to the score.  With a validated neighbour at
    distance 3 and complexity 10, the real number 0.7 + 0.1 = 0.8 comes
    out as the double just below 0.8, which fails a threshold of 0.8; with
    complexity 1e17 the score of a pending neighbour at distance 2 is
    1 - 2e-17 rounded to 1, and the consensus score is exactly 0.6. *)
Example calculateConsensus_rounding :
  Double.calculateConsensus store_AN triadA Examples.validatorX = 0.79999999999999993
  ∧ (0.8 <=? Double.calculateConsensus store_AN triadA Examples.validatorX) = false
  ∧ Double.calculateConnectionScore store_AP triadA triadP = 1
  ∧ Double.calculateConsensus store_AP triadA Examples.validatorX = 0.6
  ∧ (0.6 <=? Double.calculateConsensus store_AP triadA Examples.validatorX) = true.
Proof. repeat split; vm_compute; reflexivity. Qed.

End ConsensusTheorems.

(** * createTriad *)

Section CreateProofs.

Import TriadMatrix CreateSpec.

Lemma hex_digit_lower (n : N) : is_lower_hex (hex_digit n) = true.
Proof.
  destruct n as [|p]; [reflexivity|].
  do 4 (try destruct p as [p|p|]; try reflexivity).
Qed.

Lemma toString_hex_length (buf : list Byte.byte) :
  String.length (toString_hex buf) = (2 * length buf)%nat.
Proof. induction buf as [|b l IH]; simpl; [reflexivity|]. rewrite IH. lia. Qed.

Lemma toString_hex_lower (buf : list Byte.byte) :
  string_forall is_lower_hex (toString_hex buf) = true.
Proof.
  induction buf as [|b l IH]; simpl; [reflexivity|].
  rewrite !hex_digit_lower, IH. reflexivity.
Qed.

Lemma generateTriadId_format (env : Ambient) :
  String.length (generateTriadId env) = 32%nat
  ∧ string_forall is_lower_hex (generateTriadId env) = true.
Proof.
  unfold generateTriadId, randomBytes. split.
  - rewrite toString_hex_length, length_map, length_seq. reflexivity.
  - apply toString_hex_lower.
Qed.

Lemma Math_floor_range (u d : R) :
  (0 <= u < 1)%R → (0 < d)%R → (0 <= IZR (Math_floor (u * d)) < d)%R.
Proof.
  intros [Hu0 Hu1] Hd. unfold Math_floor.
  destruct (base_Int_part (u * d)) as [Hle Hgt].
  assert (0 <= u * d)%R by (apply Rmult_le_pos; lra).
  assert (u * d < d)%R by nra.
  split; [|lra].
  assert (-1 < Int_part (u * d))%Z as Hz by (apply lt_IZR; lra).
  apply IZR_le. lia.
Qed.

Lemma valid_data_accepted (data : Js.Value) :
  valid_data data ↔
  negb (Js.ToBoolean data)
  || negb (bool_decide (Js.typeof data = "object"))
     && negb (bool_decide (Js.typeof data = "string")) = false.
Proof.
  destruct data; simpl; try (split; [tauto | discriminate]); try tauto.
  - destruct b; simpl; split; (tauto || discriminate).
  - destruct (bool_decide (n = 0%R)); simpl; split; (tauto || discriminate).
  - case_bool_decide; simpl; split; (tauto || discriminate || congruence).
Qed.

Lemma nonempty_string_accepted (v : Js.Value) :
  nonempty_string v ↔
  negb (Js.ToBoolean v) || negb (bool_decide (Js.typeof v = "string")) = false.
Proof.
  unfold nonempty_string. destruct v; simpl;
    try (split; [intros (s0 & ? & ?); discriminate | discriminate]).
  - destruct b; simpl; split; (intros (s0 & ? & ?) || intros ?); discriminate.
  - destruct (bool_decide (n = 0%R)); simpl; split;
      (intros (s0 & ? & ?) || intros ?); discriminate.
  - case_bool_decide as Hs; simpl; split.
    + intros (s0 & [= <-] & Hne). contradiction.
    + discriminate.
    + reflexivity.
    + intros _. exists s. split; [reflexivity | exact Hs].
Qed.

End CreateProofs.

Section CreateTheorems.

Import TriadMatrix CreateSpec Examples.




End CreateTheorems.

(** * validateTriad and getMatrixState *)

Section ValidateProofs.

Import TriadMatrix StoreOps Examples Scenario.

Lemma triads_get_heap (this : t) (triadId : Js.Value) (r : ref) (triad : Triad) :
  triads_get this triadId = Some (r, triad) →
  heap this !! r = Some triad ∧ ∃ key, triadId = Js.Str key ∧ Map_get (triads this) key = Some r.
Proof.
  unfold triads_get. destruct triadId; try discriminate.
  destruct (Map_get (triads this) s) as [r0|] eqn:Hm; simpl; [|discriminate].
  destruct (heap this !! r0) as [t0|] eqn:Hh; simpl; [|discriminate].
  intros [= <- <-]. split; [exact Hh|]. eauto.
Qed.

Lemma validateTriad_pending_outcome (this : t) (key : string) (validatorId : Js.Value)
    (r : ref) (triad : Triad) :
  isInitialized this = true →
  triads_get this (Js.Str key) = Some (r, triad) →
  validated triad = false →
  validateTriad this (Js.Str key) validatorId =
    {| result := Return r;
       after := set_db (<[triad_key key := Triad_toJSON (rescored this triad validatorId)]>
                          (db this))
                  (set_heap (<[r := rescored this triad validatorId]> (heap this)) this);
       effects := [Put (triad_key key) (Triad_toJSON (rescored this triad validatorId));
                   Emit (triadValidated r)] |}.
Proof.
  intros Hinit Hget Hpending. unfold validateTriad. rewrite Hinit, Hget, Hpending.
  cbn [negb Js.as_string].
  assert ((if bool_decide (calculateConsensus this triad validatorId
                           >= consensusThreshold this)%R
           then set_validated true
                  (set_validationAttempts
                     (validationAttempts (set_consensus (calculateConsensus this triad validatorId) triad) + 1)
                     (set_consensus (calculateConsensus this triad validatorId) triad))
           else set_validationAttempts
                  (validationAttempts (set_consensus (calculateConsensus this triad validatorId) triad) + 1)
                  (set_consensus (calculateConsensus this triad validatorId) triad))
          = rescored this triad validatorId) as ->; [|reflexivity].
  unfold rescored, set_validated, set_validationAttempts, set_consensus.
  case_bool_decide; cbn; rewrite ?Hpending; reflexivity.
Qed.

Lemma validateTriad_validated_outcome (this : t) (triadId validatorId : Js.Value)
    (r : ref) (triad : Triad) :
  isInitialized this = true →
  triads_get this triadId = Some (r, triad) →
  validated triad = true →
  validateTriad this triadId validatorId = {| result := Return r; after := this; effects := [] |}.
Proof.
  intros Hinit Hget Hval. unfold validateTriad. rewrite Hinit, Hget, Hval. reflexivity.
Qed.

Lemma validateTriad_heap (this : t) (triadId validatorId : Js.Value) :
  heap (after (validateTriad this triadId validatorId)) = heap this
  ∨ ∃ r triad, heap this !! r = Some triad ∧ validated triad = false
       ∧ heap (after (validateTriad this triadId validatorId))
         = <[r := rescored this triad validatorId]> (heap this).
Proof.
  destruct (isInitialized this) eqn:Hinit.
  2:{ left. unfold validateTriad. rewrite Hinit. reflexivity. }
  destruct (triads_get this triadId) as [[r triad]|] eqn:Hget.
  2:{ left. unfold validateTriad. rewrite Hinit, Hget. reflexivity. }
  destruct (validated triad) eqn:Hval.
  - left. erewrite validateTriad_validated_outcome by eassumption. reflexivity.
  - right. destruct (triads_get_heap _ _ _ _ Hget) as [Hh (key & -> & _)].
    exists r, triad. erewrite validateTriad_pending_outcome by eassumption.
    auto.
Qed.

Lemma createTriad_heap (env : Ambient) (this : t) (data0 validator0 : Js.Value) :
  ∃ new, heap (after (createTriad env this data0 validator0)) = heap this ++ new.
Proof.
  unfold createTriad.
  destruct (negb (isInitialized this)); [exists []; simpl; by rewrite app_nil_r|].
  destruct (_ || _); [exists []; simpl; by rewrite app_nil_r|].
  destruct (_ || _); [exists []; simpl; by rewrite app_nil_r|].
  eexists. reflexivity.
Qed.

Lemma addValidator_heap (env : Ambient) (this : t) (validatorId : Js.Value) :
  heap (after (addValidator env this validatorId)) = heap this.
Proof.
  unfold addValidator.
  destruct (_ || _); [reflexivity|]. destruct (Set_has _ _); reflexivity.
Qed.

(** A validated triad object is never touched again by the store. *)
Lemma operation_keeps_validated (s s' : t) (r : ref) (triad : Triad) :
  operation s s' → heap s !! r = Some triad → validated triad = true →
  heap s' !! r = Some triad.
Proof.
  intros Hop Hr Hval. destruct Hop as [env this|env this d v|this tid vid|env this v].
  - exact Hr.
  - destruct (createTriad_heap env this d v) as [new ->].
    apply lookup_app_l_Some. exact Hr.
  - destruct (validateTriad_heap this tid vid) as [->|(r0 & t0 & Hr0 & Hpend & ->)]; [exact Hr|].
    rewrite list_lookup_insert_ne; [exact Hr|].
    intros Heq. subst r0. pose proof (eq_trans (eq_sym Hr0) Hr) as Heq.
    injection Heq as Heq. subst t0. rewrite Hval in Hpend. discriminate.
  - rewrite addValidator_heap. exact Hr.
Qed.

Lemma operations_keep_validated (s s' : t) (r : ref) (triad : Triad) :
  rtc operation s s' → heap s !! r = Some triad → validated triad = true →
  heap s' !! r = Some triad.
Proof.
  induction 1 as [|s1 s2 s3 Hop _ IH]; [auto|].
  intros Hr Hval. apply IH; [|exact Hval]. eapply operation_keeps_validated; eassumption.
Qed.

End ValidateProofs.

Section ScenarioProofs.

Import TriadMatrix Examples Scenario.
Open Scope R_scope.

Lemma distance_A_B : calculateDistance (position triadA) (position triadB) = 2.
Proof.
  unfold calculateDistance, Math_pow. simpl.
  replace (_ + _ + _) with (2 * 2) by ring. apply sqrt_square. lra.
Qed.

Lemma distance_A_C : calculateDistance (position triadA) (position triadC) = 1.
Proof.
  unfold calculateDistance, Math_pow. simpl.
  replace (_ + _ + _) with (1 * 1) by ring. apply sqrt_square. lra.
Qed.

Lemma connections_AB (registered : list string) :
  getTriadConnections (store_AB registered) triadA = [triadB].
Proof.
  unfold getTriadConnections.
  change (matrix_objects (store_AB registered)) with [triadA; triadB].
  cbn [List.filter store_AB complexity].
  rewrite (bool_decide_eq_true_2 (id triadA = id triadA)) by reflexivity.
  rewrite (bool_decide_eq_false_2 (id triadB = id triadA)) by discriminate.
  rewrite (calculateDistance_sym (position triadB)), distance_A_B.
  rewrite !bool_decide_eq_true_2 by lra. reflexivity.
Qed.

Lemma connections_ABC (registered : list string) :
  getTriadConnections (store_ABC registered) triadA = [triadB; triadC].
Proof.
  unfold getTriadConnections.
  change (matrix_objects (store_ABC registered)) with [triadA; triadB; triadC].
  cbn [List.filter store_ABC complexity].
  rewrite (bool_decide_eq_true_2 (id triadA = id triadA)) by reflexivity.
  rewrite (bool_decide_eq_false_2 (id triadB = id triadA)) by discriminate.
  rewrite (bool_decide_eq_false_2 (id triadC = id triadA)) by discriminate.
  rewrite (calculateDistance_sym (position triadB)), distance_A_B.
  rewrite (calculateDistance_sym (position triadC)), distance_A_C.
  rewrite !bool_decide_eq_true_2 by lra. reflexivity.
Qed.

Lemma score_A_B (this : t) :
  complexity this = 4 → calculateConnectionScore this triadA triadB = 0.5.
Proof.
  intros Hc. unfold calculateConnectionScore. rewrite distance_A_B, Hc.
  rewrite bool_decide_eq_false_2 by lra. rewrite Rmax_right by lra. lra.
Qed.

Lemma score_A_C (this : t) :
  complexity this = 4 → calculateConnectionScore this triadA triadC = 0.75.
Proof.
  intros Hc. unfold calculateConnectionScore. rewrite distance_A_C, Hc.
  rewrite bool_decide_eq_false_2 by lra. rewrite Rmax_right by lra. lra.
Qed.

(** Section 8, first scenario: one validated neighbour at distance 2 and an
    unregistered validator give 0.5 + 0.05 = 0.55. *)
Example scenario_unregistered :
  calculateConsensus (store_AB []) triadA validatorX = 0.55.
Proof.
  unfold calculateConsensus. rewrite connections_AB. cbn [length map fold_left validated triadB].
  rewrite bool_decide_eq_false_2 by discriminate.
  rewrite score_A_B by reflexivity.
  replace (Set_has _ _) with false by reflexivity.
  rewrite Rmin_right; simpl; lra.
Qed.

(** Section 8, second scenario: the same with a registered validator gives
    0.6; with a second validated neighbour at distance 1 it gives
    (0.5 + 0.75) / 2 + 0.1 = 0.725. *)
Example scenario_registered :
  calculateConsensus (store_AB ["seir0123456789abcdef0123456789abcdef0123"]) triadA validatorX
  = 0.6.
Proof.
  unfold calculateConsensus. rewrite connections_AB. cbn [length map fold_left validated triadB].
  rewrite bool_decide_eq_false_2 by discriminate.
  rewrite score_A_B by reflexivity.
  replace (Set_has _ _) with true by (symmetry; apply bool_decide_eq_true_2; set_solver).
  rewrite Rmin_right; simpl; lra.
Qed.

Example scenario_two_neighbours :
  calculateConsensus (store_ABC ["seir0123456789abcdef0123456789abcdef0123"]) triadA validatorX
  = 0.725.
Proof.
  unfold calculateConsensus. rewrite connections_ABC.
  cbn [length map fold_left validated triadB triadC].
  rewrite bool_decide_eq_false_2 by discriminate.
  rewrite score_A_B, score_A_C by reflexivity.
  replace (Set_has _ _) with true by (symmetry; apply bool_decide_eq_true_2; set_solver).
  rewrite Rmin_right; simpl; lra.
Qed.

End ScenarioProofs.

Section ValidateTheorems.

Import TriadMatrix StoreOps Examples Scenario.
Open Scope R_scope.

(** C3.  For a triad whose validated flag is already true, [validateTriad]
    is a no-op: it returns the existing triad, leaves the store as it was
    (so the triad is unchanged and validationAttempts does not increase),
    performs no write and emits nothing, and calling it again gives the
    same. *)
Theorem validateTriad_validated_noop (this : t) (triadId validatorAddress : Js.Value)
    (r : ref) (triad : Triad) :
  isInitialized this = true →
  triads_get this triadId = Some (r, triad) →
  validated triad = true →
  result (validateTriad this triadId validatorAddress) = Return r
  ∧ after (validateTriad this triadId validatorAddress) = this
  ∧ effects (validateTriad this triadId validatorAddress) = []
  ∧ heap (after (validateTriad this triadId validatorAddress)) !! r = Some triad
  ∧ validateTriad (after (validateTriad this triadId validatorAddress)) triadId validatorAddress
    = validateTriad this triadId validatorAddress.
Proof.
  intros Hinit Hget Hval.
  rewrite (validateTriad_validated_outcome this triadId validatorAddress r triad)
    by assumption.
  cbn [result after effects].
  rewrite (validateTriad_validated_outcome this triadId validatorAddress r triad)
    by assumption.
  destruct (triads_get_heap _ _ _ _ Hget) as [Hr _].
  repeat split; assumption.
Qed.

Lemma validateTriad_validated_noop_witness :
  result (validateTriad (store_AB []) (Js.Str idB) validatorX) = Return 1%nat
  ∧ after (validateTriad (store_AB []) (Js.Str idB) validatorX) = store_AB []
  ∧ effects (validateTriad (store_AB []) (Js.Str idB) validatorX) = []
  ∧ heap (after (validateTriad (store_AB []) (Js.Str idB) validatorX)) !! 1%nat = Some triadB
  ∧ validateTriad (after (validateTriad (store_AB []) (Js.Str idB) validatorX))
      (Js.Str idB) validatorX
    = validateTriad (store_AB []) (Js.Str idB) validatorX.
Proof.
  apply (validateTriad_validated_noop (store_AB []) (Js.Str idB) validatorX 1%nat triadB);
    reflexivity.
Defined.

(** C9, as stated, fails: the snapshot holds the store's own triad
    objects.  Through a snapshot taken before [validateTriad], triad A
    reads validationAttempts 0 and consensus 0; after the call the same
    snapshot reads validationAttempts 1 and consensus 0.55. *)
Lemma getMatrixState_is_live_on_triads :
  (validationAttempts <$> snapshot_triad (heap (store_AB [])) (getMatrixState (store_AB [])) 0
   = Some 0%Z)
  ∧ (consensus <$> snapshot_triad (heap (store_AB [])) (getMatrixState (store_AB [])) 0
     = Some 0)
  ∧ (validationAttempts <$>
       snapshot_triad (heap (after (validateTriad (store_AB []) (Js.Str idA) validatorX)))
                      (getMatrixState (store_AB [])) 0
     = Some 1%Z)
  ∧ (consensus <$>
       snapshot_triad (heap (after (validateTriad (store_AB []) (Js.Str idA) validatorX)))
                      (getMatrixState (store_AB [])) 0
     = Some 0.55).
Proof.
  split; [reflexivity|]. split; [reflexivity|].
  rewrite (validateTriad_pending_outcome (store_AB []) idA validatorX 0%nat triadA)
    by reflexivity.
  split; [reflexivity|].
  cbn. f_equal. apply scenario_unregistered.
Qed.

(** C9, amended.  [getMatrixState] copies the parameters, the count and the
    arrays, but not the triads: the snapshot's triads are the store's own
    objects.  What the snapshot shows of a triad is unaffected by a later
    [createTriad] or [addValidator]; after a later [validateTriad] of a
    triad that was not yet validated, the snapshot's entry for that triad
    shows the updated consensus, validationAttempts and validated. *)
Theorem getMatrixState_shallow (this : t) (i : nat) (r : ref) :
  ms_triads (getMatrixState this) !! i = Some r →
  (r < length (heap this))%nat →
  (∀ env data0 validator0,
     snapshot_triad (heap (after (createTriad env this data0 validator0)))
                    (getMatrixState this) i
     = snapshot_triad (heap this) (getMatrixState this) i)
  ∧ (∀ env validatorId,
       snapshot_triad (heap (after (addValidator env this validatorId)))
                      (getMatrixState this) i
       = snapshot_triad (heap this) (getMatrixState this) i)
  ∧ (∀ key validatorId triad,
       isInitialized this = true →
       triads_get this (Js.Str key) = Some (r, triad) →
       validated triad = false →
       snapshot_triad (heap this) (getMatrixState this) i = Some triad
       ∧ ∃ triad',
           snapshot_triad (heap (after (validateTriad this (Js.Str key) validatorId)))
                          (getMatrixState this) i = Some triad'
           ∧ consensus triad' = calculateConsensus this triad validatorId
           ∧ validationAttempts triad' = (validationAttempts triad + 1)%Z
           ∧ (validated triad' = true ↔
              calculateConsensus this triad validatorId >= consensusThreshold this)
           ∧ triad' ≠ triad).
Proof.
  intros Hi Hr.
  assert (∀ h, snapshot_triad h (getMatrixState this) i = h !! r) as Hs.
  { intros h. unfold snapshot_triad.
    exact (f_equal (λ o : option ref, o ≫= λ r0 : ref, h !! r0) Hi). }
  rewrite !Hs. split; [|split].
  - intros env d v. rewrite Hs. destruct (createTriad_heap env this d v) as [new ->].
    apply lookup_app_l. exact Hr.
  - intros env v. rewrite Hs, addValidator_heap. reflexivity.
  - intros key v triad Hinit Hget Hpending. rewrite Hs.
    destruct (triads_get_heap _ _ _ _ Hget) as [Hh _]. split; [exact Hh|].
    exists (rescored this triad v).
    rewrite (validateTriad_pending_outcome this key v r triad) by assumption.
    cbn [after heap set_db set_heap]. split.
    { apply list_lookup_insert_eq. exact Hr. }
    split; [reflexivity|]. split; [reflexivity|]. split.
    { unfold rescored. cbn [validated]. apply bool_decide_eq_true. }
    intros Heq. apply (f_equal validationAttempts) in Heq. cbn in Heq. lia.
Qed.

Lemma getMatrixState_shallow_witness :
  snapshot_triad (heap (store_AB [])) (getMatrixState (store_AB [])) 0 = Some triadA
  ∧ ∃ triad',
      snapshot_triad (heap (after (validateTriad (store_AB []) (Js.Str idA) validatorX)))
                     (getMatrixState (store_AB [])) 0 = Some triad'
      ∧ consensus triad' = calculateConsensus (store_AB []) triadA validatorX
      ∧ validationAttempts triad' = (validationAttempts triadA + 1)%Z
      ∧ (validated triad' = true ↔
         calculateConsensus (store_AB []) triadA validatorX
         >= consensusThreshold (store_AB []))
      ∧ triad' ≠ triadA.
Proof.
  apply (proj2 (proj2 (getMatrixState_shallow (store_AB []) 0%nat 0%nat
                         ltac:(reflexivity) ltac:(simpl; lia)))
           idA validatorX triadA); reflexivity.
Defined.

End ValidateTheorems.

(** * The wallet *)

Section WalletTheorems.

Context {KeyPair : Type}.
Variable keyFromPrivate : string → option KeyPair.
Variable getPublic : KeyPair → option string.
Variable Buffer_from_hex : string → list Byte.byte.
Variable sha256 : list Byte.byte → option (list Byte.byte).
Variable ripemd160 : list Byte.byte → option (list Byte.byte).

Local Abbreviation import :=
  (Wallet.importFromPrivateKey keyFromPrivate getPublic Buffer_from_hex sha256 ripemd160).
Local Abbreviation derive := (Wallet._generateAddress Buffer_from_hex sha256 ripemd160).
Local Abbreviation library_fails :=
  (WalletSpec.library_fails keyFromPrivate getPublic Buffer_from_hex sha256 ripemd160).

Lemma test_hex64_spec (s : string) :
  Wallet.test_hex64 s = true ↔ String.length s = 64%nat ∧ string_forall Wallet.is_hex s = true.
Proof.
  unfold Wallet.test_hex64. rewrite andb_true_iff, bool_decide_eq_true. reflexivity.
Qed.

(** C10, amended.  [importFromPrivateKey] fails with InvalidFormat on
    every input that is not exactly 64 hexadecimal characters, and then
    leaves the wallet as it was: the call loads no key, and a key loaded
    earlier stays loaded.  On a well-formed input, if any call into the
    curve library raises, every field of the wallet (key pair, public key,
    address) is reset to null and the call fails with ImportFailed;
    otherwise it succeeds and stores the key pair, the public key derived
    from it and the address derived from the public key. *)
Theorem importFromPrivateKey_spec (this : Wallet.t) (privateKeyHex : string) :
  (¬ (String.length privateKeyHex = 64%nat
      ∧ string_forall Wallet.is_hex privateKeyHex = true) →
   import this privateKeyHex = (Throw InvalidFormat, this))
  ∧ (String.length privateKeyHex = 64%nat →
     string_forall Wallet.is_hex privateKeyHex = true →
     library_fails privateKeyHex →
     ∃ cleared,
       import this privateKeyHex = (Throw ImportFailed, cleared)
       ∧ Wallet.keyPair cleared = None
       ∧ Wallet.publicKey cleared = None
       ∧ Wallet.address cleared = None)
  ∧ (String.length privateKeyHex = 64%nat →
     string_forall Wallet.is_hex privateKeyHex = true →
     ∀ kp pk addr,
       keyFromPrivate privateKeyHex = Some kp →
       getPublic kp = Some pk →
       derive pk = Return addr →
       ∃ imported,
         import this privateKeyHex = (Return true, imported)
         ∧ Wallet.keyPair imported = Some kp
         ∧ Wallet.publicKey imported = Some pk
         ∧ Wallet.address imported = addr).
Proof.
  unfold Wallet.importFromPrivateKey. split; [|split].
  - intros Hbad. destruct (Wallet.test_hex64 privateKeyHex) eqn:E; [|reflexivity].
    apply test_hex64_spec in E. contradiction.
  - intros Hlen Hhex Hfail.
    rewrite (proj2 (test_hex64_spec privateKeyHex) (conj Hlen Hhex)). cbn [negb].
    exists Wallet.empty.
    destruct Hfail as [->|(kp & -> & [->|(pk & e & -> & ->)])]; repeat split.
  - intros Hlen Hhex kp pk addr -> -> ->.
    rewrite (proj2 (test_hex64_spec privateKeyHex) (conj Hlen Hhex)). cbn [negb].
    eexists. repeat split.
Qed.

End WalletTheorems.

Section WalletWitness.

Import WalletExamples.

(** C10, as stated, fails on a wallet that already holds a key: a
    malformed input is refused with InvalidFormat, and the key imported
    before is still loaded afterwards. *)
Lemma importFromPrivateKey_keeps_loaded_key :
  Wallet.keyPair loaded = Some key64
  ∧ (Wallet.importFromPrivateKey toy_keyFromPrivate toy_getPublic toy_Buffer_from_hex
       toy_digest toy_digest loaded "not-a-key").1 = Throw InvalidFormat
  ∧ Wallet.keyPair
      (Wallet.importFromPrivateKey toy_keyFromPrivate toy_getPublic toy_Buffer_from_hex
         toy_digest toy_digest loaded "not-a-key").2 = Some key64
  ∧ Wallet.keyPair
      (Wallet.importFromPrivateKey toy_keyFromPrivate toy_getPublic toy_Buffer_from_hex
         toy_digest toy_digest loaded "not-a-key").2 ≠ None.
Proof. repeat split; discriminate. Qed.

(** The three cases of the import on concrete inputs: a malformed key, a
    library that raises, and a successful import. *)
Lemma importFromPrivateKey_spec_witness :
  Wallet.importFromPrivateKey toy_keyFromPrivate toy_getPublic toy_Buffer_from_hex
    toy_digest toy_digest loaded "not-a-key" = (Throw InvalidFormat, loaded)
  ∧ (∃ cleared : @Wallet.t string,
       Wallet.importFromPrivateKey failing_keyFromPrivate toy_getPublic toy_Buffer_from_hex
         toy_digest toy_digest loaded key64 = (Throw ImportFailed, cleared)
       ∧ Wallet.keyPair cleared = None
       ∧ Wallet.publicKey cleared = None
       ∧ Wallet.address cleared = None)
  ∧ (∃ imported : @Wallet.t string,
       Wallet.importFromPrivateKey toy_keyFromPrivate toy_getPublic toy_Buffer_from_hex
         toy_digest toy_digest loaded key64 = (Return true, imported)
       ∧ Wallet.keyPair imported = Some key64
       ∧ Wallet.publicKey imported
         = Some "02a1b2c3d4e5f60718293a4b5c6d7e8f90a1b2c3d4e5f60718293a4b5c6d7e8f90"
       ∧ Wallet.address imported = Some "seir5a5a5a5a5a5a5a5a5a5a5a5a5a5a5a5a5a5a").
Proof.
  split; [|split].
  - apply (proj1 (importFromPrivateKey_spec toy_keyFromPrivate toy_getPublic
                    toy_Buffer_from_hex toy_digest toy_digest loaded "not-a-key")).
    simpl. intros [H _]. discriminate H.
  - apply (proj1 (proj2 (importFromPrivateKey_spec failing_keyFromPrivate toy_getPublic
                           toy_Buffer_from_hex toy_digest toy_digest loaded key64))).
    + reflexivity.
    + reflexivity.
    + left. reflexivity.
  - apply (proj2 (proj2 (importFromPrivateKey_spec toy_keyFromPrivate toy_getPublic
                           toy_Buffer_from_hex toy_digest toy_digest loaded key64))
             ltac:(reflexivity) ltac:(reflexivity) key64 _ _ eq_refl eq_refl eq_refl).
Defined.

End WalletWitness.

(** * The gossip node *)

Section MonadLaws.

Import P2PNode.

Lemma bind_run {A B : Type} (c : M A) (k : A → M B) (this this1 : t) (a : A)
    (w1 : list Effect) :
  c this = (Return a, this1, w1) →
  bind c k this = (let '(r, this2, w2) := k a this1 in (r, this2, w1 ++ w2)).
Proof. intros H. unfold bind. rewrite H. destruct (k a this1) as [[r s] w]. reflexivity. Qed.

Lemma bind_pure {A B : Type} (c : M A) (k : A → M B) (this : t) (a : A) :
  c this = (Return a, this, []) → bind c k this = k a this.
Proof.
  intros H. rewrite (bind_run c k this this a [] H).
  destruct (k a this) as [[r s] w]. reflexivity.
Qed.

Lemma bind_get_this {B : Type} (k : t → M B) (this : t) :
  bind get_this k this = k this this.
Proof. apply bind_pure. reflexivity. Qed.

Lemma bind_lift_Return {A B : Type} (a : A) (k : A → M B) (this : t) :
  bind (lift (Return a)) k this = k a this.
Proof. apply bind_pure. reflexivity. Qed.

Lemma bind_lift_Throw {A B : Type} (e : Error) (k : A → M B) (this : t) :
  bind (lift (Throw e)) k this = (Throw e, this, []).
Proof. reflexivity. Qed.

Lemma bind_put_this {B : Type} (this' : t) (k : unit → M B) (this : t) :
  bind (put_this this') k this = k () this'.
Proof.
  rewrite (bind_run (put_this this') k this this' () []) by reflexivity.
  destruct (k () this') as [[r s] w]. reflexivity.
Qed.

Lemma bind_tell {B : Type} (e : Effect) (k : unit → M B) (this : t) :
  bind (tell e) k this = (let '(r, this2, w2) := k () this in (r, this2, e :: w2)).
Proof. rewrite (bind_run (tell e) k this this () [e]) by reflexivity. reflexivity. Qed.

Lemma bind_ret_unit (c : M unit) (this : t) :
  bind c (λ _, ret ()) this = c this.
Proof.
  unfold bind. destruct (c this) as [[[[]|e] s] w]; [|reflexivity].
  cbn. rewrite app_nil_r. reflexivity.
Qed.

Lemma sendMessage_run (ws : socket) (msg : Js.Value) (this : t) :
  sendMessage ws msg this
  = (Return (), this,
     if bool_decide (readyState_of this ws = OPEN) then [Send ws msg] else []).
Proof.
  unfold sendMessage. rewrite bind_get_this. case_bool_decide; reflexivity.
Qed.

Lemma forEach_sends (msg : Js.Value) (origin : option string) (this : t)
    (l : list (string * Peer.t)) :
  forEach (λ entry : string * Peer.t,
             if negb (bool_decide (Some entry.1 = origin))
             then sendMessage (Peer.ws entry.2) msg
             else ret ()) l this
  = (Return (), this,
     GossipSpec.sends msg
       (map (λ entry : string * Peer.t, Peer.ws entry.2)
          (List.filter
             (λ entry : string * Peer.t,
                negb (bool_decide (Some entry.1 = origin))
                && bool_decide (readyState_of this (Peer.ws entry.2) = OPEN)) l))).
Proof.
  induction l as [|entry l IH]; [reflexivity|].
  cbn [forEach List.filter].
  destruct (negb (bool_decide (Some entry.1 = origin))) eqn:E; cbn [andb].
  - rewrite (bind_run _ _ this this () _ (sendMessage_run _ _ _)), IH.
    destruct (bool_decide (readyState_of this (Peer.ws entry.2) = OPEN)); reflexivity.
  - rewrite (bind_pure _ _ this ()) by reflexivity. exact IH.
Qed.

Lemma broadcast_run (msg : Js.Value) (origin : option string) (this : t) :
  broadcast msg origin this
  = (Return (), this, GossipSpec.sends msg (GossipSpec.broadcast_targets this origin)).
Proof. unfold broadcast. rewrite bind_get_this. apply forEach_sends. Qed.

End MonadLaws.

Section NodeLemmas.

Import P2PNode GossipSpec.

Variable Number_toString : R → string.

Lemma peers_get_delete (m : list (string * Peer.t)) (k : string) :
  peers_get (peers_delete m k) k = None.
Proof.
  induction m as [|[k' v] m IH]; [reflexivity|].
  unfold peers_delete in *. cbn [List.filter fst].
  case_bool_decide as E; cbn [negb]; [exact IH|].
  cbn [peers_get]. rewrite bool_decide_eq_false_2 by exact E. exact IH.
Qed.

Lemma peers_get_set (m : list (string * Peer.t)) (k : string) (v : Peer.t) :
  peers_get (peers_set m k v) k = Some v.
Proof.
  induction m as [|[k' v'] m IH]; cbn [peers_set peers_get].
  - rewrite bool_decide_eq_true_2 by reflexivity. reflexivity.
  - case_bool_decide as E; cbn [peers_get].
    + rewrite bool_decide_eq_true_2 by reflexivity. reflexivity.
    + rewrite bool_decide_eq_false_2 by exact E. exact IH.
Qed.

Lemma terminate_run (ws : socket) (this : t) :
  terminate ws this
  = (Return (), set_readyState (<[ws := CLOSED]> (readyState this)) this, [Terminate ws]).
Proof. unfold terminate. rewrite bind_get_this, bind_put_this. reflexivity. Qed.

Lemma removePeer_run (peerId : string) (peer : Peer.t) (this : t) :
  peers_get (peers this) peerId = Some peer →
  readyState_of this (Peer.ws peer) = OPEN →
  removePeer peerId this
  = (Return (),
     set_peers (peers_delete (peers this) peerId)
       (set_readyState (<[Peer.ws peer := CLOSED]> (readyState this)) this),
     [Terminate (Peer.ws peer); EmitPeerDisconnected peerId]).
Proof.
  intros Hget Hopen. unfold removePeer. rewrite bind_get_this, Hget, Hopen.
  cbn [orb]. rewrite bool_decide_eq_true_2 by reflexivity. cbn [orb].
  rewrite (bind_run _ _ _ _ () _ (terminate_run _ _)).
  rewrite bind_get_this, bind_put_this. reflexivity.
Qed.

Lemma handleMessage_unknown_peer (env : Ambient) (ws : socket) (msg : Js.Value)
    (peerId : string) (this : t) :
  peers_get (peers this) peerId = None →
  handleMessage Number_toString env ws msg peerId this = terminate ws this.
Proof. intros H. unfold handleMessage. rewrite bind_get_this, H. reflexivity. Qed.

Lemma handleMessage_dispatch (env : Ambient) (ws : socket) (msg type : Js.Value)
    (peerId : string) (peer : Peer.t) (this : t) :
  peers_get (peers this) peerId = Some peer →
  Js.get msg "type" = Return type →
  handleMessage Number_toString env ws msg peerId this
  = (if Js.strict_eq type (Js.Str HANDSHAKE) then case_HANDSHAKE ws msg peerId peer
     else if Js.strict_eq type (Js.Str DISCOVERY) then case_DISCOVERY ws
     else if Js.strict_eq type (Js.Str PEERS) then case_PEERS Number_toString env msg
     else if Js.strict_eq type (Js.Str NEW_TRIAD)
          then case_NEW_TRIAD Number_toString env msg peerId
     else if Js.strict_eq type (Js.Str VALIDATE_TRIAD) then case_VALIDATE_TRIAD msg
     else if Js.strict_eq type (Js.Str TRIAD_VALIDATED)
          then case_TRIAD_VALIDATED Number_toString msg peerId
     else if Js.strict_eq type (Js.Str GET_STATUS) then case_GET_STATUS ws
     else if Js.strict_eq type (Js.Str ERROR) then case_ERROR msg
     else sendMessage ws
            (error_message ("Unknown message type: " +:+ Js.ToString Number_toString type)))
      this.
Proof.
  intros Hpeer Htype. unfold handleMessage.
  rewrite bind_get_this, Hpeer, Htype, bind_lift_Return. reflexivity.
Qed.

Lemma forEach_store_effect (this : t) (effs : list TriadMatrix.Effect) :
  forEach store_effect effs this = (Return (), this, listeners_trace this effs).
Proof.
  induction effs as [|e effs IH]; [reflexivity|].
  cbn [forEach listeners_trace flat_map].
  assert (store_effect e this
          = (Return (), this,
             Store e ::
             match e with
             | TriadMatrix.Emit (TriadMatrix.triadCreated r) =>
                 sends (message NEW_TRIAD (triad_payload this r)) (broadcast_targets this None)
             | TriadMatrix.Emit (TriadMatrix.triadValidated r) =>
                 sends (message TRIAD_VALIDATED (triad_payload this r))
                       (broadcast_targets this None)
             | TriadMatrix.Put _ _ => []
             end)) as Hstep.
  { unfold store_effect. rewrite bind_tell. destruct e as [k v|[r|r]].
    - reflexivity.
    - unfold on_store_event. rewrite bind_get_this, broadcast_run. reflexivity.
    - unfold on_store_event. rewrite bind_get_this, broadcast_run. reflexivity. }
  rewrite (bind_run _ _ _ _ () _ Hstep), IH. reflexivity.
Qed.

Lemma call_store_run {A : Type} (op : TriadMatrix.t → TriadMatrix.Outcome A)
    (store : TriadMatrix.t) (this : t) :
  triadMatrix this = Some store →
  call_store op this
  = (Return (TriadMatrix.result (op store)),
     set_triadMatrix (Some (TriadMatrix.after (op store))) this,
     listeners_trace (set_triadMatrix (Some (TriadMatrix.after (op store))) this)
                     (TriadMatrix.effects (op store))).
Proof.
  intros Hstore. unfold call_store. rewrite bind_get_this, Hstore, bind_put_this.
  rewrite (bind_run _ _ _ _ () _ (forEach_store_effect _ _)).
  cbn. rewrite app_nil_r. reflexivity.
Qed.

End NodeLemmas.

Section HandshakeTheorems.

Import P2PNode GossipSpec NodeExamples.

Variable Number_toString : R → string.

Lemma case_HANDSHAKE_mismatch (this : t) (msg payload remoteNetworkId : Js.Value)
    (peerId : string) (peer : Peer.t) :
  peers_get (peers this) peerId = Some peer →
  readyState_of this (Peer.ws peer) = OPEN →
  Js.get msg "payload" = Return payload →
  Js.get payload "networkId" = Return remoteNetworkId →
  Js.strict_eq remoteNetworkId (Js.Str (networkId this)) = false →
  case_HANDSHAKE (Peer.ws peer) msg peerId peer this
  = (Return (),
     set_peers (peers_delete (peers this) peerId)
       (set_readyState (<[Peer.ws peer := CLOSED]> (readyState this)) this),
     [Send (Peer.ws peer) (error_message "Network ID mismatch");
      Terminate (Peer.ws peer); EmitPeerDisconnected peerId]).
Proof.
  intros Hpeer Hopen Hpayload Hnet Hneq. unfold case_HANDSHAKE.
  rewrite bind_get_this, Hpayload, bind_lift_Return, Hnet, bind_lift_Return, Hneq.
  cbn [negb].
  rewrite (bind_run _ _ _ _ () _ (sendMessage_run _ _ _)).
  rewrite (removePeer_run peerId peer this Hpeer Hopen), Hopen.
  rewrite bool_decide_eq_true_2 by reflexivity. reflexivity.
Qed.

Lemma case_HANDSHAKE_match (this : t) (ws : socket)
    (msg payload remoteNetworkId remoteNodeId remoteAddress : Js.Value)
    (peerId : string) (peer : Peer.t) :
  readyState_of this ws = OPEN →
  Js.get msg "payload" = Return payload →
  Js.get payload "networkId" = Return remoteNetworkId →
  Js.get payload "nodeId" = Return remoteNodeId →
  Js.get payload "address" = Return remoteAddress →
  Js.strict_eq remoteNetworkId (Js.Str (networkId this)) = true →
  case_HANDSHAKE ws msg peerId peer this
  = (Return (),
     set_peers (peers_set (peers this) peerId
                  (Peer.set_handshake remoteNodeId remoteAddress peer)) this,
     [Send ws (message PEERS
                 (Js.Array (getPeerAddresses
                    (set_peers (peers_set (peers this) peerId
                                  (Peer.set_handshake remoteNodeId remoteAddress peer))
                               this))))]).
Proof.
  intros Hopen Hpayload Hnet Hnode Haddr Heq. unfold case_HANDSHAKE.
  rewrite bind_get_this, Hpayload, bind_lift_Return, Hnet, bind_lift_Return, Heq.
  cbn [negb].
  rewrite Hnode, bind_lift_Return, Haddr, bind_lift_Return, bind_put_this, bind_get_this.
  rewrite sendMessage_run.
  replace (readyState_of (set_peers _ this) ws) with OPEN by (symmetry; exact Hopen).
  rewrite bool_decide_eq_true_2 by reflexivity. reflexivity.
Qed.

(** C8.  A HANDSHAKE whose network id differs from the local one is
    answered with an ERROR message, the peer is removed from the peer map
    and its socket terminated, and any later message handled for that peer
    only terminates the socket again: it changes neither the peers nor the
    store and sends nothing.  A HANDSHAKE with the local network id
    records the remote's node id and address on the peer record and is
    answered with a PEERS message listing the known peer addresses. *)
Theorem HANDSHAKE_network_isolation (env : Ambient) (this : t)
    (msg payload remoteNetworkId : Js.Value) (peerId : string) (peer : Peer.t) :
  peers_get (peers this) peerId = Some peer →
  readyState_of this (Peer.ws peer) = OPEN →
  Js.get msg "type" = Return (Js.Str HANDSHAKE) →
  Js.get msg "payload" = Return payload →
  Js.get payload "networkId" = Return remoteNetworkId →
  (Js.strict_eq remoteNetworkId (Js.Str (networkId this)) = false →
   ∃ this',
     handleMessage Number_toString env (Peer.ws peer) msg peerId this
     = (Return (), this',
        [Send (Peer.ws peer) (error_message "Network ID mismatch");
         Terminate (Peer.ws peer); EmitPeerDisconnected peerId])
     ∧ peers_get (peers this') peerId = None
     ∧ readyState_of this' (Peer.ws peer) = CLOSED
     ∧ triadMatrix this' = triadMatrix this
     ∧ (∀ env' frame, ∃ this'',
          on_message_incoming Number_toString env' (Peer.ws peer) peerId frame this'
          = (Return (), this'',
             match frame with
             | Some _ => [Terminate (Peer.ws peer)]
             | None => []
             end)
          ∧ peers this'' = peers this'
          ∧ triadMatrix this'' = triadMatrix this')
     ∧ ∀ env' frame,
         findPeerIdByWs this' (Peer.ws peer) = None →
         ∃ this'',
           on_message_outgoing Number_toString env' (Peer.ws peer) peerId frame this'
           = (Return (), this'',
              match frame with
              | Some _ => [Terminate (Peer.ws peer)]
              | None => []
              end)
           ∧ peers this'' = peers this'
           ∧ triadMatrix this'' = triadMatrix this')
  ∧ (Js.strict_eq remoteNetworkId (Js.Str (networkId this)) = true →
     ∀ remoteNodeId remoteAddress,
       Js.get payload "nodeId" = Return remoteNodeId →
       Js.get payload "address" = Return remoteAddress →
       ∃ this',
         handleMessage Number_toString env (Peer.ws peer) msg peerId this
         = (Return (), this',
            [Send (Peer.ws peer) (message PEERS (Js.Array (getPeerAddresses this')))])
         ∧ peers_get (peers this') peerId
           = Some (Peer.set_handshake remoteNodeId remoteAddress peer)
         ∧ Peer.nodeId (Peer.set_handshake remoteNodeId remoteAddress peer) = remoteNodeId
         ∧ Peer.address (Peer.set_handshake remoteNodeId remoteAddress peer) = remoteAddress
         ∧ triadMatrix this' = triadMatrix this
         ∧ readyState this' = readyState this).
Proof.
  intros Hpeer Hopen Htype Hpayload Hnet.
  rewrite (handleMessage_dispatch Number_toString env _ msg _ peerId peer this Hpeer Htype).
  change (Js.strict_eq (Js.Str HANDSHAKE) (Js.Str HANDSHAKE)) with true. cbv iota.
  split.
  - intros Hneq. eexists. split.
    { apply (case_HANDSHAKE_mismatch this msg payload remoteNetworkId peerId peer);
        assumption. }
    cbn [peers set_peers set_readyState triadMatrix].
    split; [apply peers_get_delete|]. split.
    { unfold readyState_of. cbn [readyState set_peers set_readyState].
      rewrite lookup_insert_eq. reflexivity. }
    split; [reflexivity|]. split.
    { intros env' frame. unfold on_message_incoming, catch.
      destruct frame as [msg'|]; cbn [from_option].
      + rewrite bind_lift_Return.
        rewrite handleMessage_unknown_peer
          by (cbn [peers set_peers]; apply peers_get_delete).
        rewrite terminate_run. eexists. split; [reflexivity|]. split; reflexivity.
      + rewrite bind_lift_Throw. cbv beta iota. rewrite sendMessage_run.
        set (s := set_peers _ _).
        assert (readyState_of s (Peer.ws peer) = CLOSED) as ->.
        { subst s. unfold readyState_of. cbn [readyState set_peers set_readyState].
          rewrite lookup_insert_eq. reflexivity. }
        rewrite bool_decide_eq_false_2 by discriminate.
        eexists. split; [reflexivity|]. split; reflexivity. }
    intros env' frame Hnone. unfold on_message_outgoing, catch.
    destruct frame as [msg'|]; cbn [from_option].
    + rewrite bind_lift_Return, bind_get_this, Hnone. cbn [default].
      rewrite handleMessage_unknown_peer
        by (cbn [peers set_peers]; apply peers_get_delete).
      rewrite terminate_run. eexists. split; [reflexivity|]. split; reflexivity.
    + rewrite bind_lift_Throw. cbv beta iota.
      eexists. split; [reflexivity|]. split; reflexivity.
  - intros Heq remoteNodeId remoteAddress Hnode Haddr. eexists. split.
    { apply (case_HANDSHAKE_match this _ msg payload remoteNetworkId remoteNodeId
               remoteAddress peerId peer); assumption. }
    cbn [peers set_peers triadMatrix readyState].
    split; [apply peers_get_set|]. repeat split.
Qed.

End HandshakeTheorems.

Section HandshakeWitness.

Import P2PNode GossipSpec Examples NodeExamples.

Lemma HANDSHAKE_network_isolation_witness :
  (∃ this',
     handleMessage toy_Number_toString env0 1%nat (handshake "some-other-network")
       "peer-1" node0
     = (Return (), this',
        [Send 1%nat (error_message "Network ID mismatch"); Terminate 1%nat;
         EmitPeerDisconnected "peer-1"])
     ∧ peers_get (peers this') "peer-1" = None)
  ∧ (∃ this',
       handleMessage toy_Number_toString env0 1%nat (handshake "seirchain-default")
         "peer-1" node0
       = (Return (), this',
          [Send 1%nat (message PEERS (Js.Array (getPeerAddresses this')))])
       ∧ peers_get (peers this') "peer-1"
         = Some (Peer.set_handshake (Js.Str "node-1") (Js.Str "ws://10.0.0.1:6001") peer1)).
Proof.
  split.
  - destruct (proj1 (HANDSHAKE_network_isolation toy_Number_toString env0 node0
                       (handshake "some-other-network") _ _ "peer-1" peer1
                       eq_refl eq_refl eq_refl eq_refl eq_refl) eq_refl)
      as (this' & Hrun & Hgone & _).
    exists this'. split; assumption.
  - destruct (proj2 (HANDSHAKE_network_isolation toy_Number_toString env0 node0
                       (handshake "seirchain-default") _ _ "peer-1" peer1
                       eq_refl eq_refl eq_refl eq_refl eq_refl) eq_refl
                _ _ eq_refl eq_refl)
      as (this' & Hrun & Hpeer & _).
    exists this'. split; assumption.
Defined.

End HandshakeWitness.

Section NewTriadTheorems.

Import P2PNode GossipSpec.

Variable Number_toString : R → string.

Lemma get_sibling (v a : Js.Value) (k1 k2 : string) :
  Js.get v k1 = Return a → ∃ b, Js.get v k2 = Return b.
Proof. destruct v; cbn; intros H; try discriminate; eauto. Qed.

Lemma handleMessage_NEW_TRIAD (env : Ambient) (ws : socket) (msg : Js.Value)
    (peerId : string) (peer : Peer.t) (this : t) :
  peers_get (peers this) peerId = Some peer →
  Js.get msg "type" = Return (Js.Str NEW_TRIAD) →
  handleMessage Number_toString env ws msg peerId this
  = case_NEW_TRIAD Number_toString env msg peerId this.
Proof.
  intros Hpeer Htype.
  rewrite (handleMessage_dispatch Number_toString env ws msg _ peerId peer this Hpeer Htype).
  reflexivity.
Qed.

(** The NEW_TRIAD case, by what [getTriad] answers for the carried id. *)
Lemma case_NEW_TRIAD_run (env : Ambient) (this : t) (store : TriadMatrix.t)
    (msg payload carriedId data validator : Js.Value) (peerId : string) :
  triadMatrix this = Some store →
  Js.get msg "payload" = Return payload →
  Js.get payload "id" = Return carriedId →
  Js.get payload "data" = Return data →
  Js.get payload "validator" = Return validator →
  case_NEW_TRIAD Number_toString env msg peerId this
  = match TriadMatrix.getTriad store (Js.ToString Number_toString carriedId) with
    | Throw _ => (Return (), this, sends msg (broadcast_targets this (Some peerId)))
    | Return existing =>
        if from_option Js.ToBoolean false existing
        then (Return (), this, sends msg (broadcast_targets this (Some peerId)))
        else
          let created := TriadMatrix.createTriad env store data validator in
          let this' := set_triadMatrix (Some (TriadMatrix.after created)) this in
          (Return (), this',
           sends msg (broadcast_targets this (Some peerId))
           ++ listeners_trace this' (TriadMatrix.effects created))
    end.
Proof.
  intros Hstore Hpayload Hid Hdata Hvalidator. unfold case_NEW_TRIAD.
  rewrite bind_get_this, Hstore, Hpayload, bind_lift_Return, Hid, bind_lift_Return.
  rewrite (bind_run _ _ _ _ () _ (broadcast_run _ _ _)).
  destruct (TriadMatrix.getTriad store _) as [existing|e].
  - destruct (from_option Js.ToBoolean false existing); cbn [negb].
    + cbn. rewrite app_nil_r. reflexivity.
    + rewrite Hdata, bind_lift_Return, Hvalidator, bind_lift_Return.
      rewrite (bind_run _ _ _ _ _ _ (call_store_run _ store this Hstore)).
      cbn. rewrite app_nil_r. reflexivity.
  - cbn. rewrite app_nil_r. reflexivity.
Qed.

(** C6.  When a NEW_TRIAD message arrives from a known peer at a node with
    a store, the message is first re-broadcast to every peer with an open
    socket other than the one it came from, whatever the store then
    answers.  If the store already holds a record under the carried id,
    nothing is created and the node is unchanged.  If it holds none, the
    store's [createTriad] is run with the carried data and validator.  So
    the store changes only when the carried id was not known. *)
Theorem NEW_TRIAD_gossip (env : Ambient) (this : t) (store : TriadMatrix.t)
    (ws : socket) (msg payload carriedId : Js.Value) (peerId : string) (peer : Peer.t) :
  triadMatrix this = Some store →
  peers_get (peers this) peerId = Some peer →
  Js.get msg "type" = Return (Js.Str NEW_TRIAD) →
  Js.get msg "payload" = Return payload →
  Js.get payload "id" = Return carriedId →
  ∃ this' rest,
    handleMessage Number_toString env ws msg peerId this
    = (Return (), this', sends msg (broadcast_targets this (Some peerId)) ++ rest)
    ∧ peers this' = peers this
    ∧ readyState this' = readyState this
    ∧ (∀ record,
         TriadMatrix.getTriad store (Js.ToString Number_toString carriedId)
         = Return (Some record) →
         Js.ToBoolean record = true →
         this' = this ∧ rest = [])
    ∧ (TriadMatrix.getTriad store (Js.ToString Number_toString carriedId) = Return None →
       ∃ data validator,
         Js.get payload "data" = Return data
         ∧ Js.get payload "validator" = Return validator
         ∧ triadMatrix this'
           = Some (TriadMatrix.after (TriadMatrix.createTriad env store data validator))
         ∧ rest = listeners_trace this'
                    (TriadMatrix.effects (TriadMatrix.createTriad env store data validator)))
    ∧ (triadMatrix this' ≠ triadMatrix this →
       ¬ ∃ record,
           TriadMatrix.db store
             !! TriadMatrix.triad_key (Js.ToString Number_toString carriedId) = Some record
           ∧ Js.ToBoolean record = true).
Proof.
  intros Hstore Hpeer Htype Hpayload Hid.
  destruct (get_sibling payload carriedId "id" "data" Hid) as [data Hdata].
  destruct (get_sibling payload carriedId "id" "validator" Hid) as [validator Hvalidator].
  rewrite (handleMessage_NEW_TRIAD env ws msg peerId peer this Hpeer Htype).
  rewrite (case_NEW_TRIAD_run env this store msg payload carriedId data validator peerId
             Hstore Hpayload Hid Hdata Hvalidator).
  unfold TriadMatrix.getTriad.
  destruct (TriadMatrix.isInitialized store); cbn [negb].
  - destruct (TriadMatrix.db store !! _) as [record|] eqn:Hdb; cbn [from_option].
    + destruct (Js.ToBoolean record) eqn:Htruthy.
      * exists this, []. rewrite app_nil_r.
        split; [reflexivity|]. split; [reflexivity|]. split; [reflexivity|].
        split; [auto|]. split; [discriminate|]. intros Hne. contradiction.
      * eexists _, _. split; [reflexivity|].
        split; [reflexivity|]. split; [reflexivity|]. split.
        { intros record' [= <-] Ht. congruence. }
        split; [discriminate|].
        intros _ (record' & [= <-] & Ht). congruence.
    + eexists _, _. split; [reflexivity|].
      split; [reflexivity|]. split; [reflexivity|]. split; [discriminate|]. split.
      { intros _. exists data, validator. repeat split; assumption. }
      intros _ (record' & [=] & _).
  - exists this, []. rewrite app_nil_r.
    split; [reflexivity|]. split; [reflexivity|]. split; [reflexivity|].
    split; [discriminate|]. split; [discriminate|]. intros Hne. contradiction.
Qed.

End NewTriadTheorems.

Section NewTriadWitness.

Import P2PNode GossipSpec Examples Scenario NodeExamples.

Lemma NEW_TRIAD_gossip_witness :
  handleMessage toy_Number_toString env0 1%nat new_triad_A "peer-1" node0
  = (Return (), node0, [Send 2%nat new_triad_A]).
Proof.
  destruct (NEW_TRIAD_gossip toy_Number_toString env0 node0 (store_AB []) 1%nat
              new_triad_A _ _ "peer-1" peer1 eq_refl eq_refl eq_refl eq_refl eq_refl)
    as (this' & rest & Hrun & _ & _ & Hknown & _).
  destruct (Hknown (TriadMatrix.Triad_toJSON triadA) eq_refl eq_refl) as [-> ->].
  exact Hrun.
Defined.

End NewTriadWitness.

Section IdLemmas.

Import TriadMatrix IdSpec CreateSpec.

Lemma Map_get_set (m : list (string * ref)) (k : string) (v : ref) :
  Map_get (Map_set m k v) k = Some v.
Proof.
  induction m as [|[k' v'] m IH]; cbn [Map_set Map_get].
  - rewrite bool_decide_eq_true_2 by reflexivity. reflexivity.
  - case_bool_decide as E; cbn [Map_get].
    + rewrite bool_decide_eq_true_2 by reflexivity. reflexivity.
    + rewrite bool_decide_eq_false_2 by exact E. exact IH.
Qed.

Lemma triad_key_inj (a b : string) : triad_key a = triad_key b → a = b.
Proof. unfold triad_key. cbn. intros [=]. assumption. Qed.

Lemma triad_key_not_metadata (a : string) : triad_key a ≠ "matrix:state_metadata".
Proof. unfold triad_key. cbn. discriminate. Qed.

(** Everything a successful [createTriad] does to the store. *)
Lemma createTriad_returns (env : Ambient) (this : t) (data0 validator0 : Js.Value) (r : ref) :
  result (createTriad env this data0 validator0) = Return r →
  r = length (heap this)
  ∧ isInitialized this = true
  ∧ heap (after (createTriad env this data0 validator0))
    = heap this ++ [new_triad env this data0 validator0]
  ∧ matrix (after (createTriad env this data0 validator0)) = matrix this ++ [r]
  ∧ triads (after (createTriad env this data0 validator0))
    = Map_set (triads this) (generateTriadId env) r
  ∧ db (after (createTriad env this data0 validator0))
      !! triad_key (generateTriadId env)
    = Some (Triad_toJSON (new_triad env this data0 validator0))
  ∧ (∀ other, other ≠ generateTriadId env →
       db (after (createTriad env this data0 validator0)) !! triad_key other
       = db this !! triad_key other)
  ∧ isInitialized (after (createTriad env this data0 validator0)) = true.
Proof.
  unfold createTriad.
  destruct (isInitialized this) eqn:Hinit; cbn [negb]; [|discriminate].
  destruct (_ || _); [discriminate|]. destruct (_ || _); [discriminate|].
  cbn -[generateTriadId calculateOptimalPosition triad_key].
  intros [= <-]. split; [reflexivity|]. split; [reflexivity|].
  split; [reflexivity|]. split; [reflexivity|]. split; [reflexivity|]. split.
  { rewrite lookup_insert_ne by (apply not_eq_sym, triad_key_not_metadata).
    apply lookup_insert_eq. }
  split; [|exact Hinit].
  intros other Hother.
  rewrite lookup_insert_ne by (apply not_eq_sym, triad_key_not_metadata).
  apply lookup_insert_ne. intros Heq. apply triad_key_inj in Heq. congruence.
Qed.

Lemma createTriad_accepts (env : Ambient) (this : t) (data0 validator0 : Js.Value) :
  isInitialized this = true → valid_data data0 → nonempty_string validator0 →
  result (createTriad env this data0 validator0) = Return (length (heap this)).
Proof.
  intros Hinit Hd Hv. unfold createTriad. rewrite Hinit. cbn [negb].
  apply valid_data_accepted in Hd. apply nonempty_string_accepted in Hv.
  rewrite Hd, Hv. reflexivity.
Qed.

Lemma hex_value_digit (n : N) : (n < 16)%N → hex_value (hex_digit n) = n.
Proof.
  intros Hn. destruct n as [|p]; [reflexivity|].
  do 4 (try destruct p as [p|p|]; try reflexivity); lia.
Qed.

Lemma Byte_to_N_inj (a b : Byte.byte) : Byte.to_N a = Byte.to_N b → a = b.
Proof.
  intros H. pose proof (Byte.of_to_N a) as Ha. pose proof (Byte.of_to_N b) as Hb.
  rewrite H in Ha. congruence.
Qed.

End IdLemmas.

Section IdBytes.

Import TriadMatrix IdSpec.

Lemma id_byte_toString_hex (buf : list Byte.byte) (i : nat) :
  id_byte (toString_hex buf) i = Byte.to_N <$> buf !! i.
Proof.
  revert i. induction buf as [|b rest IH]; intros i; [reflexivity|].
  destruct i as [|i].
  - cbn [toString_hex]. unfold id_byte. cbn [Nat.mul Nat.add String.get lookup list_lookup fmap
                                                option_fmap option_map].
    pose proof (Byte.to_N_bounded b) as Hb.
    rewrite !hex_value_digit
      by (try (apply N.mod_lt; lia); apply N.Div0.div_lt_upper_bound; lia).
    f_equal. symmetry. apply N.Div0.div_mod.
  - specialize (IH i). unfold id_byte in *.
    replace (2 * S i)%nat with (S (S (2 * i))) by lia.
    replace (S (S (2 * i)) + 1)%nat with (S (S (2 * i + 1))) by lia.
    cbn [toString_hex String.get]. exact IH.
Qed.

Lemma length_toString_hex (buf : list Byte.byte) :
  String.length (toString_hex buf) = (2 * length buf)%nat.
Proof. induction buf as [|b rest IH]; cbn [toString_hex String.length length]; lia. Qed.

(** The id [generateTriadId] returns has 32 characters and spells, byte
    for byte, the 16 bytes drawn. *)
Lemma generateTriadId_bytes (env : Ambient) :
  String.length (generateTriadId env) = 32%nat
  ∧ ∀ i, (i < 16)%nat → id_byte (generateTriadId env) i = Some (Byte.to_N (entropy env i)).
Proof.
  unfold generateTriadId, randomBytes. split.
  - rewrite length_toString_hex, length_map, length_seq. reflexivity.
  - intros i Hi. rewrite id_byte_toString_hex.
    change (map (entropy env) (seq 0 16)) with (entropy env <$> seq 0 16).
    rewrite list_lookup_fmap, lookup_seq_lt by exact Hi. reflexivity.
Qed.

Lemma generateTriadId_differs (env : Ambient) (other : string) :
  (∃ i, (i < 16)%nat ∧ id_byte other i ≠ Some (Byte.to_N (entropy env i))) →
  generateTriadId env ≠ other.
Proof.
  intros (i & Hi & Hne) Heq. apply Hne. rewrite <- Heq.
  apply generateTriadId_bytes. exact Hi.
Qed.

(** A call that succeeded succeeds again with the same arguments. *)
Lemma createTriad_again (env env' : Ambient) (this : t) (data0 validator0 : Js.Value)
    (r : ref) :
  result (createTriad env this data0 validator0) = Return r →
  result (createTriad env' (after (createTriad env this data0 validator0)) data0 validator0)
  = Return (S r).
Proof.
  intros Hret.
  destruct (createTriad_returns env this data0 validator0 r Hret)
    as (-> & _ & Hheap & _ & _ & _ & _ & Hinit').
  assert ((negb (Js.ToBoolean data0)
           || negb (bool_decide (Js.typeof data0 = "object"))
              && negb (bool_decide (Js.typeof data0 = "string"))) = false
          ∧ (negb (Js.ToBoolean validator0)
             || negb (bool_decide (Js.typeof validator0 = "string"))) = false) as [Hd Hv].
  { revert Hret. unfold createTriad.
    destruct (negb (isInitialized this)); [discriminate|].
    destruct (_ || _); [discriminate|]. destruct (_ || _); [discriminate|]. auto. }
  unfold createTriad at 1. rewrite Hinit', Hd, Hv. cbn [negb].
  cbn -[generateTriadId calculateOptimalPosition triad_key createTriad].
  rewrite Hheap, length_app. cbn [length]. f_equal. lia.
Qed.

End IdBytes.

Section IdTheorems.

Import P2PNode GossipSpec IdSpec CreateSpec.

(** What the handler of NEW_TRIAD does for an id the store has no record
    of, when the carried data and validator are acceptable. *)
Lemma NEW_TRIAD_creates (Number_toString : R → string) (env : Ambient) (this : t)
    (store : TriadMatrix.t) (ws : socket) (msg payload carriedId data validator : Js.Value)
    (peerId : string) (peer : Peer.t) :
  triadMatrix this = Some store →
  TriadMatrix.isInitialized store = true →
  peers_get (peers this) peerId = Some peer →
  Js.get msg "type" = Return (Js.Str NEW_TRIAD) →
  Js.get msg "payload" = Return payload →
  Js.get payload "id" = Return carriedId →
  Js.get payload "data" = Return data →
  Js.get payload "validator" = Return validator →
  valid_data data →
  nonempty_string validator →
  TriadMatrix.db store !! TriadMatrix.triad_key (Js.ToString Number_toString carriedId) = None →
  ∃ this' effs,
    handleMessage Number_toString env ws msg peerId this = (Return (), this', effs)
    ∧ triadMatrix this' = Some (TriadMatrix.after (TriadMatrix.createTriad env store data validator))
    ∧ TriadMatrix.result (TriadMatrix.createTriad env store data validator)
      = Return (length (TriadMatrix.heap store)).
Proof.
  intros Hstore Hinit Hpeer Htype Hpayload Hid Hdata Hvalidator Hd Hv Hnovel.
  rewrite (handleMessage_NEW_TRIAD Number_toString env ws msg peerId peer this Hpeer Htype).
  rewrite (case_NEW_TRIAD_run Number_toString env this store msg payload carriedId data
             validator peerId Hstore Hpayload Hid Hdata Hvalidator).
  unfold TriadMatrix.getTriad at 1. rewrite Hinit, Hnovel. cbn [negb from_option].
  eexists _, _. split; [reflexivity|]. split; [reflexivity|].
  apply createTriad_accepts; assumption.
Qed.

(** C7, as stated, fails: the replica can be stored under the very id the
    message carries.  [createTriad] does not look at the carried id and
    does not compare its draw with anything; when the 16 bytes it draws
    are the ones the carried id spells (here: 16 zero bytes, and a message
    that carries the id of 32 zeros, unknown to the receiver), the new
    triad is stored under the carried id. *)
Theorem NEW_TRIAD_replica_under_carried_id :
  ∃ this' store' triad effs,
    Js.get NodeExamples.new_triad_zeros "payload"
    = Return (Js.Object [("id", Js.Str "00000000000000000000000000000000");
                         ("data", Js.Str "delta");
                         ("validator", Examples.validatorX)])
    ∧ TriadMatrix.getTriad (Scenario.store_AB []) "00000000000000000000000000000000"
      = Return None
    ∧ handleMessage NodeExamples.toy_Number_toString Examples.env0 1%nat
        NodeExamples.new_triad_zeros "peer-1" NodeExamples.node0
      = (Return (), this', effs)
    ∧ triadMatrix this' = Some store'
    ∧ TriadMatrix.heap store' !! 2%nat = Some triad
    ∧ TriadMatrix.data triad = Js.Str "delta"
    ∧ TriadMatrix.id triad = "00000000000000000000000000000000"
    ∧ TriadMatrix.getTriad store' "00000000000000000000000000000000"
      = Return (Some (TriadMatrix.Triad_toJSON triad)).
Proof.
  destruct (NEW_TRIAD_creates NodeExamples.toy_Number_toString Examples.env0
              NodeExamples.node0 (Scenario.store_AB []) 1%nat NodeExamples.new_triad_zeros
              (Js.Object [("id", Js.Str "00000000000000000000000000000000");
                          ("data", Js.Str "delta");
                          ("validator", Examples.validatorX)])
              (Js.Str "00000000000000000000000000000000") (Js.Str "delta")
              Examples.validatorX "peer-1" NodeExamples.peer1
              eq_refl eq_refl eq_refl eq_refl eq_refl eq_refl eq_refl eq_refl)
    as (this' & effs & Hrun & Hstore & Hret).
  { cbn. discriminate. }
  { eexists. split; [reflexivity | discriminate]. }
  { reflexivity. }
  destruct (createTriad_returns _ _ _ _ _ Hret) as (_ & _ & Hheap & _ & _ & Hdb & _ & Hinit').
  exists this',
    (TriadMatrix.after (TriadMatrix.createTriad Examples.env0 (Scenario.store_AB [])
                          (Js.Str "delta") Examples.validatorX)),
    (new_triad Examples.env0 (Scenario.store_AB []) (Js.Str "delta") Examples.validatorX),
    effs.
  split; [reflexivity|]. split; [reflexivity|]. split; [exact Hrun|].
  split; [exact Hstore|]. split; [rewrite Hheap; reflexivity|].
  split; [reflexivity|]. split; [reflexivity|].
  unfold TriadMatrix.getTriad. rewrite Hinit'. cbn [negb]. f_equal; try exact Hdb.
Qed.

(** C7, amended.  [createTriad] takes no id from its caller: whenever it
    returns, the id of the new triad has 32 characters that spell, byte
    for byte, the 16 bytes of its own call of [crypto.randomBytes],
    whatever the data and the validator are, and it is under that id that
    the triad is indexed in memory and written to the database.
    Consequently, when a NEW_TRIAD message for an unknown id is handled,
    the replica gets the carried data and validator and an id that spells
    the receiver's draw, whatever id the message carries: as soon as the
    carried id differs from the draw in one byte, the replica is stored
    under a different id and the carried id is still unknown to the store
    afterwards.  Two draws that differ in one byte give different ids;
    and the draw is not compared with the ids in the store: when a second
    call draws the same bytes, it succeeds as well and puts a second triad
    with the same id in the matrix, while the index has a single entry for
    that id, which now refers to the second triad. *)
Theorem createTriad_ignores_carried_id (Number_toString : R → string) (env : Ambient) :
  (∀ this data validator r,
     TriadMatrix.result (TriadMatrix.createTriad env this data validator) = Return r →
     ∃ triad,
       TriadMatrix.heap (TriadMatrix.after (TriadMatrix.createTriad env this data validator))
         !! r = Some triad
       ∧ String.length (TriadMatrix.id triad) = 32%nat
       ∧ (∀ i, (i < 16)%nat →
               id_byte (TriadMatrix.id triad) i = Some (Byte.to_N (entropy env i)))
       ∧ TriadMatrix.Map_get
           (TriadMatrix.triads
              (TriadMatrix.after (TriadMatrix.createTriad env this data validator)))
           (TriadMatrix.id triad) = Some r
       ∧ TriadMatrix.db (TriadMatrix.after (TriadMatrix.createTriad env this data validator))
           !! TriadMatrix.triad_key (TriadMatrix.id triad)
         = Some (TriadMatrix.Triad_toJSON triad))
  ∧ (∀ this store ws msg payload carriedId data validator peerId peer,
       triadMatrix this = Some store →
       TriadMatrix.isInitialized store = true →
       peers_get (peers this) peerId = Some peer →
       Js.get msg "type" = Return (Js.Str NEW_TRIAD) →
       Js.get msg "payload" = Return payload →
       Js.get payload "id" = Return carriedId →
       Js.get payload "data" = Return data →
       Js.get payload "validator" = Return validator →
       valid_data data →
       nonempty_string validator →
       TriadMatrix.db store
         !! TriadMatrix.triad_key (Js.ToString Number_toString carriedId) = None →
       ∃ this' store' r triad effs,
         handleMessage Number_toString env ws msg peerId this = (Return (), this', effs)
         ∧ triadMatrix this' = Some store'
         ∧ TriadMatrix.heap store !! r = None
         ∧ TriadMatrix.heap store' !! r = Some triad
         ∧ TriadMatrix.data triad = data
         ∧ TriadMatrix.validator triad = validator
         ∧ (∀ i, (i < 16)%nat →
                 id_byte (TriadMatrix.id triad) i = Some (Byte.to_N (entropy env i)))
         ∧ TriadMatrix.Map_get (TriadMatrix.triads store') (TriadMatrix.id triad) = Some r
         ∧ TriadMatrix.db store' !! TriadMatrix.triad_key (TriadMatrix.id triad)
           = Some (TriadMatrix.Triad_toJSON triad)
         ∧ ((∃ i, (i < 16)%nat
                  ∧ id_byte (Js.ToString Number_toString carriedId) i
                    ≠ Some (Byte.to_N (entropy env i))) →
            TriadMatrix.id triad ≠ Js.ToString Number_toString carriedId
            ∧ TriadMatrix.getTriad store' (Js.ToString Number_toString carriedId)
              = Return None))
  ∧ (∀ env', (∃ i, (i < 16)%nat ∧ entropy env i ≠ entropy env' i) →
             TriadMatrix.generateTriadId env ≠ TriadMatrix.generateTriadId env')
  ∧ (∀ this data validator r,
       TriadMatrix.result (TriadMatrix.createTriad env this data validator) = Return r →
       ∃ again triad1 triad2,
         again = TriadMatrix.createTriad env
                   (TriadMatrix.after (TriadMatrix.createTriad env this data validator))
                   data validator
         ∧ TriadMatrix.result again = Return (S r)
         ∧ TriadMatrix.matrix (TriadMatrix.after again) = TriadMatrix.matrix this ++ [r; S r]
         ∧ TriadMatrix.heap (TriadMatrix.after again) !! r = Some triad1
         ∧ TriadMatrix.heap (TriadMatrix.after again) !! S r = Some triad2
         ∧ TriadMatrix.id triad1 = TriadMatrix.id triad2
         ∧ TriadMatrix.Map_get (TriadMatrix.triads (TriadMatrix.after again))
                               (TriadMatrix.id triad1) = Some (S r)).
Proof.
  split; [|split; [|split]]; cycle 3.
  - intros this data validator r Hret.
    pose proof (createTriad_again env env this data validator r Hret) as Hret2.
    destruct (createTriad_returns env this data validator r Hret)
      as (-> & _ & Hheap & Hmatrix & _ & _ & _ & _).
    destruct (createTriad_returns env _ data validator _ Hret2)
      as (_ & _ & Hheap2 & Hmatrix2 & Htriads2 & _ & _ & _).
    eexists _, (new_triad env this data validator),
      (new_triad env (TriadMatrix.after (TriadMatrix.createTriad env this data validator))
                 data validator).
    split; [reflexivity|]. split; [exact Hret2|].
    rewrite Hmatrix2, Hmatrix, Hheap2, Hheap, Htriads2.
    split; [rewrite <- app_assoc; reflexivity|].
    split.
    { rewrite lookup_app_l by (rewrite length_app; cbn; lia).
      rewrite lookup_app_r by lia. rewrite Nat.sub_diag. reflexivity. }
    split.
    { rewrite lookup_app_r by (rewrite length_app; cbn; lia).
      rewrite length_app. cbn [length].
      replace (S (length (TriadMatrix.heap this))
               - (length (TriadMatrix.heap this) + 1))%nat with 0%nat by lia.
      reflexivity. }
    split; [reflexivity|]. apply Map_get_set.
  - intros this data validator r Hret.
    destruct (createTriad_returns env this data validator r Hret)
      as (-> & _ & Hheap & _ & Htriads & Hdb & _).
    exists (new_triad env this data validator). rewrite Hheap, Htriads.
    split; [rewrite lookup_app_r by lia; rewrite Nat.sub_diag; reflexivity|].
    split; [apply generateTriadId_bytes|]. split; [apply generateTriadId_bytes|].
    split; [apply Map_get_set | exact Hdb].
  - intros this store ws msg payload carriedId data validator peerId peer
           Hstore Hinit Hpeer Htype Hpayload Hid Hdata Hvalidator Hd Hv Hnovel.
    destruct (NEW_TRIAD_creates Number_toString env this store ws msg payload carriedId
                data validator peerId peer Hstore Hinit Hpeer Htype Hpayload Hid Hdata
                Hvalidator Hd Hv Hnovel) as (this' & effs & Hrun & Hstore' & Hret).
    destruct (createTriad_returns env store data validator _ Hret)
      as (_ & _ & Hheap & _ & Htriads & Hdb & Hother & Hinit').
    exists this', (TriadMatrix.after (TriadMatrix.createTriad env store data validator)),
      (length (TriadMatrix.heap store)), (new_triad env store data validator), effs.
    split; [exact Hrun|]. split; [exact Hstore'|].
    split; [apply lookup_ge_None; lia|]. rewrite Hheap, Htriads. split.
    { rewrite lookup_app_r by lia. rewrite Nat.sub_diag. reflexivity. }
    split; [reflexivity|]. split; [reflexivity|].
    split; [apply generateTriadId_bytes|].
    split; [apply Map_get_set|]. split; [exact Hdb|].
    intros Hdiffers. apply generateTriadId_differs in Hdiffers.
    split; [exact Hdiffers|].
    unfold TriadMatrix.getTriad. rewrite Hinit'. cbn [negb].
    rewrite Hother by (apply not_eq_sym; exact Hdiffers). rewrite Hnovel. reflexivity.
  - intros env' (i & Hi & Hne) Heq. apply Hne.
    pose proof (proj2 (generateTriadId_bytes env) i Hi) as H1.
    pose proof (proj2 (generateTriadId_bytes env') i Hi) as H2.
    rewrite Heq, H2 in H1. injection H1 as H1. symmetry. apply Byte_to_N_inj, H1.
Qed.

End IdTheorems.

Section IdWitness.

Import P2PNode GossipSpec IdSpec CreateSpec Examples Scenario NodeExamples.

(** The message carries the id of 32 f's and the receiver draws 16 zero
    bytes: the replica is stored under the id of 32 zeros, and the carried
    id stays unknown. *)
Lemma createTriad_ignores_carried_id_witness :
  ∃ this' store' r triad effs,
    handleMessage toy_Number_toString env0 1%nat new_triad_unknown "peer-1" node0
    = (Return (), this', effs)
    ∧ triadMatrix this' = Some store'
    ∧ TriadMatrix.heap store' !! r = Some triad
    ∧ id_byte (TriadMatrix.id triad) 0 = Some 0%N
    ∧ TriadMatrix.id triad ≠ "ffffffffffffffffffffffffffffffff"
    ∧ TriadMatrix.getTriad store' "ffffffffffffffffffffffffffffffff" = Return None.
Proof.
  destruct (proj1 (proj2 (createTriad_ignores_carried_id toy_Number_toString env0))
              node0 (store_AB []) 1%nat new_triad_unknown _ _ _ _ "peer-1" peer1
              eq_refl eq_refl eq_refl eq_refl eq_refl eq_refl eq_refl eq_refl)
    as (this' & store' & r & triad & effs & Hrun & Hstore & _ & Hheap & _ & _ & Hbytes
        & _ & _ & Hdiff).
  - cbn. discriminate.
  - eexists. split; [reflexivity | discriminate].
  - reflexivity.
  - destruct Hdiff as [Hne Hunknown].
    { exists 0%nat. split; [lia|]. cbn. discriminate. }
    exists this', store', r, triad, effs.
    split; [exact Hrun|]. split; [exact Hstore|]. split; [exact Hheap|].
    split; [exact (Hbytes 0%nat ltac:(lia))|]. split; [exact Hne | exact Hunknown].
Defined.

End IdWitness.

Section ValidatedGossip.

Import P2PNode GossipSpec StoreOps IdSpec Examples Scenario NodeExamples.

(** The two store methods that change a triad write the record they have
    in memory before they emit: the effects are the write(s) followed by
    the event, and afterwards the database holds the JSON of the object in
    memory. *)
Lemma store_methods_persist_before_emit (env : Ambient) (this : TriadMatrix.t) :
  (∀ data validator r,
     TriadMatrix.result (TriadMatrix.createTriad env this data validator) = Return r →
     ∃ triad saved,
       TriadMatrix.effects (TriadMatrix.createTriad env this data validator)
       = TriadMatrix.Put (TriadMatrix.triad_key (TriadMatrix.id triad))
                         (TriadMatrix.Triad_toJSON triad)
         :: TriadMatrix.Put "matrix:state_metadata" saved
         :: [TriadMatrix.Emit (TriadMatrix.triadCreated r)]
       ∧ TriadMatrix.heap (TriadMatrix.after (TriadMatrix.createTriad env this data validator))
           !! r = Some triad
       ∧ TriadMatrix.db (TriadMatrix.after (TriadMatrix.createTriad env this data validator))
           !! TriadMatrix.triad_key (TriadMatrix.id triad)
         = Some (TriadMatrix.Triad_toJSON triad))
  ∧ (∀ key validatorId r triad,
       TriadMatrix.isInitialized this = true →
       TriadMatrix.triads_get this (Js.Str key) = Some (r, triad) →
       TriadMatrix.validated triad = false →
       ∃ triad',
         TriadMatrix.effects (TriadMatrix.validateTriad this (Js.Str key) validatorId)
         = [TriadMatrix.Put (TriadMatrix.triad_key key) (TriadMatrix.Triad_toJSON triad');
            TriadMatrix.Emit (TriadMatrix.triadValidated r)]
         ∧ TriadMatrix.heap
             (TriadMatrix.after (TriadMatrix.validateTriad this (Js.Str key) validatorId))
             !! r = Some triad'
         ∧ TriadMatrix.db
             (TriadMatrix.after (TriadMatrix.validateTriad this (Js.Str key) validatorId))
             !! TriadMatrix.triad_key key
           = Some (TriadMatrix.Triad_toJSON triad')).
Proof.
  split.
  - intros data validator r Hret.
    destruct (createTriad_returns env this data validator r Hret)
      as (-> & Hinit & Hheap & _ & _ & Hdb & _).
    exists (new_triad env this data validator). eexists. split; [|split].
    + revert Hret. unfold TriadMatrix.createTriad. rewrite Hinit. cbn [negb].
      destruct (_ || _); [discriminate|]. destruct (_ || _); [discriminate|].
      intros _. reflexivity.
    + rewrite Hheap, lookup_app_r by lia. rewrite Nat.sub_diag. reflexivity.
    + exact Hdb.
  - intros key validatorId r triad Hinit Hget Hpending.
    exists (rescored this triad validatorId).
    rewrite (validateTriad_pending_outcome this key validatorId r triad) by assumption.
    destruct (triads_get_heap _ _ _ _ Hget) as [Hr _].
    cbn [TriadMatrix.effects TriadMatrix.after TriadMatrix.heap TriadMatrix.db
         TriadMatrix.set_heap TriadMatrix.set_db].
    split; [reflexivity|]. split; [|apply lookup_insert_eq].
    apply list_lookup_insert_eq. eapply lookup_lt_Some. exact Hr.
Qed.

Lemma handleMessage_TRIAD_VALIDATED (Number_toString : R → string) (env : Ambient)
    (ws : socket) (msg : Js.Value) (peerId : string) (peer : Peer.t) (this : t) :
  peers_get (peers this) peerId = Some peer →
  Js.get msg "type" = Return (Js.Str TRIAD_VALIDATED) →
  handleMessage Number_toString env ws msg peerId this
  = case_TRIAD_VALIDATED Number_toString msg peerId this.
Proof.
  intros Hpeer Htype.
  rewrite (handleMessage_dispatch Number_toString env ws msg _ peerId peer this Hpeer Htype).
  reflexivity.
Qed.

(** C5 fails on the TRIAD_VALIDATED path.  Node [node0] holds triad A,
    not yet validated, in memory and in the database.  A
    TRIAD_VALIDATED message for A arrives from peer 1.  The handler passes
    it on to peer 2 and writes the merged record to the database, but the
    triad in memory is not touched: afterwards the durable record says
    validated = true, consensus = 0.9 while the store's own triad for the
    same id still says validated = false, consensus = 0. *)
Theorem TRIAD_VALIDATED_leaves_memory_stale :
  ∃ this' store',
    handleMessage toy_Number_toString env0 1%nat triad_validated_A "peer-1" node0
    = (Return (), this',
       [Send 2%nat triad_validated_A;
        Store (TriadMatrix.Put (TriadMatrix.triad_key idA)
                               (TriadMatrix.Triad_toJSON triadA_remote))])
    ∧ triadMatrix this' = Some store'
    ∧ TriadMatrix.db store' !! TriadMatrix.triad_key idA
      = Some (TriadMatrix.Triad_toJSON triadA_remote)
    ∧ TriadMatrix.triads_get store' (Js.Str idA) = Some (0%nat, triadA)
    ∧ TriadMatrix.validated triadA = false
    ∧ TriadMatrix.validated triadA_remote = true
    ∧ TriadMatrix.Triad_toJSON triadA ≠ TriadMatrix.Triad_toJSON triadA_remote.
Proof.
  eexists _, _. split.
  { rewrite (handleMessage_TRIAD_VALIDATED toy_Number_toString env0 1%nat triad_validated_A
               "peer-1" peer1 node0 eq_refl eq_refl).
    unfold case_TRIAD_VALIDATED.
    rewrite bind_get_this.
    change (triadMatrix node0) with (Some (store_AB [])). cbv iota.
    change (Js.get triad_validated_A "payload")
      with (Return (TriadMatrix.Triad_toJSON triadA_remote)).
    rewrite bind_lift_Return.
    change (Js.ToBoolean (TriadMatrix.Triad_toJSON triadA_remote)) with true. cbv iota.
    change (Js.get (TriadMatrix.Triad_toJSON triadA_remote) "id") with (Return (Js.Str idA)).
    rewrite bind_lift_Return.
    change (Js.ToBoolean (Js.Str idA)) with true. cbv iota.
    rewrite (bind_run _ _ _ _ () _ (broadcast_run _ _ _)).
    change (TriadMatrix.getTriad (store_AB []) (Js.ToString toy_Number_toString (Js.Str idA)))
      with (Return (TriadMatrix.db (store_AB []) !! TriadMatrix.triad_key idA)).
    replace (TriadMatrix.db (store_AB []) !! TriadMatrix.triad_key idA)
      with (Some (TriadMatrix.Triad_toJSON triadA))
      by (symmetry; apply lookup_insert_eq).
    cbv iota.
    change (Js.ToBoolean (TriadMatrix.Triad_toJSON triadA)) with true. cbv iota.
    change (Js.get (TriadMatrix.Triad_toJSON triadA) "validated")
      with (Return (Js.Bool false)).
    rewrite bind_lift_Return.
    change (Js.get (TriadMatrix.Triad_toJSON triadA_remote) "validated")
      with (Return (Js.Bool true)).
    rewrite bind_lift_Return. cbn [Js.ToBoolean negb andb].
    change (Js.assign_value (TriadMatrix.Triad_toJSON triadA)
                            (TriadMatrix.Triad_toJSON triadA_remote))
      with (TriadMatrix.Triad_toJSON triadA_remote).
    change (Js.get (TriadMatrix.Triad_toJSON triadA_remote) "id") with (Return (Js.Str idA)).
    rewrite bind_lift_Return.
    unfold store_db_put. rewrite bind_get_this.
    change (triadMatrix node0) with (Some (store_AB [])). cbv iota.
    rewrite bind_put_this.
    change (broadcast_targets node0 (Some "peer-1")) with [2%nat].
    reflexivity. }
  split; [reflexivity|].
  cbn [TriadMatrix.db TriadMatrix.set_db].
  split; [apply lookup_insert_eq|]. split; [reflexivity|].
  split; [reflexivity|]. split; [reflexivity|].
  intros Heq. discriminate Heq.
Qed.

End ValidatedGossip.

Section DurableMonotonicity.

Import P2PNode GossipSpec StoreOps Examples Scenario NodeExamples RevertScenario.
Open Scope R_scope.

Lemma TRIAD_VALIDATED_merge_A :
  handleMessage toy_Number_toString env0 1%nat triad_validated_A "peer-1" node_A
  = (Return (), set_triadMatrix (Some store_A_merged) node_A,
     [Send 2%nat triad_validated_A;
      Store (TriadMatrix.Put (TriadMatrix.triad_key idA)
                             (TriadMatrix.Triad_toJSON triadA_remote))]).
Proof.
  rewrite (handleMessage_TRIAD_VALIDATED toy_Number_toString env0 1%nat triad_validated_A
             "peer-1" peer1 node_A eq_refl eq_refl).
  unfold case_TRIAD_VALIDATED.
  rewrite bind_get_this.
  change (triadMatrix node_A) with (Some store_A). cbv iota.
  change (Js.get triad_validated_A "payload")
    with (Return (TriadMatrix.Triad_toJSON triadA_remote)).
  rewrite bind_lift_Return.
  change (Js.ToBoolean (TriadMatrix.Triad_toJSON triadA_remote)) with true. cbv iota.
  change (Js.get (TriadMatrix.Triad_toJSON triadA_remote) "id") with (Return (Js.Str idA)).
  rewrite bind_lift_Return.
  change (Js.ToBoolean (Js.Str idA)) with true. cbv iota.
  rewrite (bind_run _ _ _ _ () _ (broadcast_run _ _ _)).
  change (TriadMatrix.getTriad store_A (Js.ToString toy_Number_toString (Js.Str idA)))
    with (Return (TriadMatrix.db store_A !! TriadMatrix.triad_key idA)).
  replace (TriadMatrix.db store_A !! TriadMatrix.triad_key idA)
    with (Some (TriadMatrix.Triad_toJSON triadA))
    by (symmetry; apply lookup_singleton_eq).
  cbv iota.
  change (Js.ToBoolean (TriadMatrix.Triad_toJSON triadA)) with true. cbv iota.
  change (Js.get (TriadMatrix.Triad_toJSON triadA) "validated")
    with (Return (Js.Bool false)).
  rewrite bind_lift_Return.
  change (Js.get (TriadMatrix.Triad_toJSON triadA_remote) "validated")
    with (Return (Js.Bool true)).
  rewrite bind_lift_Return. cbn [Js.ToBoolean negb andb].
  change (Js.assign_value (TriadMatrix.Triad_toJSON triadA)
                          (TriadMatrix.Triad_toJSON triadA_remote))
    with (TriadMatrix.Triad_toJSON triadA_remote).
  change (Js.get (TriadMatrix.Triad_toJSON triadA_remote) "id") with (Return (Js.Str idA)).
  rewrite bind_lift_Return.
  unfold store_db_put. rewrite bind_get_this.
  change (triadMatrix node_A) with (Some store_A). cbv iota.
  rewrite bind_put_this.
  change (broadcast_targets node_A (Some "peer-1")) with [2%nat].
  reflexivity.
Qed.

Lemma rescored_A_alone :
  rescored store_A_merged triadA validatorX = triadA_retried.
Proof.
  unfold rescored, TriadMatrix.calculateConsensus, TriadMatrix.getTriadConnections.
  change (TriadMatrix.matrix_objects store_A_merged) with [triadA].
  cbn [List.filter].
  rewrite (bool_decide_eq_true_2 (TriadMatrix.id triadA = TriadMatrix.id triadA))
    by reflexivity.
  cbn [length]. rewrite (bool_decide_eq_true_2 (0%nat = 0%nat)) by reflexivity.
  rewrite bool_decide_eq_false_2 by (cbn; lra).
  reflexivity.
Qed.

(** C2 fails on monotonicity of the durable record.  Node [node_A] holds
    triad A alone, pending.  A TRIAD_VALIDATED message for A arrives and
    the handler writes the validated record to the database (the triad in
    memory stays pending).  A later [validateTriad] of A finds the triad
    in memory pending, scores it (it has no connections, so the score is
    the constant 0, below the threshold 0.67), and writes the triad in
    memory over the durable record: the record of A, which [getTriad]
    returned with validated = true before the call, has validated = false
    after it. *)
Theorem validateTriad_reverts_durable_record :
  handleMessage toy_Number_toString env0 1%nat triad_validated_A "peer-1" node_A
  = (Return (), set_triadMatrix (Some store_A_merged) node_A,
     [Send 2%nat triad_validated_A;
      Store (TriadMatrix.Put (TriadMatrix.triad_key idA)
                             (TriadMatrix.Triad_toJSON triadA_remote))])
  ∧ TriadMatrix.getTriad store_A_merged idA
    = Return (Some (TriadMatrix.Triad_toJSON triadA_remote))
  ∧ Js.get (TriadMatrix.Triad_toJSON triadA_remote) "validated" = Return (Js.Bool true)
  ∧ TriadMatrix.calculateConsensus store_A_merged triadA validatorX = 0
  ∧ TriadMatrix.result (TriadMatrix.validateTriad store_A_merged (Js.Str idA) validatorX)
    = Return 0%nat
  ∧ TriadMatrix.effects (TriadMatrix.validateTriad store_A_merged (Js.Str idA) validatorX)
    = [TriadMatrix.Put (TriadMatrix.triad_key idA) (TriadMatrix.Triad_toJSON triadA_retried);
       TriadMatrix.Emit (TriadMatrix.triadValidated 0%nat)]
  ∧ TriadMatrix.getTriad
      (TriadMatrix.after (TriadMatrix.validateTriad store_A_merged (Js.Str idA) validatorX))
      idA
    = Return (Some (TriadMatrix.Triad_toJSON triadA_retried))
  ∧ Js.get (TriadMatrix.Triad_toJSON triadA_retried) "validated" = Return (Js.Bool false).
Proof.
  split; [exact TRIAD_VALIDATED_merge_A|].
  split.
  { unfold TriadMatrix.getTriad. cbn [TriadMatrix.isInitialized store_A_merged
      TriadMatrix.set_db store_A negb TriadMatrix.db].
    f_equal; try apply lookup_insert_eq. }
  split; [reflexivity|].
  split.
  { pose proof rescored_A_alone as H. apply (f_equal TriadMatrix.consensus) in H. exact H. }
  rewrite (validateTriad_pending_outcome store_A_merged idA validatorX 0%nat triadA)
    by reflexivity.
  rewrite rescored_A_alone.
  cbn [TriadMatrix.result TriadMatrix.effects TriadMatrix.after].
  split; [reflexivity|]. split; [reflexivity|].
  split; [|reflexivity].
  unfold TriadMatrix.getTriad.
  cbn [TriadMatrix.isInitialized TriadMatrix.set_db TriadMatrix.set_heap store_A_merged
       store_A negb TriadMatrix.db].
  f_equal; try apply lookup_insert_eq.
Qed.

End DurableMonotonicity.

(** * Further properties of the triad store *)

Section StoreFrames.

Import TriadMatrix StoreOps StoreInvariants.
Open Scope R_scope.

(** How [createTriad] can end. *)
Lemma createTriad_cases (env : Ambient) (this : t) (data0 validator0 : Js.Value) :
  (∃ e, createTriad env this data0 validator0 = throw this e)
  ∨ (∃ r, result (createTriad env this data0 validator0) = Return r).
Proof.
  unfold createTriad.
  destruct (negb (isInitialized this)); [left; eauto|].
  destruct (_ || _); [left; eauto|]. destruct (_ || _); [left; eauto|].
  right. eexists. reflexivity.
Qed.

(** How [validateTriad] can end. *)
Lemma validateTriad_cases (this : t) (triadId validatorId : Js.Value) :
  (∃ e, validateTriad this triadId validatorId = throw this e)
  ∨ (∃ r, validateTriad this triadId validatorId
          = {| result := Return r; after := this; effects := [] |})
  ∨ (∃ key r triad,
       triadId = Js.Str key
       ∧ isInitialized this = true
       ∧ triads_get this (Js.Str key) = Some (r, triad)
       ∧ validated triad = false
       ∧ validateTriad this triadId validatorId
         = {| result := Return r;
              after := set_db (<[triad_key key := Triad_toJSON (rescored this triad validatorId)]>
                                 (db this))
                         (set_heap (<[r := rescored this triad validatorId]> (heap this)) this);
              effects := [Put (triad_key key) (Triad_toJSON (rescored this triad validatorId));
                          Emit (triadValidated r)] |}).
Proof.
  destruct (isInitialized this) eqn:Hinit.
  2:{ left. exists NotInitialized. unfold validateTriad. rewrite Hinit. reflexivity. }
  destruct (triads_get this triadId) as [[r triad]|] eqn:Hget.
  2:{ left. exists NotFound. unfold validateTriad. rewrite Hinit, Hget. reflexivity. }
  destruct (validated triad) eqn:Hval.
  - right. left. exists r. apply validateTriad_validated_outcome with triad; assumption.
  - right. right. destruct (triads_get_heap _ _ _ _ Hget) as [_ (key & -> & _)].
    exists key, r, triad. repeat split; try assumption.
    apply validateTriad_pending_outcome; assumption.
Qed.

Lemma addValidator_cases (env : Ambient) (this : t) (validatorId : Js.Value) :
  (∃ e, addValidator env this validatorId = throw this e)
  ∨ addValidator env this validatorId
    = {| result := Return false; after := this; effects := [] |}
  ∨ (∃ s, validatorId = Js.Str s ∧ s ≠ "" ∧ (s ∉ validators this)
          ∧ addValidator env this validatorId
            = {| result := Return true;
                 after := (saveMatrixState env 0
                             (set_validators (validators this ++ [s]) this)).1;
                 effects := (saveMatrixState env 0
                               (set_validators (validators this ++ [s]) this)).2 |}).
Proof.
  unfold addValidator.
  destruct (negb (Js.ToBoolean validatorId) || _) eqn:Hbad; [left; eauto|].
  apply nonempty_string_accepted in Hbad. destruct Hbad as (s & -> & Hs).
  cbn [Set_has]. unfold Set_add. cbn [Set_has].
  case_bool_decide as Hin; [right; left; reflexivity|].
  right. right. exists s.
  split; [reflexivity|]. split; [exact Hs|]. split; [exact Hin|].
  cbn [Js.as_string]. rewrite (bool_decide_eq_false_2 _ Hin). reflexivity.
Qed.

Lemma operation_parameters (s s' : t) :
  operation s s' →
  dimensions s' = dimensions s ∧ complexity s' = complexity s
  ∧ consensusThreshold s' = consensusThreshold s.
Proof.
  intros Hop. destruct Hop as [env this|env this d v|this tid vid|env this v].
  - repeat split.
  - destruct (createTriad_cases env this d v) as [[e ->]|[r Hret]]; [repeat split|].
    revert Hret. unfold createTriad.
    destruct (negb (isInitialized this)); [discriminate|].
    destruct (_ || _); [discriminate|]. destruct (_ || _); [discriminate|].
    intros _. repeat split.
  - destruct (validateTriad_cases this tid vid)
      as [[e ->]|[[r ->]|(key & r & triad & _ & _ & _ & _ & ->)]]; repeat split.
  - destruct (addValidator_cases env this v) as [[e ->]|[->|(s0 & _ & _ & _ & ->)]];
      repeat split.
Qed.

Lemma or_default_nonzero (o : option R) (d : R) : d ≠ 0 → or_default o d ≠ 0.
Proof.
  intros Hd. unfold or_default. destruct o as [v|]; [|exact Hd].
  case_bool_decide; assumption.
Qed.

Lemma method_call_operation (s s' : t) : method_call s s' → operation s s'.
Proof. intros [env this d v|this tid vid|env this v]; constructor. Qed.

(** No call of [createTriad], [validateTriad] or [addValidator], whatever
    its arguments and whether it succeeds or fails, changes dimensions,
    complexity or consensusThreshold; and the values the constructor gives
    them are never 0, because an option of 0 is replaced by the default
    3, 4 or 0.67. *)
Theorem parameters_fixed_and_nonzero (s s' : t) :
  rtc method_call s s' →
  (dimensions s' = dimensions s ∧ complexity s' = complexity s
   ∧ consensusThreshold s' = consensusThreshold s)
  ∧ (∀ options,
       dimensions (constructor options) ≠ 0 ∧ complexity (constructor options) ≠ 0
       ∧ consensusThreshold (constructor options) ≠ 0).
Proof.
  intros Hops. split.
  - induction Hops as [|s1 s2 s3 Hop _ IH]; [repeat split|].
    destruct (operation_parameters _ _ (method_call_operation _ _ Hop)) as (H1 & H2 & H3).
    destruct IH as (I1 & I2 & I3). rewrite I1, I2, I3. auto.
  - intros options. cbn [constructor dimensions complexity consensusThreshold].
    repeat split; apply or_default_nonzero; lra.
Qed.

Lemma parameters_fixed_and_nonzero_witness :
  dimensions (after (validateTriad
                       (after (createTriad Examples.env0 (Scenario.store_AB [])
                                 (Js.Str "hello") Examples.validatorX))
                       (Js.Str Scenario.idA) Examples.validatorX)) = 3
  ∧ complexity (after (validateTriad
                         (after (createTriad Examples.env0 (Scenario.store_AB [])
                                   (Js.Str "hello") Examples.validatorX))
                         (Js.Str Scenario.idA) Examples.validatorX)) = 4.
Proof.
  destruct (proj1 (parameters_fixed_and_nonzero (Scenario.store_AB [])
                     (after (validateTriad
                               (after (createTriad Examples.env0 (Scenario.store_AB [])
                                         (Js.Str "hello") Examples.validatorX))
                               (Js.Str Scenario.idA) Examples.validatorX))
                     ltac:(eapply rtc_l; [apply op_createTriad'|];
                           apply rtc_once; apply op_validateTriad')))
    as (Hd & Hc & _).
  split; [exact Hd | exact Hc].
Defined.

End StoreFrames.

Section StoreConsistency.

Import TriadMatrix StoreOps StoreInvariants.

Lemma Map_get_set_ne (m : list (string * ref)) (k k' : string) (v : ref) :
  k ≠ k' → Map_get (Map_set m k v) k' = Map_get m k'.
Proof.
  intros Hne. induction m as [|[k0 v0] m IH]; cbn [Map_set Map_get].
  - rewrite bool_decide_eq_false_2 by exact Hne. reflexivity.
  - case_bool_decide as E; cbn [Map_get].
    + subst k0. rewrite !bool_decide_eq_false_2 by exact Hne. reflexivity.
    + rewrite IH. reflexivity.
Qed.

Lemma metadata_not_triad_key (a : string) : "matrix:state_metadata" ≠ triad_key a.
Proof. apply not_eq_sym, triad_key_not_metadata. Qed.

Lemma addValidator_frame (env : Ambient) (this : t) (v : Js.Value) :
  heap (after (addValidator env this v)) = heap this
  ∧ triads (after (addValidator env this v)) = triads this
  ∧ matrix (after (addValidator env this v)) = matrix this
  ∧ isInitialized (after (addValidator env this v)) = isInitialized this
  ∧ ∀ key, db (after (addValidator env this v)) !! triad_key key = db this !! triad_key key.
Proof.
  destruct (addValidator_cases env this v) as [[e ->]|[->|(s0 & _ & _ & _ & ->)]];
    repeat split.
  intros key. cbn. apply lookup_insert_ne, metadata_not_triad_key.
Qed.

Lemma operation_index_consistent (s s' : t) :
  operation s s' → index_consistent s → index_consistent s'.
Proof.
  intros Hop Hinv. destruct Hop as [env this|env this d v|this tid vid|env this v].
  - intros key r Hget. destruct (Hinv key r Hget) as (triad & Hh & Hid & Hdb).
    exists triad. repeat split; try assumption.
    cbn. rewrite lookup_insert_ne by apply metadata_not_triad_key. exact Hdb.
  - destruct (createTriad_cases env this d v) as [[e ->]|[r0 Hret]]; [exact Hinv|].
    destruct (createTriad_returns env this d v r0 Hret)
      as (-> & _ & Hheap & _ & Htriads & Hdb0 & Hother & _).
    intros key r. rewrite Htriads, Hheap.
    destruct (decide (generateTriadId env = key)) as [<-|Hne].
    + rewrite Map_get_set. intros [= <-].
      exists (IdSpec.new_triad env this d v).
      split; [|split; [reflexivity | exact Hdb0]].
      rewrite lookup_app_r by lia. rewrite Nat.sub_diag. reflexivity.
    + rewrite Map_get_set_ne by exact Hne. intros Hget.
      destruct (Hinv key r Hget) as (triad & Hh & Hid & Hdb).
      exists triad. split; [apply lookup_app_l_Some; exact Hh|]. split; [exact Hid|].
      rewrite Hother by (apply not_eq_sym; exact Hne). exact Hdb.
  - destruct (validateTriad_cases this tid vid)
      as [[e ->]|[[r0 ->]|(key0 & r0 & triad0 & _ & _ & Hget0 & _ & ->)]];
      [exact Hinv | exact Hinv |].
    destruct (triads_get_heap _ _ _ _ Hget0) as [Hh0 (k & [= <-] & Hm0)].
    destruct (Hinv key0 r0 Hm0) as (t0 & Hh0' & Hid0 & _).
    assert (t0 = triad0) as -> by congruence.
    intros key r Hget. cbn [after triads heap db set_db set_heap] in *.
    destruct (Hinv key r Hget) as (triad & Hh & Hid & Hdb).
    destruct (decide (r = r0)) as [->|Hne].
    + assert (triad = triad0) as -> by congruence.
      assert (key = key0) as -> by congruence.
      exists (rescored this triad0 vid).
      split; [apply list_lookup_insert_eq; eapply lookup_lt_Some; exact Hh0|].
      split; [exact Hid0 | apply lookup_insert_eq].
    + exists triad. split.
      { rewrite list_lookup_insert_ne by (apply not_eq_sym; exact Hne). exact Hh. }
      split; [exact Hid|].
      rewrite lookup_insert_ne; [exact Hdb|].
      intros Heq. apply triad_key_inj in Heq. subst key. congruence.
  - destruct (addValidator_frame env this v) as (Hheap & Htriads & _ & _ & Hdb).
    intros key r. rewrite Htriads, Hheap, Hdb. apply Hinv.
Qed.

Lemma operation_records_indexed (s s' : t) :
  operation s s' → records_indexed s → records_indexed s'.
Proof.
  intros Hop Hinv. destruct Hop as [env this|env this d v|this tid vid|env this v].
  - intros key val. cbn. rewrite lookup_insert_ne by apply metadata_not_triad_key.
    apply Hinv.
  - destruct (createTriad_cases env this d v) as [[e ->]|[r0 Hret]]; [exact Hinv|].
    destruct (createTriad_returns env this d v r0 Hret)
      as (-> & _ & _ & _ & Htriads & _ & Hother & _).
    intros key val. rewrite Htriads.
    destruct (decide (generateTriadId env = key)) as [<-|Hne].
    + intros _. rewrite Map_get_set. eauto.
    + rewrite Hother by (apply not_eq_sym; exact Hne).
      rewrite Map_get_set_ne by exact Hne. apply Hinv.
  - destruct (validateTriad_cases this tid vid)
      as [[e ->]|[[r0 ->]|(key0 & r0 & triad0 & _ & _ & Hget0 & _ & ->)]];
      [exact Hinv | exact Hinv |].
    destruct (triads_get_heap _ _ _ _ Hget0) as [_ (k & [= <-] & Hm0)].
    intros key val. cbn [after triads db set_db set_heap].
    destruct (decide (key0 = key)) as [<-|Hne].
    + intros _. rewrite Hm0. eauto.
    + rewrite lookup_insert_ne; [apply Hinv|].
      intros Heq. apply triad_key_inj in Heq. contradiction.
  - destruct (addValidator_frame env this v) as (_ & Htriads & _ & _ & Hdb).
    intros key val. rewrite Htriads, Hdb. apply Hinv.
Qed.

(** The positive side of the index/database agreement: the methods of the
    store keep [this.triads] and the triad records of the database in
    step.  After any sequence of store operations on a store in which they
    agree (an empty one, for instance), every indexed triad has its own
    JSON as its record and every record is indexed; so, once the store is
    initialised, [getTriad] returns exactly the JSON of the triad that
    [this.triads] holds for the id, and null when it holds none. *)
Theorem store_operations_keep_index_and_records (s s' : t) :
  rtc operation s s' →
  index_consistent s →
  records_indexed s →
  index_consistent s'
  ∧ records_indexed s'
  ∧ (isInitialized s' = true →
     ∀ key, getTriad s' key
            = Return (Triad_toJSON <$> (snd <$> triads_get s' (Js.Str key)))).
Proof.
  intros Hops Hidx Hrec.
  assert (index_consistent s' ∧ records_indexed s') as [Hidx' Hrec'].
  { induction Hops as [|s1 s2 s3 Hop _ IH]; [auto|].
    apply IH; [eapply operation_index_consistent | eapply operation_records_indexed];
      eassumption. }
  split; [exact Hidx'|]. split; [exact Hrec'|].
  intros Hinit key. unfold getTriad, triads_get. rewrite Hinit. cbn [negb].
  destruct (Map_get (triads s') key) as [r|] eqn:Hm; cbn.
  - destruct (Hidx' key r Hm) as (triad & -> & _ & ->). reflexivity.
  - destruct (db s' !! triad_key key) as [v|] eqn:Hdb; [|reflexivity].
    destruct (Hrec' key v Hdb) as [r Hr]. congruence.
Qed.

Lemma store_operations_keep_index_and_records_witness :
  getTriad (after (createTriad Examples.env0 Examples.store0 (Js.Str "hello")
                     Examples.validatorX)) "00000000000000000000000000000000"
  = Return (Triad_toJSON <$>
              (snd <$> triads_get
                         (after (createTriad Examples.env0 Examples.store0 (Js.Str "hello")
                                   Examples.validatorX))
                         (Js.Str "00000000000000000000000000000000"))).
Proof.
  refine (proj2 (proj2 (store_operations_keep_index_and_records
                          (constructor Examples.default_options)
                          (after (createTriad Examples.env0 Examples.store0 (Js.Str "hello")
                                    Examples.validatorX)) _ _ _)) _ _).
  - eapply rtc_l; [apply (op_init Examples.env0)|]. apply rtc_once. apply op_createTriad.
  - intros key r Hget. discriminate Hget.
  - intros key v Hget. discriminate Hget.
  - reflexivity.
Defined.

(** In a store whose index and records agree, [validateTriad] fails with
    'not found' for exactly the ids for which [getTriad] returns null. *)
Theorem validateTriad_NotFound_iff_getTriad_null (s : t) (key : string)
    (validatorId : Js.Value) :
  index_consistent s →
  records_indexed s →
  isInitialized s = true →
  (result (validateTriad s (Js.Str key) validatorId) = Throw NotFound
   ↔ getTriad s key = Return None).
Proof.
  intros Hidx Hrec Hinit. unfold getTriad. rewrite Hinit. cbn [negb].
  unfold validateTriad. rewrite Hinit. cbn [negb]. unfold triads_get.
  destruct (Map_get (triads s) key) as [r|] eqn:Hm; cbn.
  - destruct (Hidx key r Hm) as (triad & -> & _ & ->). cbn.
    destruct (validated triad); cbn; split; discriminate.
  - split; [|reflexivity]. intros _.
    destruct (db s !! triad_key key) as [v|] eqn:Hdb; [|reflexivity].
    destruct (Hrec key v Hdb) as [r Hr]. congruence.
Qed.

Lemma validateTriad_NotFound_iff_getTriad_null_witness :
  result (validateTriad Examples.store0 (Js.Str "ffffffffffffffffffffffffffffffff")
            Examples.validatorX) = Throw NotFound
  ↔ getTriad Examples.store0 "ffffffffffffffffffffffffffffffff" = Return None.
Proof.
  apply (validateTriad_NotFound_iff_getTriad_null Examples.store0).
  - intros key r Hget. discriminate Hget.
  - intros key v Hget. cbn in Hget.
    rewrite lookup_insert_ne in Hget by apply metadata_not_triad_key. discriminate Hget.
  - reflexivity.
Defined.

End StoreConsistency.

Section StoreBookkeeping.

Import TriadMatrix StoreOps StoreInvariants CreateSpec.

Lemma operation_metadata_current (s s' : t) :
  operation s s' → metadata_current s → metadata_current s'.
Proof.
  intros Hop Hcur. destruct Hop as [env this|env this d v|this tid vid|env this v].
  - exists env, 0%nat. cbn. rewrite lookup_insert_eq. reflexivity.
  - destruct (createTriad_cases env this d v) as [[e ->]|[r0 Hret]]; [exact Hcur|].
    exists env, 1%nat. revert Hret. unfold createTriad.
    destruct (negb (isInitialized this)); [discriminate|].
    destruct (_ || _); [discriminate|]. destruct (_ || _); [discriminate|].
    intros _. cbn -[generateTriadId calculateOptimalPosition triad_key].
    rewrite lookup_insert_eq. reflexivity.
  - destruct (validateTriad_cases this tid vid)
      as [[e ->]|[[r0 ->]|(key0 & r0 & triad0 & _ & _ & _ & _ & ->)]];
      [exact Hcur | exact Hcur |].
    destruct Hcur as (env & tick & Hdb). exists env, tick.
    cbn [after db set_db set_heap].
    rewrite lookup_insert_ne by apply triad_key_not_metadata. exact Hdb.
  - destruct (addValidator_cases env this v) as [[e ->]|[->|(s0 & _ & _ & _ & ->)]];
      [exact Hcur | exact Hcur |].
    exists env, 0%nat. cbn. rewrite lookup_insert_eq. reflexivity.
Qed.

(** The metadata record follows the store: a successful [createTriad]
    and the first registration of an address by [addValidator] write a
    metadata record that holds the dimensions, complexity, threshold and
    validators of the store as the call leaves it; and a metadata record
    that describes the store still describes it after any sequence of
    [createTriad], [validateTriad] and [addValidator] calls. *)
Theorem metadata_record_is_current (env : Ambient) (this : t) :
  (∀ data0 validator0 r,
     result (createTriad env this data0 validator0) = Return r →
     db (after (createTriad env this data0 validator0)) !! "matrix:state_metadata"
     = Some (stateMetadata env 1 (after (createTriad env this data0 validator0))))
  ∧ (∀ validatorId,
       result (addValidator env this validatorId) = Return true →
       db (after (addValidator env this validatorId)) !! "matrix:state_metadata"
       = Some (stateMetadata env 0 (after (addValidator env this validatorId))))
  ∧ (∀ s', rtc method_call this s' → metadata_current this → metadata_current s').
Proof.
  split; [|split].
  - intros data0 validator0 r. unfold createTriad.
    destruct (negb (isInitialized this)); [discriminate|].
    destruct (_ || _); [discriminate|]. destruct (_ || _); [discriminate|].
    intros _. cbn -[generateTriadId calculateOptimalPosition triad_key].
    rewrite lookup_insert_eq. reflexivity.
  - intros validatorId.
    destruct (addValidator_cases env this validatorId)
      as [[e ->]|[->|(s0 & _ & _ & _ & ->)]]; [discriminate|discriminate|].
    intros _. cbn. rewrite lookup_insert_eq. reflexivity.
  - intros s' Hops. induction Hops as [|s1 s2 s3 Hop _ IH]; [auto|].
    intros Hcur. apply IH.
    eapply operation_metadata_current; [apply method_call_operation|]; eassumption.
Qed.

Lemma metadata_record_is_current_witness :
  db (after (addValidator Examples.env0 (Scenario.store_AB []) Examples.validatorX))
    !! "matrix:state_metadata"
  = Some (stateMetadata Examples.env0 0
            (after (addValidator Examples.env0 (Scenario.store_AB []) Examples.validatorX))).
Proof.
  apply (proj1 (proj2 (metadata_record_is_current Examples.env0 (Scenario.store_AB [])))).
  reflexivity.
Defined.

(** [createTriad] either fails and leaves the store untouched, with no
    write and no event, or appends exactly one triad: the new object is
    the last of [this.matrix], triadsCount grows by one, the triads that
    were there are unchanged, the validators and the initialised flag are
    as before, and [getTriad] of the new id returns the new record. *)
Theorem createTriad_appends_one (env : Ambient) (this : t) (data0 validator0 : Js.Value) :
  match result (createTriad env this data0 validator0) with
  | Throw _ =>
      after (createTriad env this data0 validator0) = this
      ∧ effects (createTriad env this data0 validator0) = []
  | Return r =>
      matrix (after (createTriad env this data0 validator0)) = matrix this ++ [r]
      ∧ ms_triadsCount (getMatrixState (after (createTriad env this data0 validator0)))
        = S (ms_triadsCount (getMatrixState this))
      ∧ heap this !! r = None
      ∧ take (length (heap this)) (heap (after (createTriad env this data0 validator0)))
        = heap this
      ∧ validators (after (createTriad env this data0 validator0)) = validators this
      ∧ isInitialized (after (createTriad env this data0 validator0)) = true
      ∧ ∃ triad,
          heap (after (createTriad env this data0 validator0)) !! r = Some triad
          ∧ getTriad (after (createTriad env this data0 validator0)) (id triad)
            = Return (Some (Triad_toJSON triad))
  end.
Proof.
  destruct (createTriad_cases env this data0 validator0) as [[e ->]|[r Hret]].
  { split; reflexivity. }
  rewrite Hret.
  destruct (createTriad_returns env this data0 validator0 r Hret)
    as (-> & Hinit & Hheap & Hmatrix & _ & Hdb & _ & Hinit').
  split; [exact Hmatrix|]. split.
  { unfold getMatrixState. cbn [ms_triadsCount]. rewrite Hmatrix, length_app. simpl. lia. }
  split; [apply lookup_ge_None; lia|]. split.
  { rewrite Hheap, take_app_length. reflexivity. }
  split.
  { revert Hret. unfold createTriad. rewrite Hinit. cbn [negb].
    destruct (_ || _); [discriminate|]. destruct (_ || _); [discriminate|].
    intros _. reflexivity. }
  split; [exact Hinit'|].
  exists (IdSpec.new_triad env this data0 validator0). split.
  { rewrite Hheap, lookup_app_r by lia. rewrite Nat.sub_diag. reflexivity. }
  unfold getTriad. rewrite Hinit'. cbn [negb]. f_equal. exact Hdb.
Qed.

Lemma operation_validators_NoDup (s s' : t) :
  operation s s' → NoDup (validators s) → NoDup (validators s').
Proof.
  intros Hop Hnd. destruct Hop as [env this|env this d v|this tid vid|env this v].
  - exact Hnd.
  - destruct (createTriad_cases env this d v) as [[e ->]|[r0 Hret]]; [exact Hnd|].
    revert Hret. unfold createTriad.
    destruct (negb (isInitialized this)); [discriminate|].
    destruct (_ || _); [discriminate|]. destruct (_ || _); [discriminate|].
    intros _. exact Hnd.
  - destruct (validateTriad_cases this tid vid)
      as [[e ->]|[[r0 ->]|(key0 & r0 & triad0 & _ & _ & _ & _ & ->)]]; exact Hnd.
  - destruct (addValidator_cases env this v) as [[e ->]|[->|(s0 & _ & _ & Hnew & ->)]];
      [exact Hnd | exact Hnd |].
    cbn. apply NoDup_app. split; [exact Hnd|]. split.
    + intros x Hx Hx'. apply list_elem_of_singleton in Hx'. subst x. contradiction.
    + apply NoDup_singleton.
Qed.

Lemma addValidator_member (env : Ambient) (this : t) (s : string) :
  s ≠ "" → s ∈ validators this →
  addValidator env this (Js.Str s)
  = {| result := Return false; after := this; effects := [] |}.
Proof.
  intros Hs Hin. unfold addValidator. cbn [Js.typeof Js.ToBoolean Set_has].
  rewrite (bool_decide_eq_false_2 (s = "") Hs), (bool_decide_eq_true_2 _ Hin).
  reflexivity.
Qed.

(** [addValidator] refuses anything that is not a non-empty string (the
    store is untouched); the first registration of an address returns
    true, appends it and writes the metadata; registering it again
    returns false and changes nothing.  And along any sequence of store
    operations the validator list never holds an address twice. *)
Theorem addValidator_registers_once (env : Ambient) (this : t) (validatorId : Js.Value) :
  (¬ nonempty_string validatorId →
   addValidator env this validatorId = throw this InvalidRegistration)
  ∧ (∀ s, validatorId = Js.Str s → s ≠ "" → s ∈ validators this →
          addValidator env this validatorId
          = {| result := Return false; after := this; effects := [] |})
  ∧ (∀ s, validatorId = Js.Str s → s ≠ "" → s ∉ validators this →
          result (addValidator env this validatorId) = Return true
          ∧ validators (after (addValidator env this validatorId)) = validators this ++ [s]
          ∧ effects (addValidator env this validatorId)
            = [Put "matrix:state_metadata"
                   (stateMetadata env 0 (after (addValidator env this validatorId)))]
          ∧ ∀ env',
              addValidator env' (after (addValidator env this validatorId)) validatorId
              = {| result := Return false;
                   after := after (addValidator env this validatorId);
                   effects := [] |})
  ∧ (∀ s s', rtc operation s s' → NoDup (validators s) → NoDup (validators s')).
Proof.
  split; [|split; [|split]].
  - intros Hbad. unfold addValidator.
    destruct (negb (Js.ToBoolean validatorId) || _) eqn:E; [reflexivity|].
    apply nonempty_string_accepted in E. contradiction.
  - intros s -> Hs Hin. apply addValidator_member; assumption.
  - intros s -> Hs Hnew.
    destruct (addValidator_cases env this (Js.Str s))
      as [[e He]|[He|(s0 & [= <-] & _ & _ & He)]].
    + exfalso. revert He. unfold addValidator. cbn [Js.typeof Js.ToBoolean Set_has].
      rewrite (bool_decide_eq_false_2 (s = "") Hs), (bool_decide_eq_false_2 _ Hnew).
      discriminate.
    + exfalso. revert He. unfold addValidator. cbn [Js.typeof Js.ToBoolean Set_has].
      rewrite (bool_decide_eq_false_2 (s = "") Hs), (bool_decide_eq_false_2 _ Hnew).
      discriminate.
    + rewrite He. cbn [result after effects]. split; [reflexivity|].
      split; [reflexivity|]. split; [reflexivity|].
      intros env'. apply addValidator_member; [exact Hs|].
      cbn. set_solver.
  - intros s s' Hops. induction Hops as [|s1 s2 s3 Hop _ IH]; [auto|].
    intros Hnd. apply IH. eapply operation_validators_NoDup; eassumption.
Qed.

Lemma addValidator_registers_once_witness :
  result (addValidator Examples.env0 Examples.store0 Examples.validatorX) = Return true
  ∧ validators (after (addValidator Examples.env0 Examples.store0 Examples.validatorX))
    = ["seir0123456789abcdef0123456789abcdef0123"]
  ∧ addValidator Examples.env0 Examples.store0 Js.Undefined
    = throw Examples.store0 InvalidRegistration.
Proof.
  destruct (proj1 (proj2 (proj2 (addValidator_registers_once Examples.env0 Examples.store0
                                   Examples.validatorX)))
              "seir0123456789abcdef0123456789abcdef0123" eq_refl)
    as (Hres & Hval & _).
  - discriminate.
  - cbn. apply not_elem_of_nil.
  - split; [exact Hres|]. split; [exact Hval|].
    apply (proj1 (addValidator_registers_once Examples.env0 Examples.store0 Js.Undefined)).
    intros (s & Hs & _). discriminate Hs.
Defined.

End StoreBookkeeping.

Section Geometry.

Import TriadMatrix.
Open Scope R_scope.

(** Being connected is symmetric: of two triads of the matrix, one is
    among the connections of the other exactly when the other is among
    its connections; and no triad is connected to a triad with its own
    id. *)
Theorem getTriadConnections_symmetric (this : t) (t1 t2 : Triad) :
  t1 ∈ matrix_objects this →
  t2 ∈ matrix_objects this →
  (t2 ∈ getTriadConnections this t1 ↔ t1 ∈ getTriadConnections this t2)
  ∧ (t2 ∈ getTriadConnections this t1 → id t2 ≠ id t1).
Proof.
  intros H1 H2. unfold getTriadConnections.
  apply list_elem_of_In in H1, H2.
  rewrite !list_elem_of_In, !filter_In.
  rewrite (calculateDistance_sym (position t1) (position t2)).
  split.
  - split; intros [_ Hcond]; (split; [assumption|]);
      case_bool_decide as E; try discriminate;
      rewrite bool_decide_eq_false_2 by (intros E'; apply E; symmetry; exact E');
      exact Hcond.
  - intros [_ Hcond]. case_bool_decide as E; [discriminate | exact E].
Qed.

Lemma getTriadConnections_symmetric_witness :
  Scenario.triadB ∈ getTriadConnections (Scenario.store_AB []) Scenario.triadA
  ↔ Scenario.triadA ∈ getTriadConnections (Scenario.store_AB []) Scenario.triadB.
Proof.
  apply (getTriadConnections_symmetric (Scenario.store_AB []) Scenario.triadA Scenario.triadB).
  - change (matrix_objects (Scenario.store_AB [])) with [Scenario.triadA; Scenario.triadB].
    set_solver.
  - change (matrix_objects (Scenario.store_AB [])) with [Scenario.triadA; Scenario.triadB].
    set_solver.
Defined.

End Geometry.

(** * The HTTP routes *)

Section ApiTheorems.

Import TriadMatrix CreateSpec Api.

Lemma valid_data_truthy (data : Js.Value) : valid_data data → Js.ToBoolean data = true.
Proof.
  destruct data; cbn; try tauto. intros Hs.
  rewrite bool_decide_eq_false_2 by exact Hs. reflexivity.
Qed.

Lemma nonempty_string_truthy (v : Js.Value) : nonempty_string v → Js.ToBoolean v = true.
Proof.
  intros (s & -> & Hs). cbn. rewrite bool_decide_eq_false_2 by exact Hs. reflexivity.
Qed.

Lemma createTriad_rejects (env : Ambient) (this : t) (data0 validator0 : Js.Value) :
  isInitialized this = true →
  ¬ (valid_data data0 ∧ nonempty_string validator0) →
  ∃ e, createTriad env this data0 validator0 = throw this e.
Proof.
  intros Hinit Hbad. unfold createTriad. rewrite Hinit. cbn [negb].
  destruct (negb (Js.ToBoolean data0) || _) eqn:Hd; [eauto|].
  destruct (negb (Js.ToBoolean validator0) || _) eqn:Hv; [eauto|].
  apply valid_data_accepted in Hd. apply nonempty_string_accepted in Hv. tauto.
Qed.

(** POST /triads answers 503 exactly when the store is not initialised,
    400 exactly when data or validatorId is missing or falsy, 201 exactly
    when data is an object or a non-empty string and validatorId a
    non-empty string, and 500 for what is left: truthy values that
    [createTriad] refuses, such as a number as data or a validatorId that
    is not a string.  Unless it answers 201 the store is not changed and
    nothing is written or emitted. *)
Theorem post_triads_status (env : Ambient) (matrix : t) (reqBody : list (string * Js.Value)) :
  (status (post_triads env matrix reqBody).1.1 = 503%nat ↔ isInitialized matrix = false)
  ∧ (status (post_triads env matrix reqBody).1.1 = 400%nat
     ↔ isInitialized matrix = true
       ∧ (Js.ToBoolean (Js.lookup_field reqBody "data") = false
          ∨ Js.ToBoolean (Js.lookup_field reqBody "validatorId") = false))
  ∧ (status (post_triads env matrix reqBody).1.1 = 201%nat
     ↔ isInitialized matrix = true
       ∧ valid_data (Js.lookup_field reqBody "data")
       ∧ nonempty_string (Js.lookup_field reqBody "validatorId"))
  ∧ (status (post_triads env matrix reqBody).1.1 = 500%nat
     ↔ isInitialized matrix = true
       ∧ Js.ToBoolean (Js.lookup_field reqBody "data") = true
       ∧ Js.ToBoolean (Js.lookup_field reqBody "validatorId") = true
       ∧ ¬ (valid_data (Js.lookup_field reqBody "data")
            ∧ nonempty_string (Js.lookup_field reqBody "validatorId")))
  ∧ (status (post_triads env matrix reqBody).1.1 ≠ 201%nat →
     (post_triads env matrix reqBody).1.2 = matrix ∧ (post_triads env matrix reqBody).2 = []).
Proof.
  unfold post_triads.
  set (data := Js.lookup_field reqBody "data").
  set (validatorId := Js.lookup_field reqBody "validatorId").
  destruct (isInitialized matrix) eqn:Hinit; cbn [negb].
  2:{ cbn. repeat split; try discriminate; try tauto; intros [? _]; discriminate. }
  destruct (Js.ToBoolean data) eqn:Hd; cbn [negb orb].
  2:{ cbn. repeat split; try discriminate; try tauto.
      - intros (_ & Hv & _). apply valid_data_truthy in Hv. congruence.
      - intros (_ & ? & _). discriminate. }
  destruct (Js.ToBoolean validatorId) eqn:Hv; cbn [negb].
  2:{ cbn. repeat split; try discriminate; try tauto.
      - intros (_ & _ & Hn). apply nonempty_string_truthy in Hn. congruence.
      - intros (_ & _ & ? & _). discriminate. }
  assert ((valid_data data ∧ nonempty_string validatorId)
          ∨ ¬ (valid_data data ∧ nonempty_string validatorId)) as [[Hvd Hns]|Hbad].
  { destruct (negb (Js.ToBoolean data)
              || negb (bool_decide (Js.typeof data = "object"))
                 && negb (bool_decide (Js.typeof data = "string"))) eqn:Ed.
    { right. intros [H _]. apply valid_data_accepted in H. congruence. }
    destruct (negb (Js.ToBoolean validatorId)
              || negb (bool_decide (Js.typeof validatorId = "string"))) eqn:Ev.
    { right. intros [_ H]. apply nonempty_string_accepted in H. congruence. }
    left. split; [apply valid_data_accepted | apply nonempty_string_accepted]; assumption. }
  - rewrite (createTriad_accepts env matrix data validatorId Hinit Hvd Hns). cbn.
    repeat split; try discriminate; try tauto.
    all: try (intros [_ [?|?]]; discriminate).
    all: try (intros (_ & _ & _ & Hn); tauto).
    all: try (intros Hne; contradiction).
  - destruct (createTriad_rejects env matrix data validatorId Hinit Hbad) as [e ->]. cbn.
    repeat split; try discriminate; try tauto.
    all: try (intros [_ [?|?]]; discriminate).
Qed.

(** What POST /triads answers with 201 can be read back: the body carries
    the id of the new triad, and GET /triads/:id for that id, on the store
    as the POST left it, answers 200 with the same body. *)
Theorem post_triads_then_get_triad (env : Ambient) (matrix : t)
    (reqBody : list (string * Js.Value)) :
  status (post_triads env matrix reqBody).1.1 = 201%nat →
  ∃ id,
    Js.get (body (post_triads env matrix reqBody).1.1) "id" = Return (Js.Str id)
    ∧ String.length id = 32%nat
    ∧ get_triad (post_triads env matrix reqBody).1.2 id
      = {| status := 200; body := body (post_triads env matrix reqBody).1.1 |}.
Proof.
  unfold post_triads.
  set (data := Js.lookup_field reqBody "data").
  set (validatorId := Js.lookup_field reqBody "validatorId").
  destruct (negb (isInitialized matrix)); [discriminate|].
  destruct (_ || _); [discriminate|].
  destruct (result (createTriad env matrix data validatorId)) as [r|e] eqn:Hret;
    [|discriminate].
  intros _. cbn [fst snd body].
  destruct (createTriad_returns env matrix data validatorId r Hret)
    as (-> & _ & Hheap & _ & _ & Hdb & _ & Hinit').
  rewrite Hheap, lookup_app_r by lia. rewrite Nat.sub_diag. cbn [lookup list_lookup from_option].
  exists (generateTriadId env). split; [reflexivity|].
  split; [apply generateTriadId_format|].
  unfold get_triad, getTriad. rewrite Hinit'. cbn [negb]. rewrite Hdb. reflexivity.
Qed.

Lemma post_triads_then_get_triad_witness :
  ∃ id,
    Js.get (body (post_triads Examples.env0 Examples.store0
                    [("data", Js.Str "hello"); ("validatorId", Examples.validatorX)]).1.1)
           "id" = Return (Js.Str id)
    ∧ String.length id = 32%nat
    ∧ get_triad (post_triads Examples.env0 Examples.store0
                   [("data", Js.Str "hello"); ("validatorId", Examples.validatorX)]).1.2 id
      = {| status := 200;
           body := body (post_triads Examples.env0 Examples.store0
                           [("data", Js.Str "hello");
                            ("validatorId", Examples.validatorX)]).1.1 |}.
Proof.
  apply (post_triads_then_get_triad Examples.env0 Examples.store0
           [("data", Js.Str "hello"); ("validatorId", Examples.validatorX)]).
  reflexivity.
Defined.

End ApiTheorems.

(** * Further properties of the gossip node *)

Section ConnectionTheorems.

Import P2PNode GossipSpec P2PListeners NodeExamples.

Lemma peers_set_fresh (m : list (string * Peer.t)) (k : string) (v : Peer.t) :
  peers_get m k = None → peers_set m k v = m ++ [(k, v)].
Proof.
  induction m as [|[k' v'] m IH]; cbn [peers_get peers_set]; [reflexivity|].
  case_bool_decide; [discriminate|]. intros Hrest. rewrite IH by exact Hrest. reflexivity.
Qed.

Lemma List_find_app {A : Type} (f : A → bool) (l l' : list A) :
  List.find f (l ++ l') = match List.find f l with
                          | Some a => Some a
                          | None => List.find f l'
                          end.
Proof.
  induction l as [|a l IH]; [reflexivity|]. cbn. destruct (f a); [reflexivity | exact IH].
Qed.

Lemma addPeer_run (env : Ambient) (ws : socket) (peerId direction : string) (url : Js.Value)
    (this : t) :
  addPeer env ws peerId direction url this
  = (Return peerId,
     set_peers (peers_set (peers this) peerId
                  {| Peer.ws := ws; Peer.id := peerId; Peer.direction := direction;
                     Peer.url := url; Peer.connectedAt := Date_now env 0;
                     Peer.nodeId := Js.Undefined; Peer.address := Js.Undefined |}) this,
     [EmitPeerConnected peerId]).
Proof. unfold addPeer. rewrite bind_get_this, bind_put_this. reflexivity. Qed.

(** An accepted connection: when the peer map is full the socket is
    terminated at once, no handshake is sent and no peer is recorded;
    otherwise the peer is appended to the map under its new id and a
    HANDSHAKE with this node's id and network id is sent, and the map
    still holds at most maxPeers peers. *)
Theorem handleNewConnection_capacity (env : Ambient) (ws : socket) (peerId : string)
    (this : t) :
  (maxPeers this ≤ length (peers this) →
   handleNewConnection env ws peerId this
   = (Return (), set_readyState (<[ws := CLOSED]> (readyState this)) this, [Terminate ws]))
  ∧ (length (peers this) < maxPeers this →
     peers_get (peers this) peerId = None →
     readyState_of this ws = OPEN →
     ∃ this' peer,
       handleNewConnection env ws peerId this
       = (Return (), this',
          [EmitPeerConnected peerId;
           Send ws (message HANDSHAKE
                      (Js.Object [("nodeId", Js.Str (nodeId this));
                                  ("networkId", Js.Str (networkId this));
                                  ("timestamp", Js.Number (IZR (Date_now env 1)))]))])
       ∧ peers this' = peers this ++ [(peerId, peer)]
       ∧ Peer.ws peer = ws ∧ Peer.direction peer = "incoming"
       ∧ Peer.nodeId peer = Js.Undefined ∧ Peer.address peer = Js.Undefined
       ∧ length (peers this') ≤ maxPeers this
       ∧ findPeerIdByWs this' ws = match findPeerIdByWs this ws with
                                   | Some other => Some other
                                   | None => Some peerId
                                   end).
Proof.
  unfold handleNewConnection. rewrite bind_get_this. split.
  - intros Hfull. rewrite bool_decide_eq_true_2 by exact Hfull. apply terminate_run.
  - intros Hroom Hfresh Hopen. rewrite bool_decide_eq_false_2 by lia.
    rewrite (bind_run _ _ _ _ _ _ (addPeer_run env ws peerId "incoming" Js.Null this)).
    rewrite sendMessage_run.
    replace (readyState_of (set_peers _ this) ws) with OPEN by (symmetry; exact Hopen).
    rewrite bool_decide_eq_true_2 by reflexivity.
    rewrite (peers_set_fresh _ _ _ Hfresh).
    eexists _, _. split; [reflexivity|]. cbn [peers set_peers].
    split; [reflexivity|]. repeat split.
    + rewrite length_app. simpl. lia.
    + unfold findPeerIdByWs. cbn [peers set_peers]. rewrite List_find_app.
      destruct (List.find _ (peers this)) as [[k p]|]; [reflexivity|].
      cbn. rewrite bool_decide_eq_true_2 by reflexivity. reflexivity.
Qed.

Lemma handleNewConnection_capacity_witness :
  ∃ this' peer,
    handleNewConnection Examples.env0 3%nat "peer-3"
      (set_readyState (<[3%nat := OPEN]> (readyState node0)) node0)
    = (Return (), this',
       [EmitPeerConnected "peer-3";
        Send 3%nat (message HANDSHAKE
                      (Js.Object [("nodeId", Js.Str "node-0");
                                  ("networkId", Js.Str "seirchain-default");
                                  ("timestamp",
                                   Js.Number (IZR (Date_now Examples.env0 1)))]))])
    ∧ peers this' = peers node0 ++ [("peer-3", peer)].
Proof.
  destruct (proj2 (handleNewConnection_capacity Examples.env0 3%nat "peer-3"
                     (set_readyState (<[3%nat := OPEN]> (readyState node0)) node0)))
    as (this' & peer & Hrun & Hpeers & _).
  - simpl. lia.
  - reflexivity.
  - reflexivity.
  - exists this', peer. split; [exact Hrun | exact Hpeers].
Defined.

(** The message listener of an accepted connection never raises, whatever
    the frame.  A frame that does not parse as JSON is answered with ERROR
    'Invalid message format' when the socket is open, and leaves the node
    as it was: the peer stays connected.  A frame that does parse gets the
    same answer when its handling raises: a HANDSHAKE without a payload
    from a known peer is reported as an invalid format, and the peer is
    neither recorded as shaken nor removed. *)
Theorem on_message_incoming_never_raises (Number_toString : R → string) (env : Ambient)
    (ws : socket) (peerId : string) (frame : option Js.Value) (this : t) :
  (on_message_incoming Number_toString env ws peerId frame this).1.1 = Return ()
  ∧ on_message_incoming Number_toString env ws peerId None this
    = (Return (), this,
       if bool_decide (readyState_of this ws = OPEN)
       then [Send ws (error_message "Invalid message format")] else [])
  ∧ ∀ fields,
      is_Some (peers_get (peers this) peerId) →
      Js.lookup_field fields "type" = Js.Str HANDSHAKE →
      Js.lookup_field fields "payload" = Js.Undefined →
      on_message_incoming Number_toString env ws peerId (Some (Js.Object fields)) this
      = (Return (), this,
         if bool_decide (readyState_of this ws = OPEN)
         then [Send ws (error_message "Invalid message format")] else []).
Proof.
  split; [|split].
  - unfold on_message_incoming, catch.
    destruct (bind _ _ this) as [[[[]|e] s] w]; [reflexivity|].
    rewrite sendMessage_run. reflexivity.
  - unfold on_message_incoming, catch. cbn [from_option].
    rewrite bind_lift_Throw. cbv beta iota. rewrite sendMessage_run. reflexivity.
  - intros fields [peer Hpeer] Htype Hpayload.
    unfold on_message_incoming, catch. cbn [from_option].
    rewrite bind_lift_Return.
    rewrite (handleMessage_dispatch Number_toString env ws (Js.Object fields)
               (Js.Str HANDSHAKE) peerId peer this Hpeer)
      by (cbn [Js.get]; rewrite Htype; reflexivity).
    change (Js.strict_eq (Js.Str HANDSHAKE) (Js.Str HANDSHAKE)) with true. cbv iota.
    unfold case_HANDSHAKE. rewrite bind_get_this. cbn [Js.get]. rewrite Hpayload.
    rewrite bind_lift_Return. cbn [Js.get]. rewrite bind_lift_Throw.
    cbv beta iota. rewrite sendMessage_run. reflexivity.
Qed.

End ConnectionTheorems.

Section DispatchTheorems.

Import P2PNode GossipSpec GossipFrames NodeExamples.

Variable Number_toString : R → string.

(** A message whose type is a string the switch has no case for is
    answered with ERROR 'Unknown message type: ...' on the socket it came
    from (when that socket is open) and changes nothing.  STATUS_UPDATE,
    the type of the node's own reply to GET_STATUS, is such a type. *)
Theorem unknown_type_is_answered_with_ERROR (env : Ambient) (ws : socket) (msg : Js.Value)
    (type peerId : string) (peer : Peer.t) (this : t) :
  peers_get (peers this) peerId = Some peer →
  Js.get msg "type" = Return (Js.Str type) →
  ¬ known_type type →
  handleMessage Number_toString env ws msg peerId this
  = (Return (), this,
     if bool_decide (readyState_of this ws = OPEN)
     then [Send ws (error_message ("Unknown message type: " +:+ type))] else [])
  ∧ ¬ known_type STATUS_UPDATE.
Proof.
  intros Hpeer Htype Hunknown. split.
  - rewrite (handleMessage_dispatch Number_toString env ws msg _ peerId peer this Hpeer Htype).
    unfold known_type in Hunknown. cbn [Js.strict_eq].
    rewrite !bool_decide_eq_false_2 by (intros ->; apply Hunknown; set_solver).
    apply sendMessage_run.
  - unfold known_type. intros H.
    repeat (apply elem_of_cons in H as [H|H]; [discriminate H|]).
    inversion H.
Qed.

End DispatchTheorems.

Section DispatchWitness.

Import P2PNode GossipSpec GossipFrames NodeExamples.

Lemma unknown_type_is_answered_with_ERROR_witness :
  handleMessage toy_Number_toString Examples.env0 1%nat
    (message STATUS_UPDATE (Js.Object [])) "peer-1" node0
  = (Return (), node0,
     [Send 1%nat (error_message "Unknown message type: STATUS_UPDATE")]).
Proof.
  refine (proj1 (unknown_type_is_answered_with_ERROR toy_Number_toString Examples.env0 1%nat
                   (message STATUS_UPDATE (Js.Object [])) STATUS_UPDATE "peer-1" peer1 node0
                   eq_refl eq_refl _)).
  unfold known_type. intros H.
  repeat (apply elem_of_cons in H as [H|H]; [discriminate H|]).
  inversion H.
Defined.

End DispatchWitness.

Section PeersTheorems.

Import P2PNode GossipSpec GossipFrames NodeExamples.

Variable Number_toString : R → string.

Lemma connectToPeer_run (env : Ambient) (peerAddress : Js.Value) (this : t) :
  connectToPeer env peerAddress this
  = if bool_decide (maxPeers this ≤ length (peers this)) then (Return (), this, [])
    else if existsb (λ entry : string * Peer.t, Js.strict_eq (Peer.url entry.2) peerAddress)
                    (peers this)
         then (Return (), this, [])
         else if WebSocket_accepts env peerAddress then (Return (), this, [Dial peerAddress])
              else (Throw InvalidURL, this, []).
Proof.
  unfold connectToPeer. rewrite bind_get_this.
  case_bool_decide; [reflexivity|]. destruct (existsb _ _); [reflexivity|].
  destruct (WebSocket_accepts env peerAddress); reflexivity.
Qed.

Lemma not_connected_no_url (this : t) (peerAddress : Js.Value) :
  isConnectedTo this peerAddress = false →
  existsb (λ entry : string * Peer.t, Js.strict_eq (Peer.url entry.2) peerAddress)
          (peers this) = false.
Proof.
  unfold isConnectedTo. induction (peers this) as [|entry l IH]; [reflexivity|].
  cbn [existsb]. intros H. apply orb_false_iff in H as [H1 H2].
  apply orb_false_iff in H1 as [H1 _]. rewrite H1, IH by exact H2. reflexivity.
Qed.

Lemma forEach_dial (env : Ambient) (this : t) (addresses : list Js.Value) :
  forEach (λ peerAddr,
             let* this0 := get_this in
             if Js.ToBoolean peerAddr && negb (isSelf Number_toString this0 peerAddr)
                && negb (isConnectedTo this0 peerAddr)
             then connectToPeer env peerAddr
             else ret ())
          addresses this
  = if bool_decide (maxPeers this ≤ length (peers this)) then (Return (), this, [])
    else ((dial_in_order env (List.filter (eligible Number_toString this) addresses)).1,
          this,
          (dial_in_order env (List.filter (eligible Number_toString this) addresses)).2).
Proof.
  induction addresses as [|a l IH]; cbn [forEach List.filter].
  { case_bool_decide; reflexivity. }
  unfold bind at 1. rewrite bind_get_this.
  fold (eligible Number_toString this a).
  destruct (eligible Number_toString this a) eqn:E.
  - rewrite connectToPeer_run.
    case_bool_decide as Hfull.
    { rewrite IH. reflexivity. }
    unfold eligible in E. apply andb_true_iff in E as [_ E]. apply negb_true_iff in E.
    rewrite (not_connected_no_url this a E).
    cbn [dial_in_order]. destruct (WebSocket_accepts env a); [|reflexivity].
    rewrite IH. reflexivity.
  - unfold ret at 1. rewrite IH. case_bool_decide; reflexivity.
Qed.

(** A PEERS message from a known peer makes the node go through the
    advertised addresses that are truthy, are not the node itself and are
    not already connected, in the order of the list: it dials each of
    them, as often as it is listed and however few free slots remain,
    until the WebSocket constructor refuses one; that address raises, and
    the addresses after it are not dialled.  When the peer map is already
    full it dials none and raises nothing.  The node itself does not
    change.  A payload that is not an array raises. *)
Theorem PEERS_dials_every_eligible_address (env : Ambient) (ws : socket)
    (msg payload : Js.Value) (peerId : string) (peer : Peer.t) (this : t) :
  peers_get (peers this) peerId = Some peer →
  Js.get msg "type" = Return (Js.Str PEERS) →
  Js.get msg "payload" = Return payload →
  match payload with
  | Js.Array addresses =>
      handleMessage Number_toString env ws msg peerId this
      = if bool_decide (maxPeers this ≤ length (peers this)) then (Return (), this, [])
        else ((dial_in_order env (List.filter (eligible Number_toString this) addresses)).1,
              this,
              (dial_in_order env (List.filter (eligible Number_toString this) addresses)).2)
  | _ =>
      handleMessage Number_toString env ws msg peerId this = (Throw TypeError, this, [])
  end.
Proof.
  intros Hpeer Htype Hpayload.
  rewrite (handleMessage_dispatch Number_toString env ws msg _ peerId peer this Hpeer Htype).
  change ((if Js.strict_eq (Js.Str PEERS) (Js.Str HANDSHAKE) then _ else _) this)
    with (case_PEERS Number_toString env msg this).
  unfold case_PEERS. rewrite Hpayload, bind_lift_Return.
  destruct payload; try reflexivity. apply forEach_dial.
Qed.

End PeersTheorems.

Section PeersWitness.

Import P2PNode GossipSpec GossipFrames NodeExamples.

(** The third address is not a URL: the two before it are dialled, the
    one after it is not. *)
Lemma PEERS_dials_every_eligible_address_witness :
  handleMessage toy_Number_toString Examples.env0 1%nat
    (message PEERS (Js.Array [Js.Str "ws://10.0.0.9:6001"; Js.Str "ws://10.0.0.2:6001";
                              Js.Str "ws://10.0.0.9:6001"; Js.Str "";
                              Js.Str "10.0.0.7"; Js.Str "ws://10.0.0.8:6001"]))
    "peer-1" node0
  = (Throw InvalidURL, node0,
     [Dial (Js.Str "ws://10.0.0.9:6001"); Dial (Js.Str "ws://10.0.0.9:6001")]).
Proof.
  exact (PEERS_dials_every_eligible_address toy_Number_toString Examples.env0 1%nat
           (message PEERS (Js.Array [Js.Str "ws://10.0.0.9:6001"; Js.Str "ws://10.0.0.2:6001";
                                     Js.Str "ws://10.0.0.9:6001"; Js.Str "";
                                     Js.Str "10.0.0.7"; Js.Str "ws://10.0.0.8:6001"]))
           _ "peer-1" peer1 node0 eq_refl eq_refl eq_refl).
Defined.

End PeersWitness.

Section SelfRecognition.

Import P2PNode NodeExamples.

Variable Number_toString : R → string.

Lemma substring_prefix (p suf : string) :
  String.substring 0 (String.length p) (p +:+ suf) = p.
Proof.
  induction p as [|c p IH]; simpl; [destruct suf; reflexivity|]. f_equal. exact IH.
Qed.

Lemma substring_middle (pre p suf : string) :
  String.substring (String.length pre) (String.length p) (pre +:+ p +:+ suf) = p.
Proof.
  induction pre as [|c pre IH].
  - change ("" +:+ p +:+ suf) with (p +:+ suf). apply substring_prefix.
  - change (String c pre +:+ p +:+ suf) with (String c (pre +:+ p +:+ suf)). exact IH.
Qed.

Lemma substring_0_split (n : nat) (s p : string) :
  String.substring 0 n s = p → String.length p = n → ∃ suf, s = p +:+ suf.
Proof.
  revert s p. induction n as [|n IH]; intros s p Hsub Hlen.
  - destruct p; [|discriminate]. exists s. reflexivity.
  - destruct s as [|c s]; cbn in Hsub; [subst p; discriminate|].
    destruct p as [|c' p]; [discriminate|]. injection Hsub as <- Hsub.
    destruct (IH s p Hsub) as [suf ->]; [cbn in Hlen; lia|]. exists suf. reflexivity.
Qed.

Lemma substring_split (m n : nat) (s p : string) :
  p ≠ "" → String.substring m n s = p → String.length p = n →
  ∃ pre suf, s = pre +:+ p +:+ suf.
Proof.
  revert s. induction m as [|m IH]; intros s Hp Hsub Hlen.
  - destruct (substring_0_split n s p Hsub Hlen) as [suf ->]. exists "", suf. reflexivity.
  - destruct s as [|c s]; cbn in Hsub.
    + subst p. contradiction.
    + destruct (IH s Hp Hsub Hlen) as (pre & suf & ->).
      exists (String c pre), suf. reflexivity.
Qed.

Lemma contains_iff (p s : string) :
  p ≠ "" → (contains p s = true ↔ ∃ pre suf, s = pre +:+ p +:+ suf).
Proof.
  intros Hp. unfold contains. rewrite bool_decide_eq_true. split.
  - intros [m Hm]. apply String.index_correct1 in Hm.
    eapply substring_split; [exact Hp | exact Hm | reflexivity].
  - intros (pre & suf & ->).
    destruct (String.index 0 p (pre +:+ p +:+ suf)) as [m|] eqn:E; [eauto|].
    exfalso. eapply (String.index_correct3 0 (String.length pre)); [exact E | exact Hp | lia |].
    apply substring_middle.
Qed.

(** [isSelf] holds for a string address exactly when the address contains
    "ws://localhost:<port>" or "ws://127.0.0.1:<port>" somewhere, or is
    the advertised address.  So it also holds for a loopback address on
    another port that merely begins with the node's port, and for any
    longer URL that embeds such an address. *)
Theorem isSelf_characterised (this : t) (address : string) :
  (isSelf Number_toString this (Js.Str address) = true
   ↔ (∃ pre suf, address = pre +:+ ("ws://localhost:" +:+ port this) +:+ suf)
     ∨ (∃ pre suf, address = pre +:+ ("ws://127.0.0.1:" +:+ port this) +:+ suf)
     ∨ (advertisedSelf this = Some address ∧ address ≠ ""))
  ∧ ∀ digits, isSelf Number_toString this
                (Js.Str ("ws://localhost:" +:+ port this +:+ digits)) = true.
Proof.
  assert (∀ a, isSelf Number_toString this (Js.Str a) = true
               ↔ (∃ pre suf, a = pre +:+ ("ws://localhost:" +:+ port this) +:+ suf)
                 ∨ (∃ pre suf, a = pre +:+ ("ws://127.0.0.1:" +:+ port this) +:+ suf)
                 ∨ (advertisedSelf this = Some a ∧ a ≠ "")) as Hiff.
  { intros a. unfold isSelf. cbn [Js.ToString].
    rewrite !orb_true_iff, !contains_iff by discriminate.
    destruct (advertisedSelf this) as [adv|]; cbn [Js.strict_eq].
    - rewrite andb_true_iff, negb_true_iff, bool_decide_eq_false, bool_decide_eq_true.
      split.
      + intros [[H|H]|[Hne ->]]; auto.
      + intros [H|[H|[[= ->] Hne]]]; auto.
    - split.
      + intros [[H|H]|H]; [auto | auto | discriminate].
      + intros [H|[H|[H _]]]; [auto | auto | discriminate]. }
  split; [apply Hiff|].
  intros digits. apply Hiff. left. exists "", digits. cbn. reflexivity.
Qed.

End SelfRecognition.

Section FrameRules.

Import P2PNode GossipSpec GossipFrames.

Variable P : t → t → Prop.
Hypothesis P_refl : ∀ s, P s s.
Hypothesis P_trans : ∀ s1 s2 s3, P s1 s2 → P s2 s3 → P s1 s3.

Lemma final_bind {A B : Type} (c : M A) (k : A → M B) (s : t) :
  P s (final c s) →
  (∀ a s1 w, c s = (Return a, s1, w) → P s1 (final (k a) s1)) →
  P s (final (bind c k) s).
Proof.
  unfold final, bind. destruct (c s) as [[[a|e] s1] w] eqn:E; cbn.
  - intros H1 H2. specialize (H2 a s1 w eq_refl).
    destruct (k a s1) as [[r s2] w2]. cbn in *. eapply P_trans; eassumption.
  - intros H1 _. exact H1.
Qed.

Lemma final_pure {A : Type} (c : M A) (s : t) : (c s).1.2 = s → P s (final c s).
Proof. unfold final. intros ->. apply P_refl. Qed.

Lemma final_lift_bind {A B : Type} (r : Result A) (k : A → M B) (s : t) :
  (∀ a, r = Return a → P s (final (k a) s)) → P s (final (bind (lift r) k) s).
Proof.
  intros H. destruct r as [a|e].
  - unfold final. rewrite bind_lift_Return. apply H. reflexivity.
  - apply P_refl.
Qed.

Lemma final_seq_pure {A B : Type} (c : M A) (k : A → M B) (s : t) :
  (∀ s0, (c s0).1.2 = s0) →
  (∀ a, P s (final (k a) s)) →
  P s (final (bind c k) s).
Proof.
  intros Hc Hk. apply final_bind; [apply final_pure, Hc|].
  intros a s1 w E. pose proof (Hc s) as H. rewrite E in H. cbn in H. subst s1. apply Hk.
Qed.

Lemma final_forEach {A : Type} (f : A → M unit) (l : list A) (s : t) :
  (∀ a s0, P s0 (final (f a) s0)) → P s (final (forEach f l) s).
Proof.
  intros Hf. revert s. induction l as [|a l IH]; intros s; cbn [forEach].
  - apply P_refl.
  - apply final_bind; [apply Hf|]. intros _ s1 _ _. apply IH.
Qed.

End FrameRules.

Section FrameLemmas.

Import P2PNode GossipSpec GossipFrames.

Variable Number_toString : R → string.

Lemma sendMessage_state (ws : socket) (msg : Js.Value) (s : t) : (sendMessage ws msg s).1.2 = s.
Proof. rewrite sendMessage_run. reflexivity. Qed.

Lemma broadcast_state (msg : Js.Value) (o : option string) (s : t) : (broadcast msg o s).1.2 = s.
Proof. rewrite broadcast_run. reflexivity. Qed.

Lemma connectToPeer_state (env : Ambient) (a : Js.Value) (s : t) :
  (connectToPeer env a s).1.2 = s.
Proof.
  rewrite connectToPeer_run. case_bool_decide; [reflexivity|].
  destruct (existsb _ _); [reflexivity|]. destruct (WebSocket_accepts env a); reflexivity.
Qed.

Lemma store_only_refl (s : t) : store_only s s.
Proof. exists (triadMatrix s). destruct s. reflexivity. Qed.

Lemma store_only_trans (s1 s2 s3 : t) : store_only s1 s2 → store_only s2 s3 → store_only s1 s3.
Proof. intros [m ->] [m' ->]. exists m'. reflexivity. Qed.

Lemma call_store_store_only {A : Type} (op : TriadMatrix.t → TriadMatrix.Outcome A) (s : t) :
  store_only s (final (call_store op) s).
Proof.
  unfold final. destruct (triadMatrix s) as [store|] eqn:Hs.
  - rewrite (call_store_run op store s Hs). cbn. eexists. reflexivity.
  - unfold call_store. rewrite bind_get_this, Hs. apply store_only_refl.
Qed.

Lemma store_db_put_store_only (key : string) (value : Js.Value) (s : t) :
  store_only s (final (store_db_put key value) s).
Proof.
  unfold final, store_db_put. rewrite bind_get_this.
  destruct (triadMatrix s) as [store|]; [|apply store_only_refl].
  rewrite bind_put_this. cbn. eexists. reflexivity.
Qed.

Lemma case_DISCOVERY_state (ws : socket) (s : t) : final (case_DISCOVERY ws) s = s.
Proof. unfold final, case_DISCOVERY. rewrite bind_get_this. apply sendMessage_state. Qed.

Lemma case_GET_STATUS_state (ws : socket) (s : t) : final (case_GET_STATUS ws) s = s.
Proof.
  unfold final, case_GET_STATUS. rewrite bind_get_this.
  destruct (triadMatrix s); [apply sendMessage_state | reflexivity].
Qed.

Lemma case_ERROR_state (msg : Js.Value) (s : t) : final (case_ERROR msg) s = s.
Proof.
  unfold case_ERROR. apply (final_lift_bind (λ a b, b = a) (@eq_refl t)). intros payload _.
  apply (final_lift_bind (λ a b, b = a) (@eq_refl t)). intros text _. reflexivity.
Qed.

Lemma case_PEERS_state (env : Ambient) (msg : Js.Value) (s : t) :
  final (case_PEERS Number_toString env msg) s = s.
Proof.
  unfold case_PEERS. apply (final_lift_bind (λ a b, b = a) (@eq_refl t)). intros payload _.
  destruct payload; try reflexivity.
  apply (final_forEach (λ a b, b = a) (@eq_refl t)); [intros ? ? ? -> ->; reflexivity|].
  intros a s0.
  unfold final. rewrite bind_get_this.
  destruct (_ && _); [apply connectToPeer_state | reflexivity].
Qed.

Lemma case_NEW_TRIAD_store_only (env : Ambient) (msg : Js.Value) (peerId : string) (s : t) :
  store_only s (final (case_NEW_TRIAD Number_toString env msg peerId) s).
Proof.
  unfold case_NEW_TRIAD.
  replace (final _ s) with
    (final (match triadMatrix s with
            | Some store =>
                let* payload := lift (Js.get msg "payload") in
                let* triadId := lift (Js.get payload "id") in
                broadcast msg (Some peerId) ;;
                match TriadMatrix.getTriad store (Js.ToString Number_toString triadId) with
                | Return existing =>
                    if negb (from_option Js.ToBoolean false existing)
                    then
                      let* data := lift (Js.get payload "data") in
                      let* validator := lift (Js.get payload "validator") in
                      call_store (λ s0, TriadMatrix.createTriad env s0 data validator) ;;
                      ret ()
                    else ret ()
                | Throw _ => ret ()
                end
            | None => ret ()
            end) s)
    by (unfold final; rewrite bind_get_this; reflexivity).
  destruct (triadMatrix s) as [store|]; [|apply store_only_refl].
  apply (final_lift_bind _ store_only_refl). intros payload _.
  apply (final_lift_bind _ store_only_refl). intros triadId _.
  apply (final_seq_pure _ store_only_refl store_only_trans); [apply broadcast_state|].
  intros _. destruct (TriadMatrix.getTriad _ _) as [existing|e]; [|apply store_only_refl].
  destruct (negb _); [|apply store_only_refl].
  apply (final_lift_bind _ store_only_refl). intros data _.
  apply (final_lift_bind _ store_only_refl). intros validator _.
  apply (final_bind _ store_only_trans); [apply call_store_store_only|].
  intros. apply store_only_refl.
Qed.

Lemma case_VALIDATE_TRIAD_store_only (msg : Js.Value) (s : t) :
  store_only s (final (case_VALIDATE_TRIAD msg) s).
Proof.
  unfold case_VALIDATE_TRIAD.
  replace (final _ s) with
    (final (match triadMatrix s with
            | Some _ =>
                let* payload := lift (Js.get msg "payload") in
                if Js.ToBoolean payload
                then
                  let* triadId := lift (Js.get payload "triadId") in
                  let* validatorId := lift (Js.get payload "validatorId") in
                  if Js.ToBoolean triadId && Js.ToBoolean validatorId
                  then
                    call_store (λ s0, TriadMatrix.validateTriad s0 triadId validatorId) ;;
                    ret ()
                  else ret ()
                else ret ()
            | None => ret ()
            end) s)
    by (unfold final; rewrite bind_get_this; reflexivity).
  destruct (triadMatrix s) as [store|]; [|apply store_only_refl].
  apply (final_lift_bind _ store_only_refl). intros payload _.
  destruct (Js.ToBoolean payload); [|apply store_only_refl].
  apply (final_lift_bind _ store_only_refl). intros triadId _.
  apply (final_lift_bind _ store_only_refl). intros validatorId _.
  destruct (_ && _); [|apply store_only_refl].
  apply (final_bind _ store_only_trans); [apply call_store_store_only|].
  intros. apply store_only_refl.
Qed.

Lemma case_TRIAD_VALIDATED_store_only (msg : Js.Value) (peerId : string) (s : t) :
  store_only s (final (case_TRIAD_VALIDATED Number_toString msg peerId) s).
Proof.
  unfold case_TRIAD_VALIDATED.
  replace (final _ s) with
    (final (match triadMatrix s with
            | Some store =>
                let* payload := lift (Js.get msg "payload") in
                if Js.ToBoolean payload
                then
                  let* triadId := lift (Js.get payload "id") in
                  if Js.ToBoolean triadId
                  then
                    broadcast msg (Some peerId) ;;
                    match TriadMatrix.getTriad store (Js.ToString Number_toString triadId) with
                    | Return (Some localTriad) =>
                        if Js.ToBoolean localTriad
                        then
                          let* localValidated := lift (Js.get localTriad "validated") in
                          let* remoteValidated := lift (Js.get payload "validated") in
                          if negb (Js.ToBoolean localValidated)
                             && Js.ToBoolean remoteValidated
                          then
                            let* mergedId :=
                              lift (Js.get (Js.assign_value localTriad payload) "id") in
                            store_db_put
                              (TriadMatrix.triad_key (Js.ToString Number_toString mergedId))
                              (Js.assign_value localTriad payload)
                          else ret ()
                        else ret ()
                    | _ => ret ()
                    end
                  else ret ()
                else ret ()
            | None => ret ()
            end) s)
    by (unfold final; rewrite bind_get_this; reflexivity).
  destruct (triadMatrix s) as [store|]; [|apply store_only_refl].
  apply (final_lift_bind _ store_only_refl). intros payload _.
  destruct (Js.ToBoolean payload); [|apply store_only_refl].
  apply (final_lift_bind _ store_only_refl). intros triadId _.
  destruct (Js.ToBoolean triadId); [|apply store_only_refl].
  apply (final_seq_pure _ store_only_refl store_only_trans); [apply broadcast_state|].
  intros _. destruct (TriadMatrix.getTriad _ _) as [[localTriad|]|e];
    try apply store_only_refl.
  destruct (Js.ToBoolean localTriad); [|apply store_only_refl].
  apply (final_lift_bind _ store_only_refl). intros localValidated _.
  apply (final_lift_bind _ store_only_refl). intros remoteValidated _.
  destruct (_ && _); [|apply store_only_refl].
  apply (final_lift_bind _ store_only_refl). intros mergedId _.
  apply store_db_put_store_only.
Qed.

End FrameLemmas.

Section FrameTheorem.

Import P2PNode GossipSpec GossipFrames.

Variable Number_toString : R → string.

Lemma strict_eq_Str (v : Js.Value) (s : string) : Js.strict_eq v (Js.Str s) = true → v = Js.Str s.
Proof.
  destruct v; cbn; try discriminate. intros H. apply bool_decide_eq_true_1 in H. congruence.
Qed.

Lemma peers_get_delete_Some (m : list (string * Peer.t)) (k' k : string) :
  is_Some (peers_get (peers_delete m k') k) → is_Some (peers_get m k).
Proof.
  induction m as [|[k0 v] m IH]; [intros H; exact H|].
  unfold peers_delete in *. cbn [List.filter fst peers_get].
  destruct (bool_decide (k0 = k')); cbn [negb peers_get];
    destruct (bool_decide (k0 = k)); eauto.
Qed.

Lemma peers_get_set_Some (m : list (string * Peer.t)) (k' k : string) (v : Peer.t) :
  is_Some (peers_get m k') →
  is_Some (peers_get (peers_set m k' v) k) → is_Some (peers_get m k).
Proof.
  induction m as [|[k0 v0] m IH]; cbn [peers_set peers_get].
  - intros [? [=]].
  - destruct (bool_decide (k0 = k')) eqn:E; cbn [peers_get].
    + apply bool_decide_eq_true_1 in E. subst k0. intros _.
      destruct (bool_decide (k' = k)); eauto.
    + destruct (bool_decide (k0 = k)); eauto.
Qed.

Lemma set_peers_readyState_id (s : t) : set_peers (peers s) (set_readyState (readyState s) s) = s.
Proof. destruct s. reflexivity. Qed.

Lemma removePeer_state (peerId : string) (s : t) :
  ∃ p r, final (removePeer peerId) s = set_peers p (set_readyState r s)
         ∧ ∀ k, is_Some (peers_get p k) → is_Some (peers_get (peers s) k).
Proof.
  unfold final, removePeer. rewrite bind_get_this.
  destruct (peers_get (peers s) peerId) as [peer|] eqn:Hpeer.
  - destruct (_ || _).
    + rewrite (bind_run _ _ _ _ () _ (terminate_run _ _)).
      rewrite bind_get_this, bind_put_this. cbn.
      exists (peers_delete (peers s) peerId), (<[Peer.ws peer := CLOSED]> (readyState s)).
      split; [reflexivity|]. intros k. apply peers_get_delete_Some.
    + rewrite (bind_pure _ _ s ()) by reflexivity.
      rewrite bind_get_this, bind_put_this. cbn.
      exists (peers_delete (peers s) peerId), (readyState s).
      split; [destruct s; reflexivity|]. intros k. apply peers_get_delete_Some.
  - cbn. exists (peers s), (readyState s). split; [|tauto].
    symmetry. apply set_peers_readyState_id.
Qed.

Lemma case_HANDSHAKE_state (ws : socket) (msg : Js.Value) (peerId : string) (peer : Peer.t)
    (s : t) :
  is_Some (peers_get (peers s) peerId) →
  ∃ p r, final (case_HANDSHAKE ws msg peerId peer) s = set_peers p (set_readyState r s)
         ∧ ∀ k, is_Some (peers_get p k) → is_Some (peers_get (peers s) k).
Proof.
  intros Hknown.
  assert (∃ p r, s = set_peers p (set_readyState r s)
                 ∧ ∀ k, is_Some (peers_get p k) → is_Some (peers_get (peers s) k)) as Hsame.
  { exists (peers s), (readyState s). split; [|tauto]. symmetry. apply set_peers_readyState_id. }
  unfold final, case_HANDSHAKE. rewrite bind_get_this.
  destruct (Js.get msg "payload") as [payload|e]; [|exact Hsame].
  rewrite bind_lift_Return.
  destruct (Js.get payload "networkId") as [remoteNetworkId|e]; [|exact Hsame].
  rewrite bind_lift_Return.
  destruct (negb _).
  - rewrite (bind_run _ _ _ _ () _ (sendMessage_run _ _ _)).
    pose proof (removePeer_state peerId s) as Hrm. unfold final in Hrm.
    destruct (removePeer peerId s) as [[r0 s2] w2]. exact Hrm.
  - destruct (Js.get payload "nodeId") as [remoteNodeId|e]; [|exact Hsame].
    rewrite bind_lift_Return.
    destruct (Js.get payload "address") as [remoteAddress|e]; [|exact Hsame].
    rewrite bind_lift_Return, bind_put_this, bind_get_this, sendMessage_run. cbn [fst snd].
    eexists _, (readyState s). split; [destruct s; reflexivity|].
    intros k. apply peers_get_set_Some. exact Hknown.
Qed.

(** What a handled message may change.  Handling a message never admits a
    peer (every peer id present afterwards was present before) and never
    changes the node's id, port, network id, peer limit or advertised
    address.  The store is touched by NEW_TRIAD, VALIDATE_TRIAD and
    TRIAD_VALIDATED messages only; the peer map by HANDSHAKE only; the
    state of a socket by HANDSHAKE, or when the sender is not a known
    peer. *)
Theorem handleMessage_changes_at_most (env : Ambient) (ws : socket) (msg : Js.Value)
    (peerId : string) (this : t) :
  let this' := final (handleMessage Number_toString env ws msg peerId) this in
  no_new_peer this this'
  ∧ (nodeId this' = nodeId this ∧ port this' = port this ∧ networkId this' = networkId this
     ∧ maxPeers this' = maxPeers this ∧ advertisedSelf this' = advertisedSelf this)
  ∧ (triadMatrix this' ≠ triadMatrix this →
     Js.get msg "type" = Return (Js.Str NEW_TRIAD)
     ∨ Js.get msg "type" = Return (Js.Str VALIDATE_TRIAD)
     ∨ Js.get msg "type" = Return (Js.Str TRIAD_VALIDATED))
  ∧ (peers this' ≠ peers this → Js.get msg "type" = Return (Js.Str HANDSHAKE))
  ∧ (readyState this' ≠ readyState this →
     peers_get (peers this) peerId = None ∨ Js.get msg "type" = Return (Js.Str HANDSHAKE)).
Proof.
  assert (∀ s' : t, s' = this →
            no_new_peer this s'
            ∧ (nodeId s' = nodeId this ∧ port s' = port this ∧ networkId s' = networkId this
               ∧ maxPeers s' = maxPeers this ∧ advertisedSelf s' = advertisedSelf this)
            ∧ triadMatrix s' = triadMatrix this ∧ peers s' = peers this
            ∧ readyState s' = readyState this) as Hsame.
  { intros s' ->. unfold no_new_peer. tauto. }
  assert (∀ s' : t, store_only this s' →
            no_new_peer this s'
            ∧ (nodeId s' = nodeId this ∧ port s' = port this ∧ networkId s' = networkId this
               ∧ maxPeers s' = maxPeers this ∧ advertisedSelf s' = advertisedSelf this)
            ∧ peers s' = peers this ∧ readyState s' = readyState this) as Hstore.
  { intros s' [m ->]. unfold no_new_peer. cbn. tauto. }
  cbv zeta.
  destruct (peers_get (peers this) peerId) as [peer|] eqn:Hpeer.
  2:{ unfold final. rewrite (handleMessage_unknown_peer _ _ _ _ _ _ Hpeer), terminate_run.
      cbn. unfold no_new_peer. cbn. tauto. }
  destruct (Js.get msg "type") as [type|e] eqn:Htype.
  2:{ assert (final (handleMessage Number_toString env ws msg peerId) this = this) as ->.
      { unfold final, handleMessage. rewrite bind_get_this, Hpeer, Htype. reflexivity. }
      destruct (Hsame this eq_refl) as (? & ? & ? & ? & ?). tauto. }
  pose proof (handleMessage_dispatch Number_toString env ws msg type peerId peer this
                Hpeer Htype) as Hrun.
  unfold final. rewrite Hrun. clear Hrun.
  match goal with
  | |- context [(?c this).1.2] => change ((c this).1.2) with (final c this)
  end.
  destruct (Js.strict_eq type (Js.Str HANDSHAKE)) eqn:E1.
  { apply strict_eq_Str in E1. subst type.
    destruct (case_HANDSHAKE_state ws msg peerId peer this) as (p & r & -> & Hp);
      [rewrite Hpeer; eauto|].
    unfold no_new_peer. cbn. tauto. }
  destruct (Js.strict_eq type (Js.Str DISCOVERY)).
  { destruct (Hsame _ (case_DISCOVERY_state ws this)) as (? & ? & ? & ? & ?). tauto. }
  destruct (Js.strict_eq type (Js.Str PEERS)).
  { destruct (Hsame _ (case_PEERS_state Number_toString env msg this)) as (? & ? & ? & ? & ?).
    tauto. }
  destruct (Js.strict_eq type (Js.Str NEW_TRIAD)) eqn:E4.
  { apply strict_eq_Str in E4. subst type.
    destruct (Hstore _ (case_NEW_TRIAD_store_only Number_toString env msg peerId this))
      as (? & ? & ? & ?). tauto. }
  destruct (Js.strict_eq type (Js.Str VALIDATE_TRIAD)) eqn:E5.
  { apply strict_eq_Str in E5. subst type.
    destruct (Hstore _ (case_VALIDATE_TRIAD_store_only msg this)) as (? & ? & ? & ?). tauto. }
  destruct (Js.strict_eq type (Js.Str TRIAD_VALIDATED)) eqn:E6.
  { apply strict_eq_Str in E6. subst type.
    destruct (Hstore _ (case_TRIAD_VALIDATED_store_only Number_toString msg peerId this))
      as (? & ? & ? & ?). tauto. }
  destruct (Js.strict_eq type (Js.Str GET_STATUS)).
  { destruct (Hsame _ (case_GET_STATUS_state ws this)) as (? & ? & ? & ? & ?). tauto. }
  destruct (Js.strict_eq type (Js.Str ERROR)).
  { destruct (Hsame _ (case_ERROR_state msg this)) as (? & ? & ? & ? & ?). tauto. }
  destruct (Hsame _ (sendMessage_state ws
                       (error_message ("Unknown message type: "
                                       +:+ Js.ToString Number_toString type)) this))
    as (? & ? & ? & ? & ?).
  tauto.
Qed.

End FrameTheorem.

(** * Properties of the wallet's address *)

Section AddressTheorems.

Import WalletExport.

Context {KeyPair : Type}.
Variable keyFromPrivate : string → option KeyPair.
Variable getPublic : KeyPair → option string.
Variable Buffer_from_hex : string → list Byte.byte.
Variable sha256 : list Byte.byte → option (list Byte.byte).
Variable ripemd160 : list Byte.byte → option (list Byte.byte).

Lemma substring_0_length (n : nat) (s : string) :
  String.length (String.substring 0 n s) = Nat.min n (String.length s).
Proof.
  revert s. induction n as [|n IH]; intros [|c s]; cbn; try reflexivity.
  rewrite IH. reflexivity.
Qed.

Lemma substring_0_forall (p : ascii → bool) (n : nat) (s : string) :
  string_forall p s = true → string_forall p (String.substring 0 n s) = true.
Proof.
  revert s. induction n as [|n IH]; intros [|c s]; cbn; try reflexivity.
  rewrite !andb_true_iff. intros [Hc Hs]. split; [exact Hc | apply IH, Hs].
Qed.

Lemma _generateAddress_format (publicKeyHex address : string) :
  (∀ input digest, ripemd160 input = Some digest → length digest = 20%nat) →
  Wallet._generateAddress Buffer_from_hex sha256 ripemd160 publicKeyHex
  = Return (Some address) →
  publicKeyHex ≠ ""
  ∧ ∃ h, address = "seir" +:+ h ∧ String.length h = 36%nat
         ∧ string_forall is_lower_hex h = true.
Proof.
  intros Hlib. unfold Wallet._generateAddress.
  case_bool_decide as Hpk; [discriminate|].
  destruct (sha256 _) as [hash1|]; [|discriminate].
  destruct (ripemd160 hash1) as [digest|] eqn:Hd; [|discriminate].
  intros [= <-]. split; [exact Hpk|].
  eexists. split; [reflexivity|]. split.
  - rewrite substring_0_length, toString_hex_length, (Hlib _ _ Hd). reflexivity.
  - apply substring_0_forall, toString_hex_lower.
Qed.

(** The address of a wallet.  When RIPEMD-160 digests have their 20
    bytes, an import that succeeds was given 64 hexadecimal characters and
    leaves a wallet with a key pair and a public key; if that public key
    is not the empty string the wallet is initialized, its address is
    "seir" followed by exactly 36 lower-case hexadecimal digits (40
    characters in all), and [exportPublicData] returns that public key and
    address.  (With an empty public key the import still succeeds, but the
    address stays null, the wallet is not initialized and nothing is
    exported.) *)
Theorem imported_address_format (this this' : Wallet.t) (privateKeyHex : string) :
  (∀ input digest, ripemd160 input = Some digest → length digest = 20%nat) →
  Wallet.importFromPrivateKey keyFromPrivate getPublic Buffer_from_hex sha256 ripemd160
    this privateKeyHex = (Return true, this') →
  String.length privateKeyHex = 64%nat
  ∧ string_forall Wallet.is_hex privateKeyHex = true
  ∧ ∃ kp pk,
      keyFromPrivate privateKeyHex = Some kp
      ∧ getPublic kp = Some pk
      ∧ Wallet.keyPair this' = Some kp
      ∧ Wallet.getPublicKey this' = Some pk
      ∧ if bool_decide (pk = "")
        then Wallet.getAddress this' = None
             ∧ Wallet.isInitialized this' = false
             ∧ exportPublicData this' = None
        else ∃ h, Wallet.getAddress this' = Some ("seir" +:+ h)
                  ∧ String.length h = 36%nat
                  ∧ string_forall is_lower_hex h = true
                  ∧ Wallet.isInitialized this' = true
                  ∧ exportPublicData this'
                    = Some (Js.Object [("publicKey", Js.Str pk);
                                       ("address", Js.Str ("seir" +:+ h))]).
Proof.
  intros Hlib. unfold Wallet.importFromPrivateKey.
  destruct (Wallet.test_hex64 privateKeyHex) eqn:Htest; [|discriminate].
  apply test_hex64_spec in Htest. destruct Htest as [Hlen Hhex]. cbn [negb].
  destruct (keyFromPrivate privateKeyHex) as [kp|] eqn:Hkp; [|discriminate].
  destruct (getPublic kp) as [pk|] eqn:Hpk; [|discriminate].
  destruct (Wallet._generateAddress _ _ _ pk) as [addr|e] eqn:Haddr; [|discriminate].
  intros [= <-]. split; [exact Hlen|]. split; [exact Hhex|].
  exists kp, pk. repeat (split; [reflexivity || assumption|]).
  destruct addr as [a|].
  - destruct (_generateAddress_format pk a Hlib Haddr) as (Hne & h & -> & Hh & Hlow).
    rewrite bool_decide_eq_false_2 by exact Hne.
    exists h. repeat split; assumption.
  - unfold Wallet._generateAddress in Haddr.
    case_bool_decide as E.
    + repeat split.
    + destruct (sha256 _); [|discriminate]. destruct (ripemd160 _); discriminate.
Qed.

End AddressTheorems.

Section AddressWitness.

Import WalletExamples WalletExport.

Lemma imported_address_format_witness :
  ∃ h, Wallet.getAddress loaded = Some ("seir" +:+ h) ∧ String.length h = 36%nat.
Proof.
  destruct (imported_address_format toy_keyFromPrivate toy_getPublic toy_Buffer_from_hex
              toy_digest toy_digest Wallet.empty loaded key64)
    as (_ & _ & kp & pk & _ & Hpk & _ & _ & H).
  - intros input digest [= <-]. reflexivity.
  - reflexivity.
  - injection Hpk as <-. destruct H as (h & Ha & Hlen & _).
    exists h. split; [exact Ha | exact Hlen].
Defined.

End AddressWitness.

(** * Properties of the validation cycle of the command line *)

Section MineTheorems.

Import TriadMatrix StoreOps StoreInvariants.

Context {KeyPair : Type}.

Lemma Map_get_elem (m : list (string * ref)) (k : string) (r : ref) :
  Map_get m k = Some r → (k, r) ∈ m.
Proof.
  induction m as [|[k' v] m IH]; cbn [Map_get]; [discriminate|].
  case_bool_decide as E.
  - intros [= ->]. subst k'. left.
  - intros H. right. exact (IH H).
Qed.

Lemma elem_Map_get (m : list (string * ref)) (k : string) (r : ref) :
  NoDup (m.*1) → (k, r) ∈ m → Map_get m k = Some r.
Proof.
  induction m as [|[k' v] m IH]; intros Hnd Hin; [inversion Hin|].
  rewrite fmap_cons in Hnd. apply NoDup_cons in Hnd as [Hk' Hnd].
  cbn [Map_get]. apply elem_of_cons in Hin as [[= <- <-]|Hin].
  - rewrite bool_decide_eq_true_2 by reflexivity. reflexivity.
  - case_bool_decide as E; [|exact (IH Hnd Hin)].
    subst k'. exfalso. apply Hk'. apply list_elem_of_fmap. exists (k, r). split; [reflexivity|exact Hin].
Qed.

Lemma index_values_NoDup (s : t) :
  index_consistent s → NoDup ((triads s).*1) → NoDup ((triads s).*2).
Proof.
  intros Hinv Hnd. apply NoDup_fmap_2_strong; [|eapply NoDup_fmap_1; exact Hnd].
  intros [k1 r1] [k2 r2] H1 H2 Hr. cbn in Hr. subst r2.
  apply (elem_Map_get _ _ _ Hnd) in H1, H2.
  destruct (Hinv _ _ H1) as (t1 & Hh1 & Hid1 & _).
  destruct (Hinv _ _ H2) as (t2 & Hh2 & Hid2 & _).
  rewrite Hh1 in Hh2. injection Hh2 as <-. congruence.
Qed.

(** The loop of [mine] over pending triads of the index. *)
Lemma validate_each_spec (walletAddress : Js.Value) (todo : list ref) :
  ∀ (m : t) (count : nat),
    isInitialized m = true →
    index_consistent m →
    NoDup todo →
    (∀ r : ref, r ∈ todo →
          ∃ key triad, Map_get (triads m) key = Some r ∧ heap m !! r = Some triad
                       ∧ validated triad = false) →
    ∃ m' effs n,
      Cli.validate_each walletAddress todo m count = (m', effs, n)
      ∧ rtc operation m m'
      ∧ validators m' = validators m
      ∧ triads m' = triads m
      ∧ (∀ r : ref, r ∉ todo → heap m' !! r = heap m !! r)
      ∧ (∀ (r : ref) triad, r ∈ todo → heap m !! r = Some triad →
           ∃ triad', heap m' !! r = Some triad'
                     ∧ validationAttempts triad' = (validationAttempts triad + 1)%Z
                     ∧ id triad' = id triad ∧ data triad' = data triad
                     ∧ validator triad' = validator triad
                     ∧ position triad' = position triad)
      ∧ n = count + length (List.filter (Cli.is_validated m') todo).
Proof.
  induction todo as [|r rest IH]; intros m count Hinit Hinv Hnd Hpending.
  - exists m, [], count. cbn. repeat split; try reflexivity.
    + intros r triad Hin. inversion Hin.
    + lia.
  - apply NoDup_cons in Hnd as [Hr Hnd].
    destruct (Hpending r) as (key & triad & Hkey & Hheap & Hval); [left|].
    destruct (Hinv key r Hkey) as (triad0 & Hheap0 & Hid & _).
    rewrite Hheap in Hheap0. injection Hheap0 as <-.
    assert (triads_get m (Js.Str key) = Some (r, triad)) as Hget.
    { unfold triads_get. rewrite Hkey. cbn. rewrite Hheap. reflexivity. }
    pose proof (validateTriad_pending_outcome m key walletAddress r triad Hinit Hget Hval)
      as Hout.
    assert (Cli.attempt walletAddress m r = validateTriad m (Js.Str key) walletAddress)
      as Hattempt.
    { unfold Cli.attempt. rewrite Hheap, Hid. reflexivity. }
    pose proof (op_validateTriad m (Js.Str key) walletAddress) as Hop.
    set (m1 := set_db (<[triad_key key := Triad_toJSON (rescored m triad walletAddress)]>
                         (db m))
                 (set_heap (<[r := rescored m triad walletAddress]> (heap m)) m)) in *.
    rewrite Hout in Hop. cbn [after] in Hop.
    assert (heap m1 !! r = Some (rescored m triad walletAddress)) as Hr1.
    { subst m1. cbn. apply list_lookup_insert_eq. eapply lookup_lt_Some. exact Hheap. }
    assert (∀ r', r' ≠ r → heap m1 !! r' = heap m !! r') as Hother.
    { intros r' Hne. subst m1. cbn. apply list_lookup_insert_ne. congruence. }
    destruct (IH m1 (if validated (rescored m triad walletAddress) then S count else count))
      as (m' & effs & n & Hrun & Hrtc & Hvals & Htriads & Hframe & Hdone & Hn).
    + exact Hinit.
    + exact (operation_index_consistent m m1 Hop Hinv).
    + exact Hnd.
    + intros r' Hin. destruct (Hpending r') as (key' & triad' & Hk' & Hh' & Hv'); [right; exact Hin|].
      exists key', triad'. split; [exact Hk'|]. split; [|exact Hv'].
      rewrite Hother; [exact Hh'|]. intros ->. contradiction.
    + exists m', (Put (triad_key key) (Triad_toJSON (rescored m triad walletAddress))
                  :: Emit (triadValidated r) :: effs), n.
      assert (heap m' !! r = Some (rescored m triad walletAddress)) as Hr'.
      { rewrite (Hframe r Hr). exact Hr1. }
      split.
      { cbn [Cli.validate_each]. rewrite Hattempt, Hout. cbn [result after effects].
        fold m1. unfold Cli.is_validated at 1. rewrite Hr1. rewrite Hrun. reflexivity. }
      split; [eapply rtc_l; eassumption|].
      split; [rewrite Hvals; reflexivity|].
      split; [rewrite Htriads; reflexivity|].
      split.
      { intros r0 Hnot. rewrite Hframe by (intros Hin; apply Hnot; right; exact Hin).
        apply Hother. intros ->. apply Hnot. left. }
      split.
      { intros r0 triad0 Hin Hh0. apply elem_of_cons in Hin as [->|Hin].
        - rewrite Hheap in Hh0. injection Hh0 as <-.
          exists (rescored m triad walletAddress). repeat split. exact Hr'.
        - apply (Hdone r0 triad0 Hin). rewrite Hother; [exact Hh0|].
          intros ->. contradiction. }
      rewrite Hn. cbn [List.filter]. unfold Cli.is_validated at 2. rewrite Hr'.
      destruct (validated (rescored m triad walletAddress)); cbn [length]; lia.
Qed.

Lemma addValidator_fresh (env : Ambient) (this : t) (s : string) :
  s ≠ "" → s ∉ validators this →
  addValidator env this (Js.Str s)
  = {| result := Return true;
       after := (saveMatrixState env 0 (set_validators (validators this ++ [s]) this)).1;
       effects := (saveMatrixState env 0 (set_validators (validators this ++ [s]) this)).2 |}.
Proof.
  intros Hs Hnew.
  destruct (addValidator_cases env this (Js.Str s))
    as [[e He]|[He|(s0 & [= <-] & _ & _ & He)]]; [| |exact He];
    exfalso; revert He; unfold addValidator; cbn [Js.typeof Js.ToBoolean Set_has];
    rewrite (bool_decide_eq_false_2 (s = "") Hs), (bool_decide_eq_false_2 _ Hnew);
    discriminate.
Qed.

Lemma unvalidatedTriads_elem (m : t) (walletAddress : Js.Value) (r : ref) :
  r ∈ Cli.unvalidatedTriads m walletAddress
  ↔ r ∈ map snd (triads m)
    ∧ ∃ triad, heap m !! r = Some triad ∧ validated triad = false
               ∧ Js.strict_eq (validator triad) walletAddress = false.
Proof.
  unfold Cli.unvalidatedTriads. cbn [getMatrixState ms_triads].
  rewrite !list_elem_of_In, filter_In. rewrite <- !list_elem_of_In.
  split.
  - intros [Hin Hp]. split; [exact Hin|].
    destruct (heap m !! r) as [triad|]; [|discriminate].
    apply andb_true_iff in Hp as [Hv Hs]. exists triad.
    split; [reflexivity|]. split; [destruct (validated triad); [discriminate|reflexivity]|].
    destruct (Js.strict_eq _ _); [discriminate|reflexivity].
  - intros [Hin (triad & -> & -> & ->)]. split; [exact Hin | reflexivity].
Qed.

Lemma strict_eq_Str_false (v : Js.Value) (s : string) :
  Js.strict_eq v (Js.Str s) = false ↔ v ≠ Js.Str s.
Proof.
  destruct v; cbn; try (split; [discriminate | reflexivity]).
  rewrite bool_decide_eq_false. split; congruence.
Qed.

(** One validation cycle of the command line, for a wallet with a
    non-empty address over an initialized store whose index is consistent.
    The cycle completes without raising and is a run of store operations;
    afterwards the wallet's address is a registered validator.  It makes
    exactly one validation attempt on every indexed triad that was pending
    and was created by another address (its attempt counter goes up by
    one; its id, data, creator and position stay), and leaves every other
    triad object exactly as it was: the wallet's own triads and the
    triads already validated are never attempted.  The count it prints
    is the number of attempted triads that are validated at the end. *)
Theorem mine_attempts_each_foreign_pending_triad_once (env : Ambient) (this : Cli.t)
    (a : string) :
  Wallet.isInitialized (Cli.wallet this) = true →
  Wallet.getAddress (Cli.wallet (KeyPair := KeyPair) this) = Some a →
  a ≠ "" →
  isInitialized (Cli.matrix this) = true →
  index_consistent (Cli.matrix this) →
  NoDup (map fst (triads (Cli.matrix this))) →
  ∃ n m' effs,
    Cli.mine env this = (Return n, m', effs)
    ∧ a ∈ validators m'
    ∧ rtc operation (Cli.matrix this) m'
    ∧ (∀ (r : ref) triad,
         heap (Cli.matrix this) !! r = Some triad →
         (validated triad = true ∨ validator triad = Js.Str a
          ∨ r ∉ map snd (triads (Cli.matrix this)) →
          heap m' !! r = Some triad)
         ∧ (validated triad = false → validator triad ≠ Js.Str a →
            r ∈ map snd (triads (Cli.matrix this)) →
            ∃ triad', heap m' !! r = Some triad'
                      ∧ validationAttempts triad' = (validationAttempts triad + 1)%Z
                      ∧ id triad' = id triad ∧ data triad' = data triad
                      ∧ validator triad' = validator triad
                      ∧ position triad' = position triad))
    ∧ n = match Cli.unvalidatedTriads (Cli.matrix this) (Js.Str a) with
          | [] => None
          | todo => Some (length (List.filter (Cli.is_validated m') todo))
          end.
Proof.
  intros Hwallet Haddr Ha Hinit Hinv Hkeys.
  set (m := Cli.matrix this) in *.
  (* the registration step *)
  assert (∃ m1 effs1,
            (if Set_has (validators m) (Js.Str a)
             then {| result := Return false; after := m; effects := [] |}
             else addValidator env m (Js.Str a))
            = {| result := Return (negb (Set_has (validators m) (Js.Str a)));
                 after := m1; effects := effs1 |}
            ∧ a ∈ validators m1 ∧ rtc operation m m1
            ∧ heap m1 = heap m ∧ triads m1 = triads m
            ∧ isInitialized m1 = true ∧ index_consistent m1)
    as (m1 & effs1 & Hreg & Hin1 & Hrtc1 & Hheap1 & Htriads1 & Hinit1 & Hinv1).
  { cbn [Set_has]. case_bool_decide as Hin.
    - exists m, []. repeat split; try assumption. apply rtc_refl.
    - pose proof (op_addValidator env m (Js.Str a)) as Hop.
      rewrite (addValidator_fresh env m a Ha Hin) in *. cbn [after] in Hop.
      eexists _, _. split; [reflexivity|].
      split; [cbn; set_solver|]. split; [apply rtc_once; exact Hop|].
      split; [reflexivity|]. split; [reflexivity|]. split; [exact Hinit|].
      exact (operation_index_consistent _ _ Hop Hinv). }
  assert (Cli.unvalidatedTriads m1 (Js.Str a) = Cli.unvalidatedTriads m (Js.Str a)) as Htodo.
  { unfold Cli.unvalidatedTriads. cbn [getMatrixState ms_triads].
    rewrite Hheap1, Htriads1. reflexivity. }
  assert (NoDup (Cli.unvalidatedTriads m (Js.Str a))) as Hnd.
  { unfold Cli.unvalidatedTriads. cbn [getMatrixState ms_triads].
    apply NoDup_ListNoDup, List.NoDup_filter, NoDup_ListNoDup.
    apply (index_values_NoDup m Hinv Hkeys). }
  destruct (validate_each_spec (Js.Str a) (Cli.unvalidatedTriads m (Js.Str a)) m1 0
              Hinit1 Hinv1 Hnd)
    as (m' & effs & n & Hrun & Hrtc & Hvals & Htriads & Hframe & Hdone & Hn).
  { intros r Hin. apply unvalidatedTriads_elem in Hin as [Hin (triad & Hh & Hv & _)].
    apply list_elem_of_fmap in Hin as ([key r'] & -> & Hin).
    exists key, triad. rewrite Htriads1, Hheap1.
    split; [apply elem_Map_get; assumption|]. split; assumption. }
  assert (∀ (r : ref) triad,
            heap m !! r = Some triad →
            (validated triad = true ∨ validator triad = Js.Str a
             ∨ r ∉ map snd (triads m) →
             heap m' !! r = Some triad)
            ∧ (validated triad = false → validator triad ≠ Js.Str a →
               r ∈ map snd (triads m) →
               ∃ triad', heap m' !! r = Some triad'
                         ∧ validationAttempts triad' = (validationAttempts triad + 1)%Z
                         ∧ id triad' = id triad ∧ data triad' = data triad
                         ∧ validator triad' = validator triad
                         ∧ position triad' = position triad)) as Hobjects.
  { intros r triad Hh. split.
    - intros Hskip. rewrite Hframe, Hheap1; [exact Hh|].
      intros Hin. apply unvalidatedTriads_elem in Hin as [Hin (triad0 & Hh0 & Hv & Hs)].
      rewrite Hh in Hh0. injection Hh0 as <-.
      apply strict_eq_Str_false in Hs.
      destruct Hskip as [Hval|[Hown|Hout]]; [congruence | contradiction | contradiction].
    - intros Hv Hforeign Hin. apply (Hdone r triad).
      + apply unvalidatedTriads_elem. split; [exact Hin|].
        exists triad. split; [exact Hh|]. split; [exact Hv|].
        apply strict_eq_Str_false. exact Hforeign.
      + rewrite Hheap1. exact Hh. }
  unfold Cli.mine. fold m. rewrite Hwallet, Haddr. cbn [negb WalletExport.nullable].
  rewrite Hreg. cbn [result after effects]. rewrite Htodo.
  destruct (Cli.unvalidatedTriads m (Js.Str a)) as [|r0 rest] eqn:Hlist.
  - exists None, m1, effs1. split; [reflexivity|]. split; [exact Hin1|].
    split; [exact Hrtc1|]. split; [|reflexivity].
    cbn in Hrun. injection Hrun as <- _ _. exact Hobjects.
  - rewrite Hrun. exists (Some n), m', (effs1 ++ effs).
    split; [reflexivity|]. split; [rewrite Hvals; exact Hin1|].
    split; [etrans; eassumption|]. split; [exact Hobjects|].
    rewrite Hn. reflexivity.
Qed.

End MineTheorems.

Section MineWitness.

Import TriadMatrix StoreOps StoreInvariants Examples WalletExamples.

Lemma mine_attempts_each_foreign_pending_triad_once_witness :
  ∃ n m' effs,
    Cli.mine env0
      {| Cli.matrix := after (createTriad env0 store0 (Js.Str "hello") validatorX);
         Cli.wallet := loaded |}
    = (Return n, m', effs)
    ∧ "seir5a5a5a5a5a5a5a5a5a5a5a5a5a5a5a5a5a5a" ∈ validators m'.
Proof.
  destruct (mine_attempts_each_foreign_pending_triad_once env0
              {| Cli.matrix := after (createTriad env0 store0 (Js.Str "hello") validatorX);
                 Cli.wallet := loaded |}
              "seir5a5a5a5a5a5a5a5a5a5a5a5a5a5a5a5a5a5a")
    as (n & m' & effs & Hrun & Hin & _).
  - reflexivity.
  - reflexivity.
  - discriminate.
  - reflexivity.
  - cbn [Cli.matrix].
    apply (operation_index_consistent store0); [apply op_createTriad|].
    apply (operation_index_consistent (constructor default_options));
      [apply (op_init env0)|].
    intros key r Hget. discriminate Hget.
  - cbn. apply NoDup_singleton.
  - exists n, m', effs. split; [exact Hrun | exact Hin].
Defined.

End MineWitness.

(** * Validation requests from the network *)

Section ValidateRequestTheorems.

Import P2PNode GossipSpec.

Variable Number_toString : R → string.

Lemma set_triadMatrix_id (this : t) (store : TriadMatrix.t) :
  triadMatrix this = Some store → set_triadMatrix (Some store) this = this.
Proof. destruct this. cbn. intros ->. reflexivity. Qed.

Lemma case_VALIDATE_TRIAD_run (msg payload triadId validatorId : Js.Value) (this : t)
    (store : TriadMatrix.t) :
  triadMatrix this = Some store →
  Js.get msg "payload" = Return payload →
  Js.get payload "triadId" = Return triadId →
  Js.get payload "validatorId" = Return validatorId →
  Js.ToBoolean triadId = true →
  Js.ToBoolean validatorId = true →
  case_VALIDATE_TRIAD msg this
  = (Return (),
     set_triadMatrix
       (Some (TriadMatrix.after (TriadMatrix.validateTriad store triadId validatorId))) this,
     listeners_trace
       (set_triadMatrix
          (Some (TriadMatrix.after (TriadMatrix.validateTriad store triadId validatorId)))
          this)
       (TriadMatrix.effects (TriadMatrix.validateTriad store triadId validatorId))).
Proof.
  intros Hstore Hpayload Hid Hvalidator Htid Hvid.
  assert (Js.ToBoolean payload = true) as Hp.
  { destruct payload; try reflexivity; cbn in Hid; try discriminate;
      injection Hid as <-; discriminate Htid. }
  unfold case_VALIDATE_TRIAD.
  rewrite bind_get_this, Hstore, Hpayload, bind_lift_Return, Hp.
  rewrite Hid, bind_lift_Return, Hvalidator, bind_lift_Return, Htid, Hvid. cbn [andb].
  rewrite (bind_run _ _ _ _ _ _
             (call_store_run (λ s, TriadMatrix.validateTriad s triadId validatorId)
                store this Hstore)).
  cbn. rewrite app_nil_r. reflexivity.
Qed.

(** A VALIDATE_TRIAD request from a known peer.  The validator id is taken
    from the message as it is.  For a pending triad the node makes one
    validation attempt, stores the rescored triad and announces it with a
    TRIAD_VALIDATED message to every open peer, the requester included,
    whether or not the attempt reached the threshold.  A request for an
    unknown triad, for a triad that is already validated, or to a store
    that is not initialized changes nothing and is answered with nothing:
    the requester is not told. *)
Theorem VALIDATE_TRIAD_announces_every_attempt (env : Ambient) (ws : socket)
    (msg payload triadId validatorId : Js.Value) (peerId : string) (peer : Peer.t)
    (this : t) (store : TriadMatrix.t) :
  peers_get (peers this) peerId = Some peer →
  triadMatrix this = Some store →
  Js.get msg "type" = Return (Js.Str VALIDATE_TRIAD) →
  Js.get msg "payload" = Return payload →
  Js.get payload "triadId" = Return triadId →
  Js.get payload "validatorId" = Return validatorId →
  Js.ToBoolean triadId = true →
  Js.ToBoolean validatorId = true →
  (∀ r triad,
     TriadMatrix.isInitialized store = true →
     TriadMatrix.triads_get store triadId = Some (r, triad) →
     TriadMatrix.validated triad = false →
     ∃ store',
       handleMessage Number_toString env ws msg peerId this
       = (Return (), set_triadMatrix (Some store') this,
          Store (TriadMatrix.Put (TriadMatrix.triad_key (Js.as_string triadId))
                   (TriadMatrix.Triad_toJSON (StoreOps.rescored store triad validatorId)))
          :: Store (TriadMatrix.Emit (TriadMatrix.triadValidated r))
          :: sends (message TRIAD_VALIDATED
                      (TriadMatrix.Triad_toJSON (StoreOps.rescored store triad validatorId)))
                   (broadcast_targets this None))
       ∧ TriadMatrix.heap store' !! r = Some (StoreOps.rescored store triad validatorId)
       ∧ TriadMatrix.db store' !! TriadMatrix.triad_key (Js.as_string triadId)
         = Some (TriadMatrix.Triad_toJSON (StoreOps.rescored store triad validatorId))
       ∧ (readyState_of this (Peer.ws peer) = OPEN →
          Peer.ws peer ∈ broadcast_targets this None))
  ∧ (TriadMatrix.isInitialized store = false
     ∨ TriadMatrix.triads_get store triadId = None
     ∨ (∃ r triad, TriadMatrix.triads_get store triadId = Some (r, triad)
                   ∧ TriadMatrix.validated triad = true) →
     handleMessage Number_toString env ws msg peerId this = (Return (), this, [])).
Proof.
  intros Hpeer Hstore Htype Hpayload Hid Hvalidator Htid Hvid.
  assert (handleMessage Number_toString env ws msg peerId this = case_VALIDATE_TRIAD msg this)
    as Hdispatch.
  { rewrite (handleMessage_dispatch Number_toString env ws msg _ peerId peer this Hpeer Htype).
    reflexivity. }
  rewrite Hdispatch.
  rewrite (case_VALIDATE_TRIAD_run msg payload triadId validatorId this store
             Hstore Hpayload Hid Hvalidator Htid Hvid).
  split.
  - intros r triad Hinit Hget Hpending.
    destruct (triads_get_heap _ _ _ _ Hget) as [Hheap (key & -> & Hkey)].
    rewrite (validateTriad_pending_outcome store key validatorId r triad Hinit Hget Hpending).
    cbn [TriadMatrix.after TriadMatrix.effects Js.as_string].
    eexists. split; [|split; [|split]].
    + f_equal. cbn [listeners_trace flat_map app]. f_equal. f_equal.
      unfold triad_payload. cbn [triadMatrix set_triadMatrix TriadMatrix.heap
                                   TriadMatrix.set_db TriadMatrix.set_heap].
      rewrite list_lookup_insert_eq by (eapply lookup_lt_Some; exact Hheap).
      rewrite app_nil_r. reflexivity.
    + cbn. apply list_lookup_insert_eq. eapply lookup_lt_Some. exact Hheap.
    + cbn. apply lookup_insert_eq.
    + intros Hopen. unfold broadcast_targets.
      apply list_elem_of_fmap. exists (peerId, peer). split; [reflexivity|].
      apply list_elem_of_In, filter_In. split.
      * apply list_elem_of_In. clear -Hpeer. induction (peers this) as [|[k v] l IH].
        -- discriminate Hpeer.
        -- cbn [peers_get] in Hpeer. case_bool_decide as E.
           ++ injection Hpeer as ->. subst k. left.
           ++ right. exact (IH Hpeer).
      * cbn [fst snd]. rewrite (bool_decide_eq_true_2 _ Hopen).
        rewrite bool_decide_eq_false_2 by discriminate. reflexivity.
  - intros Hignored.
    assert (TriadMatrix.validateTriad store triadId validatorId
            = {| TriadMatrix.result := TriadMatrix.result
                                         (TriadMatrix.validateTriad store triadId validatorId);
                 TriadMatrix.after := store; TriadMatrix.effects := [] |}) as Hout.
    { unfold TriadMatrix.validateTriad.
      destruct Hignored as [Hinit|[Hnone|(r & triad & Hget & Hval)]].
      - rewrite Hinit. reflexivity.
      - destruct (TriadMatrix.isInitialized store); [|reflexivity].
        rewrite Hnone. reflexivity.
      - destruct (TriadMatrix.isInitialized store); [|reflexivity].
        rewrite Hget, Hval. reflexivity. }
    rewrite Hout. cbn [TriadMatrix.after TriadMatrix.effects listeners_trace flat_map].
    rewrite (set_triadMatrix_id this store Hstore). reflexivity.
Qed.

End ValidateRequestTheorems.

Section ValidateRequestWitness.

Import P2PNode GossipSpec Examples Scenario NodeExamples MessageExamples.

Lemma VALIDATE_TRIAD_announces_every_attempt_witness :
  (handleMessage toy_Number_toString env0 1%nat validate_A "peer-1" node0).2
  = [Store (TriadMatrix.Put (TriadMatrix.triad_key idA)
              (TriadMatrix.Triad_toJSON (StoreOps.rescored (store_AB []) triadA validatorX)));
     Store (TriadMatrix.Emit (TriadMatrix.triadValidated 0%nat));
     Send 1%nat (message TRIAD_VALIDATED
                   (TriadMatrix.Triad_toJSON
                      (StoreOps.rescored (store_AB []) triadA validatorX)));
     Send 2%nat (message TRIAD_VALIDATED
                   (TriadMatrix.Triad_toJSON
                      (StoreOps.rescored (store_AB []) triadA validatorX)))].
Proof.
  destruct (proj1 (VALIDATE_TRIAD_announces_every_attempt toy_Number_toString env0 1%nat
                     validate_A _ _ _ "peer-1" peer1 node0 (store_AB [])
                     eq_refl eq_refl eq_refl eq_refl eq_refl eq_refl eq_refl eq_refl)
              0%nat triadA eq_refl eq_refl eq_refl)
    as (store' & -> & _).
  reflexivity.
Defined.

End ValidateRequestWitness.

(** * The address a peer claims *)

Section ClaimedAddress.

Import P2PNode GossipSpec P2PListeners.

Variable Number_toString : R → string.

Lemma strict_eq_Str_l (s : string) (w : Js.Value) :
  Js.strict_eq (Js.Str s) w = true → w = Js.Str s.
Proof.
  destruct w; cbn; try discriminate. intros H. apply bool_decide_eq_true_1 in H. congruence.
Qed.

Lemma Set_from_fold_elem (s : string) (l acc : list Js.Value) :
  Js.Str s ∈ acc ∨ Js.Str s ∈ l →
  Js.Str s ∈ fold_left (λ acc v, if existsb (Js.strict_eq v) acc then acc else acc ++ [v])
                       l acc.
Proof.
  revert acc. induction l as [|v l IH]; intros acc Hin; cbn [fold_left].
  - destruct Hin as [Hin|Hin]; [exact Hin | inversion Hin].
  - apply IH. destruct Hin as [Hin|Hin].
    + left. destruct (existsb _ acc); [exact Hin | set_solver].
    + apply elem_of_cons in Hin as [<-|Hin]; [|right; exact Hin].
      left. destruct (existsb _ acc) eqn:E; [|set_solver].
      apply existsb_exists in E as (w & Hw & Heq).
      apply strict_eq_Str_l in Heq. subst w. apply list_elem_of_In. exact Hw.
Qed.

Lemma peers_set_elem (m : list (string * Peer.t)) (k : string) (v : Peer.t) :
  (k, v) ∈ peers_set m k v.
Proof.
  induction m as [|[k' v'] m IH]; cbn [peers_set]; [left|].
  case_bool_decide; [left | right; exact IH].
Qed.

Lemma getPeerAddresses_elem (this : t) (peerId s : string) (peer : Peer.t) :
  (peerId, peer) ∈ peers this →
  Peer.address peer = Js.Str s → s ≠ "" →
  Js.ToBoolean (Peer.nodeId peer) = true →
  Js.Str s ∈ getPeerAddresses this.
Proof.
  intros Hin Haddr Hs Hnode. unfold getPeerAddresses, Set_from.
  apply Set_from_fold_elem. right.
  apply list_elem_of_In, in_flat_map. exists (peerId, peer).
  split; [apply list_elem_of_In; exact Hin|].
  cbn [snd]. rewrite Haddr, Hnode. cbn [Js.ToBoolean].
  rewrite bool_decide_eq_false_2 by exact Hs. left. reflexivity.
Qed.

(** The address a peer claims in its HANDSHAKE is taken on trust.  A node
    that receives, from a known peer on its own network, a HANDSHAKE with
    a truthy node id and a non-empty address string records the address
    and lists it among the peer addresses from then on, first of all in
    the PEERS reply to that very handshake.  And the address that a node
    claims when it opens a connection is not an address: it is the text
    "ws://<YOUR_PUBLIC_IP_OR_DOMAIN>:" followed by the port. *)
Theorem claimed_address_is_gossiped (env : Ambient) (ws : socket)
    (msg payload remoteNetworkId remoteNodeId : Js.Value) (claimed peerId : string)
    (peer : Peer.t) (this : t) :
  peers_get (peers this) peerId = Some peer →
  readyState_of this ws = OPEN →
  Js.get msg "type" = Return (Js.Str HANDSHAKE) →
  Js.get msg "payload" = Return payload →
  Js.get payload "networkId" = Return remoteNetworkId →
  Js.strict_eq remoteNetworkId (Js.Str (networkId this)) = true →
  Js.get payload "nodeId" = Return remoteNodeId →
  Js.ToBoolean remoteNodeId = true →
  Js.get payload "address" = Return (Js.Str claimed) →
  claimed ≠ "" →
  (∃ this',
     handleMessage Number_toString env ws msg peerId this
     = (Return (), this', [Send ws (message PEERS (Js.Array (getPeerAddresses this')))])
     ∧ Js.Str claimed ∈ getPeerAddresses this')
  ∧ ∀ env' ws' tempId peerAddress node,
      readyState_of node ws' = OPEN →
      (on_open_outgoing env' ws' tempId peerAddress node).2
      = [EmitPeerConnected tempId;
         Send ws'
           (message HANDSHAKE
              (Js.Object
                 [("nodeId", Js.Str (nodeId node));
                  ("networkId", Js.Str (networkId node));
                  ("address", Js.Str ("ws://<YOUR_PUBLIC_IP_OR_DOMAIN>:" +:+ port node));
                  ("timestamp", Js.Number (IZR (Date_now env' 1)))]));
         Send ws' (Js.Object [("type", Js.Str DISCOVERY)])].
Proof.
  intros Hpeer Hopen Htype Hpayload Hnet Hsame Hnode Htruthy Haddr Hclaimed. split.
  - eexists. split.
    + rewrite (handleMessage_dispatch Number_toString env ws msg _ peerId peer this
                 Hpeer Htype).
      change (Js.strict_eq (Js.Str HANDSHAKE) (Js.Str HANDSHAKE)) with true. cbv iota.
      apply (case_HANDSHAKE_match this ws msg payload remoteNetworkId remoteNodeId
               (Js.Str claimed) peerId peer Hopen Hpayload Hnet Hnode Haddr Hsame).
    + apply (getPeerAddresses_elem _ peerId claimed
               (Peer.set_handshake remoteNodeId (Js.Str claimed) peer)).
      * cbn [peers set_peers]. apply peers_set_elem.
      * reflexivity.
      * exact Hclaimed.
      * exact Htruthy.
  - intros env' ws' tempId peerAddress node Hopen'.
    unfold on_open_outgoing. rewrite bind_get_this.
    rewrite (bind_run _ _ _ _ _ _ (addPeer_run env' ws' tempId "outgoing" peerAddress node)).
    rewrite (bind_run _ _ _ _ () _ (sendMessage_run _ _ _)).
    rewrite sendMessage_run.
    replace (readyState_of (set_peers _ node) ws') with OPEN by (symmetry; exact Hopen').
    rewrite bool_decide_eq_true_2 by reflexivity. reflexivity.
Qed.

End ClaimedAddress.

Section ClaimedAddressWitness.

Import P2PNode GossipSpec Examples NodeExamples.

Lemma claimed_address_is_gossiped_witness :
  ∃ this',
    handleMessage toy_Number_toString env0 1%nat (handshake "seirchain-default") "peer-1" node0
    = (Return (), this', [Send 1%nat (message PEERS (Js.Array (getPeerAddresses this')))])
    ∧ Js.Str "ws://10.0.0.1:6001" ∈ getPeerAddresses this'.
Proof.
  refine (proj1 (claimed_address_is_gossiped toy_Number_toString env0 1%nat
                   (handshake "seirchain-default") _ _ _ "ws://10.0.0.1:6001" "peer-1"
                   peer1 node0 eq_refl eq_refl eq_refl eq_refl eq_refl eq_refl eq_refl
                   eq_refl eq_refl _)).
  discriminate.
Defined.

End ClaimedAddressWitness.

(** * Removing a peer *)

Section RemovePeerTheorems.

Import P2PNode GossipSpec GossipFrames.

Lemma peers_get_delete_ne (m : list (string * Peer.t)) (k' k : string) :
  k ≠ k' → peers_get (peers_delete m k') k = peers_get m k.
Proof.
  intros Hne. induction m as [|[k0 v] m IH]; [reflexivity|].
  unfold peers_delete in *. cbn [List.filter fst peers_get].
  destruct (bool_decide (k0 = k')) eqn:E; cbn [negb peers_get].
  - apply bool_decide_eq_true_1 in E. subst k0.
    rewrite bool_decide_eq_false_2 by congruence. exact IH.
  - rewrite IH. reflexivity.
Qed.

Lemma peers_delete_absent (m : list (string * Peer.t)) (k : string) :
  peers_get m k = None → peers_delete m k = m.
Proof.
  induction m as [|[k0 v] m IH]; [reflexivity|].
  unfold peers_delete in *. cbn [List.filter fst peers_get].
  destruct (bool_decide (k0 = k)); [discriminate|].
  intros H. cbn [negb]. f_equal. exact (IH H).
Qed.

Lemma removePeer_absent (peerId : string) (this : t) :
  peers_get (peers this) peerId = None → removePeer peerId this = (Return (), this, []).
Proof. intros H. unfold removePeer. rewrite bind_get_this, H. reflexivity. Qed.

(** [removePeer] takes effect once.  For an id that is not in the peer map
    it does nothing at all.  For a peer of the map it terminates the
    peer's socket if that is open or connecting, deletes the entry and
    emits peerDisconnected; the other peers keep their entries, the
    socket is left neither open nor connecting, and a second call for the
    same id (the 'error' and the 'close' listener both call it) does
    nothing and emits nothing.  Removing a peer that was added under a
    fresh id gives back the peer map as it was before. *)
Theorem removePeer_once (peerId : string) (this : t) :
  (peers_get (peers this) peerId = None → removePeer peerId this = (Return (), this, []))
  ∧ (∀ peer,
       peers_get (peers this) peerId = Some peer →
       ∃ this1,
         removePeer peerId this
         = (Return (), this1,
            (if bool_decide (readyState_of this (Peer.ws peer) = OPEN)
                || bool_decide (readyState_of this (Peer.ws peer) = CONNECTING)
             then [Terminate (Peer.ws peer)] else [])
            ++ [EmitPeerDisconnected peerId])
         ∧ peers this1 = peers_delete (peers this) peerId
         ∧ peers_get (peers this1) peerId = None
         ∧ (∀ k, k ≠ peerId → peers_get (peers this1) k = peers_get (peers this) k)
         ∧ readyState_of this1 (Peer.ws peer) ≠ OPEN
         ∧ readyState_of this1 (Peer.ws peer) ≠ CONNECTING
         ∧ triadMatrix this1 = triadMatrix this
         ∧ removePeer peerId this1 = (Return (), this1, []))
  ∧ (∀ env ws direction url,
       peers_get (peers this) peerId = None →
       peers (final (removePeer peerId) (final (addPeer env ws peerId direction url) this))
       = peers this).
Proof.
  split; [apply removePeer_absent|]. split.
  - intros peer Hpeer. unfold removePeer at 1. rewrite bind_get_this, Hpeer.
    destruct (bool_decide (readyState_of this (Peer.ws peer) = OPEN)
              || bool_decide (readyState_of this (Peer.ws peer) = CONNECTING)) eqn:Hlive.
    + rewrite (bind_run _ _ _ _ () _ (terminate_run _ _)).
      rewrite bind_get_this, bind_put_this. cbn [app fst snd].
      eexists. split; [reflexivity|]. cbn [peers set_peers set_readyState triadMatrix].
      split; [reflexivity|]. split; [apply peers_get_delete|].
      split; [intros k Hk; apply peers_get_delete_ne; exact Hk|].
      assert (readyState_of
                (set_peers (peers_delete (peers this) peerId)
                   (set_readyState (<[Peer.ws peer := CLOSED]> (readyState this)) this))
                (Peer.ws peer) = CLOSED) as Hclosed.
      { unfold readyState_of. cbn. rewrite lookup_insert_eq. reflexivity. }
      rewrite Hclosed. split; [discriminate|]. split; [discriminate|].
      split; [reflexivity|]. apply removePeer_absent. cbn. apply peers_get_delete.
    + rewrite (bind_pure _ _ this ()) by reflexivity.
      rewrite bind_get_this, bind_put_this. cbn [app fst snd].
      eexists. split; [reflexivity|]. cbn [peers set_peers triadMatrix].
      split; [reflexivity|]. split; [apply peers_get_delete|].
      split; [intros k Hk; apply peers_get_delete_ne; exact Hk|].
      apply orb_false_iff in Hlive as [H1 H2].
      apply bool_decide_eq_false_1 in H1, H2.
      split; [exact H1|]. split; [exact H2|]. split; [reflexivity|].
      apply removePeer_absent. cbn. apply peers_get_delete.
  - intros env ws direction url Hfresh.
    unfold final at 2. rewrite addPeer_run. cbn [fst snd].
    rewrite (peers_set_fresh _ _ _ Hfresh).
    pose proof (peers_get_set (peers this) peerId
                  {| Peer.ws := ws; Peer.id := peerId; Peer.direction := direction;
                     Peer.url := url; Peer.connectedAt := Date_now env 0;
                     Peer.nodeId := Js.Undefined; Peer.address := Js.Undefined |})
      as Hadded.
    rewrite (peers_set_fresh _ _ _ Hfresh) in Hadded.
    unfold final, removePeer. rewrite bind_get_this. cbn [peers set_peers].
    rewrite Hadded.
    match goal with
    | |- context [bind ?c _ _] =>
        assert (∃ s1 w1, c (set_peers (peers this ++ [(peerId,
                  {| Peer.ws := ws; Peer.id := peerId; Peer.direction := direction;
                     Peer.url := url; Peer.connectedAt := Date_now env 0;
                     Peer.nodeId := Js.Undefined; Peer.address := Js.Undefined |})]) this)
                         = (Return (), s1, w1)
                         ∧ peers s1 = peers this ++ [(peerId,
                  {| Peer.ws := ws; Peer.id := peerId; Peer.direction := direction;
                     Peer.url := url; Peer.connectedAt := Date_now env 0;
                     Peer.nodeId := Js.Undefined; Peer.address := Js.Undefined |})])
          as (s1 & w1 & Hc & Hs1)
    end.
    { destruct (_ || _).
      - rewrite terminate_run. eexists _, _. split; reflexivity.
      - eexists _, _. split; reflexivity. }
    rewrite (bind_run _ _ _ _ () _ Hc), bind_get_this, bind_put_this. cbn [fst snd peers set_peers].
    rewrite Hs1. unfold peers_delete. rewrite List.filter_app. cbn [List.filter fst].
    rewrite bool_decide_eq_true_2 by reflexivity. cbn [negb]. rewrite app_nil_r.
    apply (peers_delete_absent _ _ Hfresh).
Qed.

End RemovePeerTheorems.

(** * Creating a triad from the command line *)

Section CliCreateTheorems.

Import TriadMatrix CreateSpec IdSpec.

Context {KeyPair : Type}.
Variable JSON_parse : string → option Js.Value.
Variable String_trim : string → string.

Lemma createTriad_InvalidData (env : Ambient) (this : t) (data0 validator0 : Js.Value) :
  isInitialized this = true → ¬ valid_data data0 →
  createTriad env this data0 validator0 = throw this InvalidData.
Proof.
  intros Hinit Hbad. unfold createTriad. rewrite Hinit. cbn [negb].
  destruct (negb (Js.ToBoolean data0) || _) eqn:Hd; [reflexivity|].
  apply valid_data_accepted in Hd. contradiction.
Qed.

(** [createTriad] of the command line, for a loaded wallet with a
    non-empty address, an initialized store and a text that is not blank.
    The text is parsed as JSON first.  A text that is not JSON is stored
    as a string, and a text that is JSON for an object, an array or a
    non-empty string is stored as that value; the new triad carries the
    wallet's address as its validator and is pending.  A text that is
    JSON for anything else (a number, a boolean, null, the empty string)
    is refused by the store with 'Invalid data format for triad', and
    nothing is stored.  Without a loaded wallet, or with a blank text, the
    method does not reach the store. *)
Theorem cli_createTriad_parses_first (env : Ambient) (this : @Cli.t KeyPair)
    (dataString a : string) :
  Wallet.isInitialized (Cli.wallet (KeyPair := KeyPair) this) = true →
  Wallet.getAddress (Cli.wallet this) = Some a →
  a ≠ "" →
  isInitialized (Cli.matrix this) = true →
  dataString ≠ "" →
  String_trim dataString ≠ "" →
  (∀ data,
     (JSON_parse dataString = None ∧ data = Js.Str dataString)
     ∨ (JSON_parse dataString = Some data ∧ valid_data data) →
     ∃ r m' effs,
       Cli.createTriad JSON_parse String_trim env this dataString = (Cli.Created r, m', effs)
       ∧ heap m' !! r = Some (new_triad env (Cli.matrix this) data (Js.Str a))
       ∧ heap (Cli.matrix this) !! r = None)
  ∧ (∀ data,
       JSON_parse dataString = Some data → ¬ valid_data data →
       Cli.createTriad JSON_parse String_trim env this dataString
       = (Cli.Failed InvalidData, Cli.matrix this, []))
  ∧ (∀ other : @Cli.t KeyPair,
       Wallet.isInitialized (Cli.wallet other) = false →
       Cli.createTriad JSON_parse String_trim env other dataString
       = (Cli.WalletNotLoaded, Cli.matrix other, []))
  ∧ (∀ blank,
       blank = "" ∨ String_trim blank = "" →
       Cli.createTriad JSON_parse String_trim env this blank
       = (Cli.EmptyData, Cli.matrix this, [])).
Proof.
  intros Hwallet Haddr Ha Hinit Hdata Htrim.
  assert (∀ data,
            match JSON_parse dataString with
            | Some parsed => parsed
            | None => Js.Str dataString
            end = data →
            Cli.createTriad JSON_parse String_trim env this dataString
            = (match result (createTriad env (Cli.matrix this) data (Js.Str a)) with
               | Return triad => Cli.Created triad
               | Throw e => Cli.Failed e
               end,
               after (createTriad env (Cli.matrix this) data (Js.Str a)),
               effects (createTriad env (Cli.matrix this) data (Js.Str a)))) as Hrun.
  { intros data <-. unfold Cli.createTriad. rewrite Hwallet, Haddr. cbn [negb].
    rewrite (bool_decide_eq_false_2 _ Hdata), (bool_decide_eq_false_2 _ Htrim).
    reflexivity. }
  split; [|split; [|split]].
  - intros data Hcase.
    assert (match JSON_parse dataString with
            | Some parsed => parsed
            | None => Js.Str dataString
            end = data ∧ valid_data data) as [Hparsed Hvalid].
    { destruct Hcase as [[Hp Hd]|[Hp Hv]]; rewrite Hp; [subst data|]; split;
        try reflexivity; [exact Hdata | exact Hv]. }
    rewrite (Hrun data Hparsed).
    assert (nonempty_string (Js.Str a)) as Hv by (exists a; split; [reflexivity | exact Ha]).
    pose proof (createTriad_accepts env (Cli.matrix this) data (Js.Str a) Hinit Hvalid Hv)
      as Hres.
    destruct (createTriad_returns env (Cli.matrix this) data (Js.Str a) _ Hres)
      as (_ & _ & Hheap & _).
    rewrite Hres. eexists _, _, _. split; [reflexivity|]. split.
    + rewrite Hheap. rewrite lookup_app_r by reflexivity.
      rewrite Nat.sub_diag. reflexivity.
    + apply lookup_ge_None_2. reflexivity.
  - intros data Hparsed Hbad.
    rewrite (Hrun data) by (rewrite Hparsed; reflexivity).
    rewrite (createTriad_InvalidData env (Cli.matrix this) data (Js.Str a) Hinit Hbad).
    reflexivity.
  - intros other Hnot. unfold Cli.createTriad. rewrite Hnot. reflexivity.
  - intros blank Hblank. unfold Cli.createTriad. rewrite Hwallet. cbn [negb].
    destruct Hblank as [-> | ->].
    + rewrite bool_decide_eq_true_2 by reflexivity. reflexivity.
    + rewrite (bool_decide_eq_true_2 ("" = "")) by reflexivity.
      rewrite orb_true_r. reflexivity.
Qed.

End CliCreateTheorems.

Section CliCreateWitness.

Import TriadMatrix CreateSpec Examples WalletExamples.

Lemma cli_createTriad_parses_first_witness :
  Cli.createTriad (λ _, Some Js.Null) (λ s, s) env0
    {| Cli.matrix := store0; Cli.wallet := loaded |} "null"
  = (Cli.Failed InvalidData, store0, []).
Proof.
  refine (proj1 (proj2 (cli_createTriad_parses_first (λ _, Some Js.Null) (λ s, s) env0
                          {| Cli.matrix := store0; Cli.wallet := loaded |} "null"
                          "seir5a5a5a5a5a5a5a5a5a5a5a5a5a5a5a5a5a5a"
                          eq_refl eq_refl _ eq_refl _ _))
            Js.Null eq_refl _).
  - discriminate.
  - discriminate.
  - discriminate.
  - intros H. exact H.
Defined.

End CliCreateWitness.

(** * Validation announcements from the network *)

Section AnnouncementTheorems.

Import P2PNode GossipSpec.

Variable Number_toString : R → string.





End AnnouncementTheorems.

Section AnnouncementWitness.

Import P2PNode GossipSpec Examples Scenario NodeExamples.


End AnnouncementWitness.

(** * The radius of connection and the grid *)

Section GridTheorems.

Import TriadMatrix Grid.
Open Scope R_scope.

Lemma calculateOptimalPosition_in_grid (env : Ambient) (this : t) (n : Z) :
  dimensions this = IZR n → (0 < n)%Z →
  (∀ i, 0 <= Math_random env i < 1) →
  in_grid n (calculateOptimalPosition env this).
Proof.
  intros Hdim Hn Hrandom.
  assert (0 < dimensions this) as Hpos by (rewrite Hdim; apply IZR_lt; exact Hn).
  unfold in_grid, calculateOptimalPosition. cbn [x y z].
  repeat split;
    match goal with
    | |- (0 ≤ Math_floor (Math_random env ?i * _))%Z =>
        apply le_IZR; apply (Math_floor_range _ _ (Hrandom i) Hpos)
    | |- (Math_floor (Math_random env ?i * _) < n)%Z =>
        apply lt_IZR; rewrite <- Hdim; apply (Math_floor_range _ _ (Hrandom i) Hpos)
    end.
Qed.

Lemma Position_eqb_spec (p q : Double.Position) : Position_eqb p q = true ↔ p = q.
Proof.
  unfold Position_eqb. rewrite !andb_true_iff, !FloatAxioms.Leibniz.eqb_spec.
  destruct p, q; cbn. split.
  - intros [[-> ->] ->]. reflexivity.
  - intros [= -> -> ->]. auto.
Qed.

(** On the default grid, with complexity 4, the filter of
    [getTriadConnections] accepts a position exactly when it is another
    one: all 27 x 27 pairs, evaluated in binary64. *)
Lemma cube3_filter :
  forallb (λ p,
     forallb (λ q,
        Bool.eqb ((Double.calculateDistance q p <=? 4)%float
                  && (0 <? Double.calculateDistance q p)%float)
                 (negb (Position_eqb q p)))
       cube3)
    cube3 = true.
Proof. vm_compute. reflexivity. Qed.

(** With the default parameters, dimensions 3 and complexity 4, the radius
    of connection reaches across the grid, so the filter of
    [getTriadConnections] excludes nothing but co-located triads: in
    binary64 arithmetic, two triads of the matrix with different ids whose
    positions are points of the grid are connected exactly when their
    positions differ.  The positions [calculateOptimalPosition] draws for
    dimensions 3 are points of that grid, and 3 and 4 are the parameters
    the constructor chooses by default. *)
Theorem radius_covers_the_grid (this : Double.t) (t1 t2 : Double.Triad) :
  Double.complexity this = 4%float →
  Double.position t1 ∈ cube3 →
  Double.position t2 ∈ cube3 →
  t2 ∈ Double.matrix this →
  Double.id t2 ≠ Double.id t1 →
  (t2 ∈ Double.getTriadConnections this t1 ↔ Double.position t2 ≠ Double.position t1)
  ∧ (∀ env store, dimensions store = 3 → (∀ i, 0 <= Math_random env i < 1) →
                  in_grid 3 (calculateOptimalPosition env store))
  ∧ (dimensions (constructor Examples.default_options) = 3
     ∧ complexity (constructor Examples.default_options) = 4).
Proof.
  intros Hc H1 H2 Hin Hid. split; [|split].
  - unfold Double.getTriadConnections.
    rewrite list_elem_of_In, filter_In, <- list_elem_of_In.
    rewrite (bool_decide_eq_false_2 _ Hid), Hc. cbv zeta.
    pose proof cube3_filter as Htable.
    rewrite forallb_forall in Htable.
    specialize (Htable _ (proj1 (list_elem_of_In _ _) H1)).
    rewrite forallb_forall in Htable.
    specialize (Htable _ (proj1 (list_elem_of_In _ _) H2)).
    apply Bool.eqb_prop in Htable. rewrite Htable.
    rewrite negb_true_iff, <- not_true_iff_false, Position_eqb_spec. tauto.
  - intros env store Hdim Hrandom.
    apply calculateOptimalPosition_in_grid; [exact Hdim|lia|exact Hrandom].
  - split; reflexivity.
Qed.

End GridTheorems.

Section GridWitness.

Import Grid DoubleExamples.

Lemma radius_covers_the_grid_witness :
  triadB ∈ Double.getTriadConnections store_AB triadA
  ↔ Double.position triadB ≠ Double.position triadA.
Proof.
  refine (proj1 (radius_covers_the_grid store_AB triadA triadB _ _ _ _ _)).
  - reflexivity.
  - apply list_elem_of_In. left. reflexivity.
  - apply list_elem_of_In. do 18 right. left. reflexivity.
  - apply list_elem_of_In. right. left. reflexivity.
  - discriminate.
Defined.

End GridWitness.
